(** * covid_p2p_simulation: exposure notification and risk propagation

    A shallow embedding of the message-passing core of the simulator:

    - [risk_prediction.py]: the rolling pseudonym ([update_uid]), the risk
      quantiser ([message_risk]), the contact clustering
      ([add_message_to_cluster]) and the three risk fusion models
      ([update_risk_encounter]);
    - [covid19sim/base.py]: the mailbox clean-up ([cleanup_global_mailbox])
      and the GAEN message budget ([register_new_messages],
      [_check_should_send_message_gaen]).

    Further parts: [risk_for_symptoms]; the identifier of a human as one
    object shared with the messages built by [cur_message] (module
    [SharedUid]); and the test facility of [covid19sim/base.py]
    ([get_available_test], [reset_tests_capacity], [add_to_test_queue],
    [score_test_need], [clear_test_queue], module [TestFacility]).

    Conventions.  A Python [float] is modelled by an exact rational [Q]; the
    statements below are about the formulas the code evaluates, not about
    binary rounding.  A [bitarray] is a [list bool], first bit first.  A
    [datetime] is a record of its calendar fields; differences of datetimes
    are taken through the proleptic Gregorian ordinal, as Python does.  A
    [dict] whose iteration order is observable is an association list in
    insertion order, any other [dict] is a [gmap].  Exceptions are explicit
    results. *)

From Stdlib Require Import QArith Qround Lqa Ascii String.
From stdpp Require Import base decidable option numbers list gmap fin_maps sorting strings.

Local Open Scope Z_scope.

(* ===================================================================== *)
(** * Python's [datetime] *)
(* ===================================================================== *)

Module DateTime.

Record datetime : Type := mk_datetime {
  year : Z;
  month : Z;
  day : Z;            (* day of the month, 1..31 *)
  hour : Z;
  minute : Z;
  second : Z;
  microsecond : Z
}.

#[global] Instance datetime_eq_dec : EqDecision datetime.
Proof. solve_decision. Defined.

Definition is_leap (y : Z) : bool :=
  (y mod 4 =? 0) && (negb (y mod 100 =? 0) || (y mod 400 =? 0)).

(** [_days_before_year]: days before January 1st of year [y]. *)
Definition days_before_year (y : Z) : Z :=
  let y' := y - 1 in y' * 365 + y' / 4 - y' / 100 + y' / 400.

Definition days_in_month (y m : Z) : Z :=
  if m =? 2 then (if is_leap y then 29 else 28)
  else if (m =? 4) || (m =? 6) || (m =? 9) || (m =? 11) then 30
  else 31.

(** [_days_before_month]: days in year [y] before the first of month [m]. *)
Definition days_before_month (y m : Z) : Z :=
  foldr (fun k acc => days_in_month y k + acc) 0
        (map Z.of_nat (seq 1 (Z.to_nat (m - 1)))).

(** [date.toordinal()]: January 1st of year 1 is day 1. *)
Definition toordinal (d : datetime) : Z :=
  days_before_year (year d) + days_before_month (year d) (month d) + day d.

Definition us_per_day : Z := 86400000000.

(** Microseconds since 0001-01-01T00:00 minus one day (naive datetime). *)
Definition to_us (d : datetime) : Z :=
  toordinal d * us_per_day
  + ((hour d * 60 + minute d) * 60 + second d) * 1000000 + microsecond d.

(** [(a - b)] as a [timedelta], in microseconds. *)
Definition sub (a b : datetime) : Z := to_us a - to_us b.

(** [(a - b).days]: a [timedelta] is normalised with
    [0 <= seconds < 86400], so [days] is the floor of the quotient. *)
Definition sub_days (a b : datetime) : Z := sub a b / us_per_day.

(** [max(a, b)] on datetimes: Python returns the first argument unless the
    second is strictly greater. *)
Definition max_dt (a b : datetime) : datetime :=
  if to_us a <? to_us b then b else a.

(** Midnight of a calendar date. *)
Definition date (y m d : Z) : datetime := mk_datetime y m d 0 0 0 0.

End DateTime.

(* ===================================================================== *)
(** * Bit arrays and binary strings *)
(* ===================================================================== *)

Module Bits.

(** [bitarray(s)] for a string of 0 and 1 characters: any other character
    raises [ValueError]. *)
Fixpoint bitarray_of_string (s : string) : option (list bool) :=
  match s with
  | EmptyString => Some []
  | String c s' =>
      b ← (if Ascii.eqb c "0"%char then Some false
           else if Ascii.eqb c "1"%char then Some true else None);
      (b ::.) <$> bitarray_of_string s'
  end.

(** ["".join([str(x) for x in np.array(b.tolist()).astype(int)])] *)
Fixpoint string_of_bitarray (b : list bool) : string :=
  match b with
  | [] => EmptyString
  | x :: b' => String (if x then "1"%char else "0"%char) (string_of_bitarray b')
  end.

(** [b.pop()]: removes and returns the last item; [IndexError] when the
    array is empty. *)
Definition pop (b : list bool) : option (bool * list bool) :=
  match reverse b with
  | [] => None
  | x :: r => Some (x, reverse r)
  end.

(** [b[:n]] *)
Definition prefix (n : nat) (b : list bool) : list bool := take n b.

Lemma bitarray_of_string_of_bitarray b :
  bitarray_of_string (string_of_bitarray b) = Some b.
Proof.
  induction b as [|x b IH]; [done|].
  destruct x; simpl; rewrite IH; done.
Qed.

Lemma pop_app b x : pop (b ++ [x]) = Some (x, b).
Proof. unfold pop. rewrite reverse_app. simpl. by rewrite reverse_involutive. Qed.

Lemma pop_Some b x r : pop b = Some (x, r) -> b = r ++ [x].
Proof.
  unfold pop. destruct (reverse b) as [|y l] eqn:E; [done|].
  intros [= <- <-].
  apply (f_equal reverse) in E. rewrite reverse_involutive in E.
  by rewrite E, reverse_cons.
Qed.

End Bits.

(* ===================================================================== *)
(** * Python's insertion-ordered [dict] *)
(* ===================================================================== *)

Module PyDict.
Section dict.
Context {K V : Type} `{EqDecision K}.

(** [d.get(k)], [None] standing for a missing key. *)
Fixpoint get (d : list (K * V)) (k : K) : option V :=
  match d with
  | [] => None
  | (k', v) :: d' => if decide (k = k') then Some v else get d' k
  end.

(** [d[k] = v]: an existing key keeps its position, a new one goes last. *)
Fixpoint set (d : list (K * V)) (k : K) (v : V) : list (K * V) :=
  match d with
  | [] => [(k, v)]
  | (k', v') :: d' =>
      if decide (k = k') then (k, v) :: d' else (k', v') :: set d' k v
  end.

(** [k in d] *)
Definition contains (d : list (K * V)) (k : K) : bool :=
  match get d k with Some _ => true | None => false end.

Definition keys (d : list (K * V)) : list K := d.*1.
Definition values (d : list (K * V)) : list V := d.*2.

Lemma get_set_eq d k v : get (set d k v) k = Some v.
Proof.
  induction d as [|[k' v'] d IH]; simpl.
  - by rewrite decide_True.
  - destruct (decide (k = k')) as [->|Hne]; simpl.
    + by rewrite decide_True.
    + by rewrite decide_False.
Qed.

Lemma get_set_ne d k k' v : k ≠ k' -> get (set d k v) k' = get d k'.
Proof.
  intros Hne. induction d as [|[k0 v0] d IH]; simpl.
  - by rewrite decide_False.
  - destruct (decide (k = k0)) as [->|Hne0]; simpl.
    + by rewrite !decide_False.
    + destruct (decide (k' = k0)); done.
Qed.

Lemma get_None_not_in d k : get d k = None <-> k ∉ keys d.
Proof.
  unfold keys. induction d as [|[k' v'] d IH]; simpl.
  - split; [intros _; apply not_elem_of_nil | done].
  - destruct (decide (k = k')) as [->|Hne].
    + split; [done | intros []; left].
    + rewrite IH, not_elem_of_cons. tauto.
Qed.

Lemma get_Some_in d k v : get d k = Some v -> (k, v) ∈ d.
Proof.
  induction d as [|[k' v'] d IH]; simpl; [done|].
  destruct (decide (k = k')) as [->|Hne].
  - intros [= ->]. left.
  - intros. right. auto.
Qed.

(** A fresh key appends one item. *)
Lemma set_fresh d k v : get d k = None -> set d k v = d ++ [(k, v)].
Proof.
  induction d as [|[k' v'] d IH]; simpl; [done|].
  destruct (decide (k = k')); [done|]. intros. by rewrite IH.
Qed.

(** An existing key keeps the length. *)
Lemma set_length_present d k v w :
  get d k = Some w -> length (set d k v) = length d.
Proof.
  revert w. induction d as [|[k' v'] d IH]; simpl; [done|].
  intros w. destruct (decide (k = k')); simpl; [done|].
  intros. f_equal. eauto.
Qed.

Lemma keys_set_fresh d k v : get d k = None -> keys (set d k v) = keys d ++ [k].
Proof. intros. rewrite set_fresh by done. unfold keys. by rewrite fmap_app. Qed.

(** An existing key keeps the keys, in their order. *)
Lemma keys_set_present d k v w : get d k = Some w -> keys (set d k v) = keys d.
Proof.
  unfold keys. revert w. induction d as [|[k' v'] d IH]; simpl; [done|].
  intros w. destruct (decide (k = k')) as [->|Hne]; simpl; [done|].
  intros Hw. f_equal. by apply (IH w).
Qed.

Lemma length_set d k v :
  length (set d k v)
  = (length d + (if contains d k then 0 else 1))%nat.
Proof.
  unfold contains. destruct (get d k) as [w|] eqn:Hg.
  - rewrite (set_length_present _ _ _ w) by done. lia.
  - rewrite set_fresh by done. rewrite length_app. simpl. lia.
Qed.

End dict.
End PyDict.

(* ===================================================================== *)
(** * risk_prediction.py *)
(* ===================================================================== *)

(** [Message = namedtuple('message', 'uid risk time unobs_id')] *)
Module Message.
Record t : Type := mk {
  uid : list bool;
  risk : list bool;
  time : DateTime.datetime;
  unobs_id : Z
}.

#[global] Instance eq_dec : EqDecision t.
Proof. solve_decision. Defined.
End Message.

(** The value stored in [human.M] for an encoded message: a dict with the
    three keys ['assignment'], ['previous_risk'] and
    ['carry_over_transmission_proba']. *)
Module Cluster.
Record t : Type := mk {
  assignment : Z;
  previous_risk : Q;
  carry_over_transmission_proba : Q
}.
End Cluster.

(** [np.random.RandomState]: the generator is a fixed stream of draws and a
    cursor; one object is shared by all humans, so it is threaded through
    every call that draws. *)
Module RandomState.
Record t : Type := mk {
  stream : nat -> bool;
  pos : nat
}.

(** [rng.choice([True, False])] *)
Definition choice (g : t) : bool * t :=
  (stream g (pos g), mk (stream g) (S (pos g))).

(** [rng.choice([True, False], n)] *)
Fixpoint choice_n (n : nat) (g : t) : list bool * t :=
  match n with
  | O => ([], g)
  | S n' =>
      let '(b, g1) := choice g in
      let '(bs, g2) := choice_n n' g1 in
      (b :: bs, g2)
  end.

Lemma choice_n_length n g : length (choice_n n g).1 = n.
Proof.
  revert g. induction n as [|n IH]; intros g; simpl; [done|].
  specialize (IH (mk (stream g) (S (pos g)))).
  destruct (choice_n n _) as [bs g2]. simpl in *. by rewrite IH.
Qed.
End RandomState.

(** The exceptions the modelled code can raise. *)
Inductive exn : Type :=
  | KeyError
  | IndexError
  | ValueError
  | ZeroDivisionError.

#[global] Instance exn_eq_dec : EqDecision exn.
Proof. solve_decision. Defined.

(** [class dummy_human]; [_uid] is absent until [update_uid] first runs. *)
Module dummy_human.
Record t (Enc : Type) : Type := mk {
  name : Z;
  M : list (Enc * Cluster.t);
  messages : list Message.t;
  risk : Q;
  _uid : option (list bool)
}.
Arguments mk {Enc}.
Arguments name {Enc}.
Arguments M {Enc}.
Arguments messages {Enc}.
Arguments risk {Enc}.
Arguments _uid {Enc}.

Definition set_M {Enc} (h : t Enc) (m : list (Enc * Cluster.t)) : t Enc :=
  mk (name h) m (messages h) (risk h) (_uid h).
Definition set_risk {Enc} (h : t Enc) (r : Q) : t Enc :=
  mk (name h) (M h) (messages h) r (_uid h).
Definition set_uid {Enc} (h : t Enc) (u : list bool) : t Enc :=
  mk (name h) (M h) (messages h) (risk h) (Some u).

(** [dummy_human(name, rng)] *)
Definition init {Enc} (n : Z) : t Enc := mk n [] [] 0%Q None.
End dummy_human.

Module RiskPrediction.
Import Bits.

(** ** Helpers of [utils] that the codec relies on *)

(** Binary digits of a positive number, most significant first. *)
Fixpoint pos_bin (p : positive) : string :=
  match p with
  | xH => "1"
  | xO p' => pos_bin p' +:+ "0"
  | xI p' => pos_bin p' +:+ "1"
  end.

Definition bin (z : Z) : string :=
  match z with
  | Z0 => "0"
  | Zpos p => pos_bin p
  | Zneg p => "-" +:+ pos_bin p
  end.

Fixpoint zeros (n : nat) : string :=
  match n with O => "" | S n' => String "0"%char (zeros n') end.

(** Left padding with zeros up to width [w]. *)
Definition zfill (w : nat) (s : string) : string :=
  zeros (w - String.length s) +:+ s.

(** Value of a string of binary digits, most significant first. *)
Fixpoint int2_acc (acc : Z) (s : string) : Z :=
  match s with
  | EmptyString => acc
  | String c s' => int2_acc (2 * acc + (if Ascii.eqb c "1"%char then 1 else 0)) s'
  end.

Definition int2 (s : string) : Z := int2_acc 0 s.

Section risk_prediction.

(** [config.py] is not part of the sources at hand: its two constants are
    parameters. *)
Variable RISK_TRANSMISSION_PROBA : Q.
Variable CLIP_RISK : bool.

(** [utils._encode_message] and [utils._decode_message] are not part of the
    sources at hand: the key type of [human.M] and the two conversions are
    parameters. *)
Context {Enc : Type} `{EqDecision Enc}.
Variable _encode_message : Message.t -> Enc.
Variable _decode_message : Enc -> Message.t.

(** The rounding to an integer used by the quantiser, left open by the
    specification (floor or nearest). *)
Variable rnd : Q -> Z.

(** Modelled from the spec: [utils.float_to_binary] is missing from the
    sources.  The specification says that a risk in [0,1] is mapped to an
    N-bit code by linear quantization, here with [m] integer and [n]
    fractional binary digits: the risk is scaled by [2^n], rounded, and
    written with [m + n] binary digits.  Outside [0,1] the specification
    fixes nothing; the model writes the scaled integer as it is. *)
Definition float_to_binary (x : Q) (m n : nat) : string :=
  zfill (m + n) (bin (rnd (x * inject_Z (2 ^ Z.of_nat n)))).

(** Modelled from the spec: [utils.binary_to_float] is missing from the
    sources.  The specification calls it the inverse quantization: the
    integer written by the digits, divided by [2^n]. *)
Definition binary_to_float (bstr : string) (m n : nat) : Q :=
  inject_Z (int2 bstr) / inject_Z (2 ^ Z.of_nat n).

(** ** [dummy_human.message_risk] *)

(** The property [message_risk]: the risk quantised on four bits, with 1.0
    sent as [1111]. *)
Definition message_risk (self : dummy_human.t Enc) : option (list bool) :=
  if Qeq_bool (dummy_human.risk self) 1 then bitarray_of_string "1111"
  else bitarray_of_string (float_to_binary (dummy_human.risk self) 0 4).

(** The expression that reads the risk of a received message back
    (first statement of both [add_message_to_cluster] and
    [update_risk_encounter]). *)
Definition m_risk_of (risk_bits : list bool) : Q :=
  binary_to_float (string_of_bitarray risk_bits) 0 4.

(** ** [dummy_human.update_uid] *)

Definition update_uid (self : dummy_human.t Enc) (rng : RandomState.t)
  : exn + (dummy_human.t Enc * RandomState.t) :=
  match dummy_human._uid self with
  | Some u =>
      (* self._uid.pop() *)
      match pop u with
      | None => inl IndexError
      | Some (_, u') =>
          (* self._uid.extend([self.rng.choice([True, False])]) *)
          let '(b, rng') := RandomState.choice rng in
          inr (dummy_human.set_uid self (u' ++ [b]), rng')
      end
  | None =>
      (* except AttributeError: a fresh bitarray of four random bits *)
      let '(bs, rng') := RandomState.choice_n 4 rng in
      inr (dummy_human.set_uid self ([] ++ bs), rng')
  end.

(** [n] successive calls of [update_uid] (one per day of the main loop). *)
Fixpoint update_uid_n (n : nat) (self : dummy_human.t Enc) (rng : RandomState.t)
  : exn + (dummy_human.t Enc * RandomState.t) :=
  match n with
  | O => inr (self, rng)
  | S n' =>
      match update_uid self rng with
      | inl e => inl e
      | inr (self', rng') => update_uid_n n' self' rng'
      end
  end.

(** ** [add_message_to_cluster] *)

(** The [if]/[elif] ladder that scores the new message [m_i] against a
    stored message [m]; [None] when no branch is taken. *)
Definition score (m_i m : Message.t) : option Z :=
  let d_i := DateTime.day (Message.time m_i) in
  let d := DateTime.day (Message.time m) in
  if bool_decide (Message.uid m_i = Message.uid m) && (d_i =? d) then Some 3
  else if bool_decide (prefix 3 (Message.uid m_i) = prefix 3 (Message.uid m))
          && (d_i - 1 =? d) then Some 2
  else if bool_decide (prefix 2 (Message.uid m_i) = prefix 2 (Message.uid m))
          && (d_i - 2 =? d) then Some 1
  else if bool_decide (prefix 1 (Message.uid m_i) = prefix 1 (Message.uid m))
          && (d_i - 2 =? d) then Some 0
  else None.

(** The [for] loop that fills [scores]. *)
Definition scores_of (M : list (Enc * Cluster.t)) (m_i : Message.t)
  : list (Enc * Z) :=
  foldl (fun scores '(m_enc, _) =>
           match score m_i (_decode_message m_enc) with
           | Some s => PyDict.set scores m_enc s
           | None => scores
           end) [] M.

(** [max(items, key=...)] on a non-empty sequence [x :: l]: the first item
    whose key is maximal. *)
Fixpoint max_by {A : Type} (key : A -> Z) (x : A) (l : list A) : A :=
  match l with
  | [] => x
  | y :: l' => max_by key (if key x <? key y then y else x) l'
  end.

Definition add_message_to_cluster (human : dummy_human.t Enc) (m_i : Message.t)
  : exn + dummy_human.t Enc :=
  let M := dummy_human.M human in
  let m_i_enc := _encode_message m_i in
  let m_risk := m_risk_of (Message.risk m_i) in
  match scores_of M m_i with
  | s :: ss =>
      let max_score_message := (max_by snd s ss).1 in
      match PyDict.get M max_score_message with
      | None => inl KeyError
      | Some c =>
          inr (dummy_human.set_M human
                 (PyDict.set M m_i_enc
                    (Cluster.mk (Cluster.assignment c) m_risk RISK_TRANSMISSION_PROBA)))
      end
  | [] =>
      match M with
      | [] =>
          inr (dummy_human.set_M human
                 (PyDict.set M m_i_enc (Cluster.mk 0 m_risk RISK_TRANSMISSION_PROBA)))
      | kv :: M' =>
          let new_group :=
            max_by id (Cluster.assignment kv.2) (Cluster.assignment <$> M'.*2) + 1 in
          inr (dummy_human.set_M human
                 (PyDict.set M m_i_enc
                    (Cluster.mk new_group m_risk RISK_TRANSMISSION_PROBA)))
      end
  end.

(** Successive calls of [add_message_to_cluster] on a list of messages. *)
Fixpoint add_messages_to_cluster (human : dummy_human.t Enc) (ms : list Message.t)
  : exn + dummy_human.t Enc :=
  match ms with
  | [] => inr human
  | m_i :: ms' =>
      match add_message_to_cluster human m_i with
      | inl e => inl e
      | inr human' => add_messages_to_cluster human' ms'
      end
  end.

(** ** [update_risk_encounter] *)

(** The value of [RISK_MODEL]; any other string leaves [update] at 0. *)
Inductive risk_model : Type := yoshua | lenka | eilif | other_model.

(** [min(a, b)]: the first argument unless the second is smaller. *)
Definition py_min (a b : Q) : Q := if Qlt_le_dec b a then b else a.

Definition update_risk_encounter (human : dummy_human.t Enc)
    (message : Message.t) (RISK_MODEL : risk_model)
  : exn + dummy_human.t Enc :=
  let m_risk := m_risk_of (Message.risk message) in
  let risk := dummy_human.risk human in
  let M := dummy_human.M human in
  let after_model : exn + (Q * list (Enc * Cluster.t)) :=
    match RISK_MODEL with
    | yoshua =>
        if Qlt_le_dec risk m_risk
        then inr ((m_risk - m_risk * risk) * RISK_TRANSMISSION_PROBA, M)%Q
        else inr (0%Q, M)
    | lenka => inr ((m_risk * RISK_TRANSMISSION_PROBA)%Q, M)
    | eilif =>
        let msg_enc := _encode_message message in
        let update :=
          match PyDict.get M msg_enc with
          | None => (m_risk * RISK_TRANSMISSION_PROBA)%Q
          | Some c =>
              ((m_risk - Cluster.previous_risk c) * RISK_TRANSMISSION_PROBA
               + Cluster.previous_risk c * Cluster.carry_over_transmission_proba c)%Q
          end in
        (* human.M[msg_enc]['previous_risk'] = m_risk *)
        match PyDict.get M msg_enc with
        | None => inl KeyError
        | Some c =>
            let M1 := PyDict.set M msg_enc
                        (Cluster.mk (Cluster.assignment c) m_risk
                           (Cluster.carry_over_transmission_proba c)) in
            (* human.M[msg_enc]['carry_over_transmission_proba'] = ... *)
            match PyDict.get M1 msg_enc with
            | None => inl KeyError
            | Some c1 =>
                inr (update,
                     PyDict.set M1 msg_enc
                       (Cluster.mk (Cluster.assignment c1) (Cluster.previous_risk c1)
                          (RISK_TRANSMISSION_PROBA * (1 - update))%Q))
            end
        end
    | other_model => inr (0%Q, M)
    end in
  match after_model with
  | inl e => inl e
  | inr (update, M') =>
      let risk' := (risk + update)%Q in
      let risk'' := if CLIP_RISK then py_min risk' 1 else risk' in
      inr (dummy_human.set_risk (dummy_human.set_M human M') risk'')
  end.

(** Successive fusions of a list of messages under one model. *)
Fixpoint update_risk_encounters (human : dummy_human.t Enc)
    (ms : list Message.t) (RISK_MODEL : risk_model)
  : exn + dummy_human.t Enc :=
  match ms with
  | [] => inr human
  | m :: ms' =>
      match update_risk_encounter human m RISK_MODEL with
      | inl e => inl e
      | inr human' => update_risk_encounters human' ms' RISK_MODEL
      end
  end.

(** ** Facts on the codec *)

Section codec_facts.

(** Whatever the rounding rule, it leaves an integer as it is. *)
Hypothesis rnd_exact : forall (q : Q) (k : Z), (q == inject_Z k)%Q -> rnd q = k.

Lemma scaled_step (x : Q) (k : Z) :
  (x == k # 16)%Q -> rnd (x * inject_Z (2 ^ Z.of_nat 4)) = k.
Proof.
  intros Hx. apply rnd_exact. rewrite Hx.
  unfold Qeq, Qmult, inject_Z. simpl. lia.
Qed.

Lemma not_one_below (x : Q) (k : Z) :
  (x == k # 16)%Q -> k < 16 -> Qeq_bool x 1 = false.
Proof.
  intros Hx Hk. destruct (Qeq_bool x 1) eqn:E; [|done].
  apply Qeq_bool_eq in E. rewrite Hx in E.
  unfold Qeq in E. simpl in E. lia.
Qed.

(** C9 (as amended).  For every risk [k/16] with [0 <= k <= 15] the four-bit
    code of [message_risk] reads back as the same risk.  The risk 1.0 is
    sent as the all-ones code, which reads back as 15/16. *)
Theorem message_risk_roundtrip (self : dummy_human.t Enc) :
  (forall k : Z, 0 <= k <= 15 -> (dummy_human.risk self == k # 16)%Q ->
     exists code, message_risk self = Some code /\ length code = 4%nat
                  /\ (m_risk_of code == dummy_human.risk self)%Q)
  /\ ((dummy_human.risk self == 1)%Q ->
      message_risk self = Some [true; true; true; true]
      /\ (m_risk_of [true; true; true; true] == 15 # 16)%Q).
Proof.
  split.
  - intros k Hk Hr. unfold message_risk, float_to_binary.
    rewrite (not_one_below _ k Hr) by lia.
    rewrite (scaled_step _ k Hr).
    assert (Hcases : k = 0 \/ k = 1 \/ k = 2 \/ k = 3 \/ k = 4 \/ k = 5 \/ k = 6
                     \/ k = 7 \/ k = 8 \/ k = 9 \/ k = 10 \/ k = 11 \/ k = 12
                     \/ k = 13 \/ k = 14 \/ k = 15) by lia.
    repeat (destruct Hcases as [-> | Hcases]); try subst k;
      (eexists; split; [reflexivity | split; [reflexivity | rewrite Hr; reflexivity]]).
  - intros Hr. unfold message_risk.
    apply Qeq_eq_bool in Hr. rewrite Hr. split; reflexivity.
Qed.

End codec_facts.

(** ** Facts on [update_uid] *)

(** The identifier, when present, has four bits. *)
Definition uid_ok (self : dummy_human.t Enc) : Prop :=
  match dummy_human._uid self with
  | None => True
  | Some u => length u = 4%nat
  end.

Lemma update_uid_first (self : dummy_human.t Enc) (rng : RandomState.t) :
  dummy_human._uid self = None ->
  update_uid self rng =
    inr (dummy_human.set_uid self (RandomState.choice_n 4 rng).1,
         (RandomState.choice_n 4 rng).2).
Proof. intros Hu. unfold update_uid. rewrite Hu. reflexivity. Qed.

Lemma update_uid_next (self : dummy_human.t Enc) (rng : RandomState.t) u' x :
  dummy_human._uid self = Some (u' ++ [x]) ->
  update_uid self rng =
    inr (dummy_human.set_uid self (u' ++ [RandomState.stream rng (RandomState.pos rng)]),
         RandomState.mk (RandomState.stream rng) (S (RandomState.pos rng))).
Proof. intros Hu. unfold update_uid. rewrite Hu, pop_app. reflexivity. Qed.

Lemma update_uid_ok (self : dummy_human.t Enc) (rng : RandomState.t) :
  uid_ok self ->
  exists self' rng' u, update_uid self rng = inr (self', rng')
    /\ dummy_human._uid self' = Some u /\ length u = 4%nat.
Proof.
  unfold uid_ok. destruct (dummy_human._uid self) as [u|] eqn:Hu.
  - intros Hlen.
    destruct (pop u) as [[x u']|] eqn:Hp.
    + apply pop_Some in Hp. subst u.
      rewrite (update_uid_next _ rng _ _ Hu).
      do 3 eexists. split; [reflexivity|]. split; [reflexivity|].
      rewrite length_app in *. simpl in *. lia.
    + unfold pop in Hp. destruct (reverse u) eqn:E; [|done].
      apply (f_equal length) in E. rewrite length_reverse in E.
      simpl in E. lia.
  - intros _. rewrite (update_uid_first _ rng Hu).
    do 3 eexists. split; [reflexivity|]. split; [reflexivity|].
    apply (RandomState.choice_n_length 4).
Qed.

(** C10 (as amended).  [update_uid] keeps the identifier but for its last
    bit, the one appended by the previous call, which it replaces by a bit
    drawn from the generator; a human without identifier gets four drawn
    bits.  After any number of calls the identifier has four bits. *)
Theorem update_uid_rotation (self : dummy_human.t Enc) (rng : RandomState.t) :
  uid_ok self ->
  (forall u' x, dummy_human._uid self = Some (u' ++ [x]) ->
     update_uid self rng =
       inr (dummy_human.set_uid self
              (u' ++ [RandomState.stream rng (RandomState.pos rng)]),
            RandomState.mk (RandomState.stream rng) (S (RandomState.pos rng))))
  /\ (dummy_human._uid self = None ->
      update_uid self rng =
        inr (dummy_human.set_uid self (RandomState.choice_n 4 rng).1,
             (RandomState.choice_n 4 rng).2)
      /\ length (RandomState.choice_n 4 rng).1 = 4%nat)
  /\ (forall n : nat, (0 < n)%nat ->
      exists self' rng' u, update_uid_n n self rng = inr (self', rng')
        /\ dummy_human._uid self' = Some u /\ length u = 4%nat).
Proof.
  intros Hok. split; [|split].
  - intros u' x Hu. by apply (update_uid_next _ _ _ x).
  - intros Hu. split; [by apply update_uid_first|].
    apply RandomState.choice_n_length.
  - intros n. revert self rng Hok.
    induction n as [|n IH]; intros self rng Hok Hn; [lia|].
    destruct (update_uid_ok self rng Hok) as (s1 & g1 & u1 & Hstep & Hu1 & Hlen1).
    simpl. rewrite Hstep.
    destruct n as [|n'].
    + simpl. by exists s1, g1, u1.
    + apply IH; [|lia]. unfold uid_ok. by rewrite Hu1.
Qed.

(** ** Facts on [add_message_to_cluster] *)

Lemma max_by_elem {A : Type} (key : A -> Z) (x : A) (l : list A) :
  max_by key x l ∈ x :: l.
Proof.
  revert x. induction l as [|y l IH]; intros x; simpl; [left|].
  specialize (IH (if key x <? key y then y else x)).
  apply elem_of_cons in IH as [-> | IH].
  - destruct (key x <? key y); [right; left | left].
  - right. by right.
Qed.

Lemma max_by_ge {A : Type} (key : A -> Z) (x : A) (l : list A) (y : A) :
  y ∈ x :: l -> key y <= key (max_by key x l).
Proof.
  revert x y. induction l as [|z l IH]; intros x y Hy; simpl.
  - apply list_elem_of_singleton in Hy as ->. lia.
  - set (x' := if key x <? key z then z else x).
    assert (Hx : key x <= key x' /\ key z <= key x').
    { unfold x'. destruct (Z.ltb_spec (key x) (key z)); lia. }
    assert (Hx' : key x' <= key (max_by key x' l)) by (apply IH; left).
    apply elem_of_cons in Hy as [-> | Hy]; [lia|].
    apply elem_of_cons in Hy as [-> | Hy]; [lia|].
    apply IH. by right.
Qed.

Lemma keys_set_incl {V : Type} (d : list (Enc * V)) k v k' :
  k' ∈ PyDict.keys (PyDict.set d k v) -> k' = k \/ k' ∈ PyDict.keys d.
Proof.
  unfold PyDict.keys. induction d as [|[k0 v0] d IH]; simpl.
  - intros Hin. apply list_elem_of_singleton in Hin. by left.
  - destruct (decide (k = k0)) as [->|Hne]; simpl.
    + intros Hin. apply elem_of_cons in Hin as [->|Hin]; [by left|].
      right. by right.
    + intros Hin. apply elem_of_cons in Hin as [->|Hin]; [right; left|].
      destruct (IH Hin) as [->|Hd]; [by left|]. right. by right.
Qed.

(** Every scored key is a key of the table. *)
Lemma scores_of_keys (M : list (Enc * Cluster.t)) (m_i : Message.t) k :
  k ∈ PyDict.keys (scores_of M m_i) -> k ∈ PyDict.keys M.
Proof.
  unfold scores_of.
  assert (Hgen : forall acc,
    k ∈ PyDict.keys
          (foldl (fun scores '(m_enc, _) =>
                    match score m_i (_decode_message m_enc) with
                    | Some s => PyDict.set scores m_enc s
                    | None => scores
                    end) acc M) ->
    k ∈ PyDict.keys acc \/ k ∈ PyDict.keys M).
  { induction M as [|[k0 c0] M IH]; intros acc; simpl; [by left|].
    intros Hin. apply IH in Hin as [Hin|Hin].
    - destruct (score m_i (_decode_message k0)).
      + apply keys_set_incl in Hin as [->|Hin]; [right; left | by left].
      + by left.
    - right. unfold PyDict.keys in *. simpl. by right. }
  intros Hin. apply Hgen in Hin as [Hin|Hin]; [|done].
  by apply elem_of_nil in Hin.
Qed.

(** The group ids present in a table, and how many distinct ones. *)
Definition group_ids (M : list (Enc * Cluster.t)) : list Z :=
  Cluster.assignment <$> M.*2.

Definition num_groups (M : list (Enc * Cluster.t)) : nat :=
  length (remove_dups (group_ids M)).

(** The outcome of one call: never a [KeyError]; the entry written carries
    the decoded risk and the base transmission probability; its group is
    that of the best scored stored message, else 0 in an empty table, else
    one more than the largest group id. *)
Lemma add_message_to_cluster_inr (human : dummy_human.t Enc) (m_i : Message.t) :
  let M := dummy_human.M human in
  exists c,
    add_message_to_cluster human m_i =
      inr (dummy_human.set_M human (PyDict.set M (_encode_message m_i) c))
    /\ Cluster.previous_risk c = m_risk_of (Message.risk m_i)
    /\ Cluster.carry_over_transmission_proba c = RISK_TRANSMISSION_PROBA
    /\ match scores_of M m_i with
       | s :: ss =>
           exists c0, PyDict.get M (max_by snd s ss).1 = Some c0
                      /\ Cluster.assignment c = Cluster.assignment c0
       | [] =>
           match group_ids M with
           | [] => Cluster.assignment c = 0
           | g :: gs => Cluster.assignment c = max_by id g gs + 1
           end
       end.
Proof.
  intros M. unfold add_message_to_cluster. fold M.
  destruct (scores_of M m_i) as [|s ss] eqn:Hs.
  - unfold group_ids. destruct M as [|kv M']; simpl.
    + eexists. split; [reflexivity|]. done.
    + eexists. split; [reflexivity|]. done.
  - assert (Hk : (max_by snd s ss).1 ∈ PyDict.keys M).
    { apply (scores_of_keys M m_i). rewrite Hs. unfold PyDict.keys.
      apply list_elem_of_fmap. exists (max_by snd s ss). split; [done|].
      apply max_by_elem. }
    destruct (PyDict.get M (max_by snd s ss).1) as [c0|] eqn:Hg.
    + eexists. split; [reflexivity|]. simpl. eauto.
    + by apply PyDict.get_None_not_in in Hg.
Qed.

(** The group ids of a table are exactly [0, .., n-1]. *)
Definition ids_range (M : list (Enc * Cluster.t)) (n : nat) : Prop :=
  forall g : Z, g ∈ group_ids M <-> 0 <= g < Z.of_nat n.

Lemma ids_range_num_groups (M : list (Enc * Cluster.t)) (n : nat) :
  ids_range M n -> num_groups M = n.
Proof.
  intros Hr. unfold num_groups.
  assert (Hp : remove_dups (group_ids M) ≡ₚ Z.of_nat <$> seq 0 n).
  { apply NoDup_Permutation.
    - apply NoDup_remove_dups.
    - apply NoDup_fmap_2; [apply _ | apply NoDup_seq].
    - intros g. rewrite elem_of_remove_dups, (Hr g), list_elem_of_fmap.
      split.
      + intros Hg. exists (Z.to_nat g). split; [lia|].
        apply elem_of_seq. lia.
      + intros (i & -> & Hi). apply elem_of_seq in Hi. lia. }
  rewrite Hp, length_fmap, length_seq. done.
Qed.

Lemma group_ids_app (M : list (Enc * Cluster.t)) k c :
  group_ids (M ++ [(k, c)]) = group_ids M ++ [Cluster.assignment c].
Proof. unfold group_ids. by rewrite !fmap_app. Qed.

(** One call on a fresh key keeps the group ids a range. *)
Lemma add_message_to_cluster_range (human : dummy_human.t Enc)
    (m_i : Message.t) (n : nat) :
  ids_range (dummy_human.M human) n ->
  PyDict.get (dummy_human.M human) (_encode_message m_i) = None ->
  exists c n',
    add_message_to_cluster human m_i =
      inr (dummy_human.set_M human
             (dummy_human.M human ++ [(_encode_message m_i, c)]))
    /\ ids_range (dummy_human.M human ++ [(_encode_message m_i, c)]) n'.
Proof.
  intros Hr Hfresh.
  destruct (add_message_to_cluster_inr human m_i) as (c & Hrun & _ & _ & Hgrp).
  rewrite PyDict.set_fresh in Hrun by done.
  exists c. destruct (scores_of (dummy_human.M human) m_i) as [|s ss].
  - destruct (group_ids (dummy_human.M human)) as [|g gs] eqn:Hids.
    + exists 1%nat. split; [done|]. intros g.
      rewrite group_ids_app, Hids, Hgrp. simpl.
      rewrite list_elem_of_singleton. lia.
    + exists (S n). split; [done|].
      assert (Hmax_in : max_by id g gs ∈ group_ids (dummy_human.M human)).
      { rewrite Hids. apply max_by_elem. }
      assert (Hmax_ge : forall y, y ∈ group_ids (dummy_human.M human) ->
                                  y <= max_by id g gs).
      { intros y Hy. rewrite Hids in Hy. apply (max_by_ge id g gs y Hy). }
      apply Hr in Hmax_in.
      assert (Hlast : Z.of_nat n - 1 ∈ group_ids (dummy_human.M human)).
      { apply Hr. lia. }
      apply Hmax_ge in Hlast.
      intros g'. rewrite group_ids_app, elem_of_app, (Hr g'), Hgrp.
      rewrite list_elem_of_singleton. lia.
  - destruct Hgrp as (c0 & Hget & Hc).
    exists n. split; [done|]. intros g.
    rewrite group_ids_app, elem_of_app, (Hr g), list_elem_of_singleton.
    split; [|by left]. intros [Hg | ->]; [done|].
    apply Hr. rewrite Hc. unfold group_ids.
    apply list_elem_of_fmap_2.
    apply PyDict.get_Some_in in Hget.
    by apply (list_elem_of_fmap_2 snd) in Hget.
Qed.

Section cluster_facts.

(** Distinct messages have distinct encodings. *)
Hypothesis encode_inj : Inj (=) (=) _encode_message.

Lemma add_messages_to_cluster_range (ms : list Message.t) :
  forall (human : dummy_human.t Enc) (n : nat),
    ids_range (dummy_human.M human) n ->
    NoDup ms ->
    (forall m, m ∈ ms -> _encode_message m ∉ PyDict.keys (dummy_human.M human)) ->
    exists human' n',
      add_messages_to_cluster human ms = inr human'
      /\ length (dummy_human.M human')
         = (length (dummy_human.M human) + length ms)%nat
      /\ ids_range (dummy_human.M human') n'.
Proof.
  induction ms as [|m ms IH]; intros human n Hr Hnd Hfresh; simpl.
  - exists human, n. split; [done|]. split; [lia | done].
  - apply NoDup_cons in Hnd as [Hm Hnd].
    assert (Hget : PyDict.get (dummy_human.M human) (_encode_message m) = None).
    { apply PyDict.get_None_not_in, Hfresh. left. }
    destruct (add_message_to_cluster_range human m n Hr Hget)
      as (c & n1 & Hrun & Hr1).
    rewrite Hrun.
    destruct (IH (dummy_human.set_M human
                    (dummy_human.M human ++ [(_encode_message m, c)])) n1)
      as (human' & n' & Hrun' & Hlen & Hr'); [done | done | |].
    + intros m' Hm'. simpl. unfold PyDict.keys. rewrite fmap_app. simpl.
      rewrite elem_of_app, list_elem_of_singleton.
      intros [Hin | Heq].
      * apply (Hfresh m'); [by right | done].
      * apply encode_inj in Heq. by subst m'.
    + exists human', n'. split; [done|]. split; [|done].
      rewrite Hlen. simpl. rewrite length_app. simpl. lia.
Qed.

(** C6 (as amended).  Processing [N] pairwise distinct messages from an
    empty table succeeds and leaves a table of exactly [N] entries, in which
    every group id is non-negative and smaller than (so at most) the number
    of distinct groups.  A call never fails and never removes a key.  On a
    message that is not yet in the table it appends one entry and leaves
    every existing entry where it was; on a message that is in the table it
    overwrites the entry of the message and inserts nothing: the length and
    the keys of the table stay. *)
Theorem cluster_assignment_totality (name : Z) (ms : list Message.t) :
  NoDup ms ->
  (exists human',
     add_messages_to_cluster (dummy_human.init name) ms = inr human'
     /\ length (dummy_human.M human') = length ms
     /\ forall c, c ∈ (dummy_human.M human').*2 ->
          0 <= Cluster.assignment c
          /\ Cluster.assignment c < Z.of_nat (num_groups (dummy_human.M human'))
          /\ Cluster.assignment c <= Z.of_nat (num_groups (dummy_human.M human')))
  /\ (forall (human : dummy_human.t Enc) (m_i : Message.t),
        let M := dummy_human.M human in
        let key := _encode_message m_i in
        exists c,
          add_message_to_cluster human m_i =
            inr (dummy_human.set_M human (PyDict.set M key c))
          /\ (PyDict.get M key = None -> PyDict.set M key c = M ++ [(key, c)])
          /\ (forall c0, PyDict.get M key = Some c0 ->
                length (PyDict.set M key c) = length M
                /\ PyDict.keys (PyDict.set M key c) = PyDict.keys M)
          /\ (forall k c0, k <> key ->
                PyDict.get M k = Some c0 ->
                PyDict.get (PyDict.set M key c) k = Some c0)
          /\ (forall k, k ∈ PyDict.keys M ->
                k ∈ PyDict.keys (PyDict.set M key c))).
Proof.
  intros Hnd. split.
  - destruct (add_messages_to_cluster_range ms (dummy_human.init name) 0)
      as (human' & n' & Hrun & Hlen & Hr); [| done | |].
    + intros g. simpl. rewrite elem_of_nil. lia.
    + intros m _. simpl. apply not_elem_of_nil.
    + exists human'. split; [done|]. split; [by rewrite Hlen|].
      intros c Hc. rewrite (ids_range_num_groups _ _ Hr).
      assert (Hin : Cluster.assignment c ∈ group_ids (dummy_human.M human')).
      { unfold group_ids. by apply list_elem_of_fmap_2. }
      apply Hr in Hin. lia.
  - intros human m_i M key.
    destruct (add_message_to_cluster_inr human m_i) as (c & Hrun & _).
    fold M key in Hrun. exists c. split; [exact Hrun|].
    split; [intros Hfresh; by apply PyDict.set_fresh|].
    split; [|split].
    + intros c0 Hc0. split.
      * by apply (PyDict.set_length_present M key c c0).
      * by apply (PyDict.keys_set_present M key c c0).
    + intros k c0 Hne Hk. rewrite PyDict.get_set_ne by done. exact Hk.
    + intros k Hk. destruct (PyDict.get M key) as [c0|] eqn:Hget.
      * by rewrite (PyDict.keys_set_present M key c c0).
      * rewrite PyDict.keys_set_fresh by done. apply elem_of_app. by left.
Qed.

End cluster_facts.

(** ** Facts on [update_risk_encounter] *)

(** The risk read from a four-bit code is one of 0, 1/16, .., 15/16. *)
Lemma m_risk_of_range (bits : list bool) :
  length bits = 4%nat -> (0 <= m_risk_of bits /\ m_risk_of bits <= 15 # 16)%Q.
Proof.
  destruct bits as [|b1 [|b2 [|b3 [|b4 [|b5 bits]]]]]; try done. intros _.
  destruct b1, b2, b3, b4; split; apply Qle_bool_iff; reflexivity.
Qed.

Lemma int2_acc_nonneg (s : string) : forall acc, 0 <= acc -> 0 <= int2_acc acc s.
Proof.
  induction s as [|c s IH]; intros acc Hacc; simpl; [done|].
  apply IH. destruct (Ascii.eqb c "1"%char); lia.
Qed.

(** Whatever the length of the code, the risk read from it is not negative. *)
Lemma m_risk_of_nonneg (bits : list bool) : (0 <= m_risk_of bits)%Q.
Proof.
  unfold m_risk_of, binary_to_float.
  apply Qle_shift_div_l; [reflexivity|].
  rewrite Qmult_0_l. rewrite <- (Zle_Qle 0).
  apply int2_acc_nonneg. lia.
Qed.

(** The cluster-aware model on a key that is in the table: the update mixes
    the change of risk and the carried-over risk, and the entry is
    rewritten. *)
Lemma update_risk_encounter_eilif_seen (human : dummy_human.t Enc)
    (message : Message.t) (c : Cluster.t) :
  PyDict.get (dummy_human.M human) (_encode_message message) = Some c ->
  let m := m_risk_of (Message.risk message) in
  let update :=
    ((m - Cluster.previous_risk c) * RISK_TRANSMISSION_PROBA
     + Cluster.previous_risk c * Cluster.carry_over_transmission_proba c)%Q in
  exists human',
    update_risk_encounter human message eilif = inr human'
    /\ dummy_human.risk human' =
         (if CLIP_RISK then py_min (dummy_human.risk human + update) 1
          else dummy_human.risk human + update)%Q
    /\ PyDict.get (dummy_human.M human') (_encode_message message) =
         Some (Cluster.mk (Cluster.assignment c) m
                 (RISK_TRANSMISSION_PROBA * (1 - update))%Q).
Proof.
  intros Hget m update. unfold update_risk_encounter.
  rewrite Hget, PyDict.get_set_eq. simpl.
  eexists. split; [reflexivity|]. simpl. split; [reflexivity|].
  by rewrite PyDict.get_set_eq.
Qed.

(** C7 (the defect).  Under the cluster-aware model a message whose key is
    not in the table makes [update_risk_encounter] raise [KeyError]: the
    update is computed, but the entry it is then written to does not exist,
    and the risk is never updated. *)
Theorem update_risk_encounter_eilif_unseen (human : dummy_human.t Enc)
    (message : Message.t) :
  PyDict.get (dummy_human.M human) (_encode_message message) = None ->
  update_risk_encounter human message eilif = inl KeyError.
Proof. intros Hget. unfold update_risk_encounter. by rewrite Hget. Qed.

Section yoshua_facts.

(** The transmission probability is a probability. *)
Hypothesis proba_nonneg : (0 <= RISK_TRANSMISSION_PROBA)%Q.
Hypothesis proba_le_1 : (RISK_TRANSMISSION_PROBA <= 1)%Q.

(** One fusion under the monotonic model. *)
Lemma yoshua_step (human : dummy_human.t Enc) (message : Message.t) :
  (0 <= dummy_human.risk human /\ dummy_human.risk human <= 1)%Q ->
  (m_risk_of (Message.risk message) <= 1)%Q ->
  let m := m_risk_of (Message.risk message) in
  let r := dummy_human.risk human in
  exists human',
    update_risk_encounter human message yoshua = inr human'
    /\ ((m <= r)%Q -> (dummy_human.risk human' == r)%Q)
    /\ ((r < m)%Q ->
        (dummy_human.risk human' == r + (m - m * r) * RISK_TRANSMISSION_PROBA)%Q
        /\ (0 <= (m - m * r) * RISK_TRANSMISSION_PROBA)%Q)
    /\ (r <= dummy_human.risk human')%Q
    /\ (0 <= dummy_human.risk human' /\ dummy_human.risk human' <= 1)%Q.
Proof.
  intros [Hr0 Hr1] Hm1 m r. fold r in Hr0, Hr1. fold m in Hm1.
  pose proof (m_risk_of_nonneg (Message.risk message)) as Hm0. fold m in Hm0.
  assert (Hu : (r < m -> 0 <= (m - m * r) * RISK_TRANSMISSION_PROBA
                         /\ r + (m - m * r) * RISK_TRANSMISSION_PROBA <= 1)%Q).
  { intros Hlt.
    assert (H1 : (0 <= m * (1 - r))%Q) by (apply Qmult_le_0_compat; lra).
    assert (H2 : (m * (1 - r) <= 1 * (1 - r))%Q)
      by (apply Qmult_le_compat_r; lra).
    assert (H3 : (0 <= m * (1 - r) * RISK_TRANSMISSION_PROBA)%Q)
      by (apply Qmult_le_0_compat; lra).
    assert (H4 : (RISK_TRANSMISSION_PROBA * (m * (1 - r)) <= 1 * (m * (1 - r)))%Q)
      by (apply Qmult_le_compat_r; lra).
    split; lra. }
  unfold update_risk_encounter. fold m r.
  destruct (Qlt_le_dec r m) as [Hlt | Hle].
  - destruct (Hu Hlt) as [Hu0 Hu1].
    eexists. split; [reflexivity|]. simpl.
    assert (Hrisk : ((if CLIP_RISK
                      then py_min (r + (m - m * r) * RISK_TRANSMISSION_PROBA) 1
                      else r + (m - m * r) * RISK_TRANSMISSION_PROBA)
                     == r + (m - m * r) * RISK_TRANSMISSION_PROBA)%Q).
    { destruct CLIP_RISK; [|reflexivity]. unfold py_min.
      destruct (Qlt_le_dec 1 _); [lra | reflexivity]. }
    split; [intros; lra|]. split; [by intros|]. rewrite Hrisk. split; [lra | split; lra].
  - eexists. split; [reflexivity|]. simpl.
    assert (Hrisk : ((if CLIP_RISK then py_min (r + 0) 1 else r + 0) == r)%Q).
    { destruct CLIP_RISK; [|ring]. unfold py_min.
      destruct (Qlt_le_dec 1 _); [lra | ring]. }
    split; [by intros|]. split; [intros; lra|]. rewrite Hrisk. split; [lra | split; lra].
Qed.

Lemma update_risk_encounters_app (human : dummy_human.t Enc)
    (ms1 ms2 : list Message.t) (model : risk_model) (h1 : dummy_human.t Enc) :
  update_risk_encounters human ms1 model = inr h1 ->
  update_risk_encounters human (ms1 ++ ms2) model
  = update_risk_encounters h1 ms2 model.
Proof.
  revert human. induction ms1 as [|m ms1 IH]; intros human; simpl.
  - by intros [= ->].
  - destruct (update_risk_encounter human m model) as [e | human']; [done|].
    apply IH.
Qed.

Lemma yoshua_run (ms : list Message.t) :
  forall human : dummy_human.t Enc,
    (0 <= dummy_human.risk human /\ dummy_human.risk human <= 1)%Q ->
    Forall (fun m => (m_risk_of (Message.risk m) <= 1)%Q) ms ->
    exists human',
      update_risk_encounters human ms yoshua = inr human'
      /\ (dummy_human.risk human <= dummy_human.risk human')%Q
      /\ (0 <= dummy_human.risk human' /\ dummy_human.risk human' <= 1)%Q.
Proof.
  induction ms as [|m ms IH]; intros human Hr Hms; simpl.
  - exists human. split; [done|]. split; [lra | done].
  - apply Forall_cons in Hms as [Hm Hms].
    destruct (yoshua_step human m Hr Hm) as (h1 & Hrun & _ & _ & Hle & Hr1).
    rewrite Hrun.
    destruct (IH h1 Hr1 Hms) as (h2 & Hrun2 & Hle2 & Hr2).
    exists h2. split; [done|]. split; [lra | done].
Qed.

(** C8.  Under the monotonic model, from a risk in [0,1] and with message
    risks that decode to at most 1 (every four-bit code does), every fusion
    succeeds and either leaves the risk as it is (message risk not above the
    current risk) or adds the non-negative update
    [(m - m * risk) * RISK_TRANSMISSION_PROBA]; hence the risk after any
    prefix of a sequence of messages is at most the risk after any longer
    prefix. *)
Theorem yoshua_non_decreasing (human : dummy_human.t Enc)
    (ms1 ms2 : list Message.t) (message : Message.t) :
  (0 <= dummy_human.risk human /\ dummy_human.risk human <= 1)%Q ->
  Forall (fun m => (m_risk_of (Message.risk m) <= 1)%Q) (ms1 ++ ms2) ->
  (m_risk_of (Message.risk message) <= 1)%Q ->
  (exists h1 h2,
     update_risk_encounters human ms1 yoshua = inr h1
     /\ update_risk_encounters human (ms1 ++ ms2) yoshua = inr h2
     /\ (dummy_human.risk human <= dummy_human.risk h1)%Q
     /\ (dummy_human.risk h1 <= dummy_human.risk h2)%Q)
  /\ (let m := m_risk_of (Message.risk message) in
      let r := dummy_human.risk human in
      exists human',
        update_risk_encounter human message yoshua = inr human'
        /\ ((m <= r)%Q -> (dummy_human.risk human' == r)%Q)
        /\ ((r < m)%Q ->
            (dummy_human.risk human'
             == r + (m - m * r) * RISK_TRANSMISSION_PROBA)%Q
            /\ (0 <= (m - m * r) * RISK_TRANSMISSION_PROBA)%Q)
        /\ (r <= dummy_human.risk human')%Q).
Proof.
  intros Hr Hms Hmsg. split.
  - apply Forall_app in Hms as [Hms1 Hms2].
    destruct (yoshua_run ms1 human Hr Hms1) as (h1 & Hrun1 & Hle1 & Hr1).
    destruct (yoshua_run ms2 h1 Hr1 Hms2) as (h2 & Hrun2 & Hle2 & _).
    exists h1, h2. split; [done|].
    rewrite (update_risk_encounters_app _ _ _ _ _ Hrun1). done.
  - destruct (yoshua_step human message Hr Hmsg) as (h' & ? & ? & ? & ? & _).
    by exists h'.
Qed.

End yoshua_facts.

(** The ladder of [add_message_to_cluster], read on the [day] attribute of
    the two timestamps (the day of the month). *)
Lemma score_ladder (m_i m : Message.t) :
  let d_i := DateTime.day (Message.time m_i) in
  let d := DateTime.day (Message.time m) in
  (Message.uid m_i = Message.uid m -> d_i = d -> score m_i m = Some 3)
  /\ (prefix 3 (Message.uid m_i) = prefix 3 (Message.uid m) -> d_i - 1 = d ->
      score m_i m = Some 2)
  /\ (prefix 2 (Message.uid m_i) = prefix 2 (Message.uid m) -> d_i - 2 = d ->
      score m_i m = Some 1)
  /\ (prefix 1 (Message.uid m_i) = prefix 1 (Message.uid m) ->
      prefix 2 (Message.uid m_i) <> prefix 2 (Message.uid m) -> d_i - 2 = d ->
      score m_i m = Some 0).
Proof.
  intros d_i d. unfold score. fold d_i d.
  repeat split.
  - intros Hu Hd. rewrite bool_decide_true by done.
    by rewrite (proj2 (Z.eqb_eq _ _) Hd).
  - intros Hu Hd.
    rewrite (proj2 (Z.eqb_neq d_i d)) by lia.
    rewrite andb_false_r. rewrite bool_decide_true by done.
    by rewrite (proj2 (Z.eqb_eq _ _) Hd).
  - intros Hu Hd.
    rewrite (proj2 (Z.eqb_neq d_i d)) by lia.
    rewrite (proj2 (Z.eqb_neq (d_i - 1) d)) by lia.
    rewrite !andb_false_r. rewrite bool_decide_true by done.
    by rewrite (proj2 (Z.eqb_eq _ _) Hd).
  - intros Hu Hnu Hd.
    rewrite (proj2 (Z.eqb_neq d_i d)) by lia.
    rewrite (proj2 (Z.eqb_neq (d_i - 1) d)) by lia.
    rewrite !andb_false_r. rewrite (bool_decide_false _ Hnu).
    rewrite bool_decide_true by done.
    by rewrite (proj2 (Z.eqb_eq _ _) Hd).
Qed.

(** ** [risk_for_symptoms] *)

(** [human.is_quarantined] and [human.reported_symptoms_for_sickness()] are
    read from the simulator's human, which is not part of the sources at
    hand: the function takes the two values. *)
Definition risk_for_symptoms (is_quarantined : bool) (symptoms : list string) : Q :=
  if is_quarantined then 1
  else if bool_decide ("severe"%string ∈ symptoms) then 3 # 4
  else if bool_decide ("moderate"%string ∈ symptoms) then 1 # 2
  else if bool_decide ("mild"%string ∈ symptoms) then 1 # 4
  else 0.

(** X1.  The risk from symptoms lies in [0,1], is 1 exactly in quarantine, and
    reporting more symptoms never lowers it. *)
Lemma risk_for_symptoms_monotone (is_quarantined : bool)
    (symptoms symptoms' : list string) :
  (forall s, s ∈ symptoms -> s ∈ symptoms') ->
  (0 <= risk_for_symptoms is_quarantined symptoms)%Q
  /\ (risk_for_symptoms is_quarantined symptoms
      <= risk_for_symptoms is_quarantined symptoms')%Q
  /\ (risk_for_symptoms is_quarantined symptoms' <= 1)%Q
  /\ ((risk_for_symptoms is_quarantined symptoms == 1)%Q <-> is_quarantined = true).
Proof.
  intros Hsub. unfold risk_for_symptoms.
  assert (Hq : forall a b : Q, Qle_bool a b = true -> (a <= b)%Q)
    by (intros a b; apply Qle_bool_iff).
  destruct is_quarantined.
  { split; [by apply Hq|]. split; [by apply Hq|]. split; [by apply Hq|].
    split; [done | reflexivity]. }
  repeat case_bool_decide;
    try (exfalso; match goal with
                  | H : ?s ∈ symptoms, H' : ~ ?s ∈ symptoms' |- _ =>
                      apply H', Hsub, H
                  end);
    (split; [by apply Hq|]; split; [by apply Hq|]; split; [by apply Hq|];
     split; [intros Heq; vm_compute in Heq; discriminate Heq | done]).
Qed.

(** ** More on [update_uid] *)

(** X2.  However often the identifier is rotated, its first three bits stay, and
    nothing else of the human changes. *)
Lemma update_uid_n_keeps_prefix (n : nat) :
  forall (self : dummy_human.t Enc) (rng : RandomState.t) (u : list bool),
    dummy_human._uid self = Some u ->
    length u = 4%nat ->
    exists self' rng' u',
      update_uid_n n self rng = inr (self', rng')
      /\ dummy_human._uid self' = Some u'
      /\ length u' = 4%nat
      /\ prefix 3 u' = prefix 3 u
      /\ RandomState.pos rng' = (RandomState.pos rng + n)%nat
      /\ dummy_human.M self' = dummy_human.M self
      /\ dummy_human.risk self' = dummy_human.risk self
      /\ dummy_human.messages self' = dummy_human.messages self.
Proof.
  induction n as [|n IH]; intros self rng u Hu Hlen; simpl.
  - exists self, rng, u. repeat split; try done; lia.
  - destruct u as [|b1 [|b2 [|b3 [|b4 [|b5 u]]]]]; try done.
    rewrite (update_uid_next self rng [b1; b2; b3] b4 Hu).
    destruct (IH (dummy_human.set_uid self
                    [b1; b2; b3; RandomState.stream rng (RandomState.pos rng)])
                 (RandomState.mk (RandomState.stream rng) (S (RandomState.pos rng)))
                 [b1; b2; b3; RandomState.stream rng (RandomState.pos rng)]
                 eq_refl eq_refl)
      as (self' & rng' & u' & Hrun & Hu' & Hlen' & Hpre & Hpos & HM & Hr & Hms).
    exists self', rng', u'. simpl in *. repeat split; try done; lia.
Qed.

(** ** More on [update_risk_encounter] *)

Lemma update_risk_encounter_clipped (human human' : dummy_human.t Enc)
    (message : Message.t) (model : risk_model) :
  CLIP_RISK = true ->
  update_risk_encounter human message model = inr human' ->
  (dummy_human.risk human' <= 1)%Q.
Proof.
  intros Hclip. unfold update_risk_encounter. rewrite Hclip.
  match goal with
  | |- match ?c with _ => _ end = _ -> _ => destruct c as [e|[update M']]
  end; [done|].
  intros [= <-]. simpl. unfold py_min.
  destruct (Qlt_le_dec 1 _); [apply Qle_refl | done].
Qed.

Lemma update_risk_encounter_no_cluster (human : dummy_human.t Enc)
    (message : Message.t) (model : risk_model) :
  model <> eilif ->
  exists human',
    update_risk_encounter human message model = inr human'
    /\ dummy_human.M human' = dummy_human.M human
    /\ dummy_human._uid human' = dummy_human._uid human
    /\ dummy_human.messages human' = dummy_human.messages human.
Proof.
  intros Hmodel. unfold update_risk_encounter.
  destruct model; try done.
  - destruct (Qlt_le_dec _ _); eexists; split; reflexivity || done.
  - eexists. split; [reflexivity | done].
  - eexists. split; [reflexivity | done].
Qed.

(** The sum of the risks read from a list of messages. *)
Definition total_m_risk (ms : list Message.t) : Q :=
  foldr (fun m acc => (m_risk_of (Message.risk m) + acc)%Q) 0%Q ms.

(** X11.  Without clipping the additive model adds
    [m_risk * RISK_TRANSMISSION_PROBA] for every message, whatever the risk:
    after a list of messages the risk has grown by the sum of their risks
    times the transmission probability. *)
Lemma lenka_additive (ms : list Message.t) :
  CLIP_RISK = false ->
  forall human : dummy_human.t Enc,
    exists human',
      update_risk_encounters human ms lenka = inr human'
      /\ (dummy_human.risk human'
          == dummy_human.risk human + RISK_TRANSMISSION_PROBA * total_m_risk ms)%Q
      /\ dummy_human.M human' = dummy_human.M human.
Proof.
  intros Hclip. induction ms as [|m ms IH]; intros human; simpl.
  - exists human. split; [done|]. split; [ring | done].
  - unfold update_risk_encounter. rewrite Hclip.
    match goal with
    | |- context [update_risk_encounters ?h ms lenka] =>
        destruct (IH h) as (human' & Hrun & Hrisk & HM)
    end.
    exists human'. split; [exact Hrun|]. split; [|exact HM].
    rewrite Hrisk. simpl. ring.
Qed.

Lemma update_risk_encounter_eilif_keys (human human' : dummy_human.t Enc)
    (message : Message.t) :
  update_risk_encounter human message eilif = inr human' ->
  PyDict.keys (dummy_human.M human') = PyDict.keys (dummy_human.M human).
Proof.
  unfold update_risk_encounter.
  destruct (PyDict.get (dummy_human.M human) (_encode_message message))
    as [c|] eqn:Hget; [|done].
  rewrite PyDict.get_set_eq. intros [= <-]. simpl.
  rewrite (PyDict.keys_set_present _ _ _
             (Cluster.mk (Cluster.assignment c) (m_risk_of (Message.risk message))
                (Cluster.carry_over_transmission_proba c)))
    by apply PyDict.get_set_eq.
  by rewrite (PyDict.keys_set_present _ _ _ c).
Qed.

(** X8.  A fusion under the cluster-aware model rewrites two fields of one entry:
    the keys of the table, their order and every group id stay. *)
Lemma update_risk_encounter_eilif_keeps_table (human human' : dummy_human.t Enc)
    (message : Message.t) :
  update_risk_encounter human message eilif = inr human' ->
  PyDict.keys (dummy_human.M human') = PyDict.keys (dummy_human.M human)
  /\ (forall k, Cluster.assignment <$> PyDict.get (dummy_human.M human') k
                = Cluster.assignment <$> PyDict.get (dummy_human.M human) k)
  /\ (forall k, k <> _encode_message message ->
                PyDict.get (dummy_human.M human') k
                = PyDict.get (dummy_human.M human) k).
Proof.
  intros Hrun. split; [by apply (update_risk_encounter_eilif_keys _ _ message)|].
  revert Hrun. unfold update_risk_encounter.
  destruct (PyDict.get (dummy_human.M human) (_encode_message message))
    as [c|] eqn:Hget; [|done].
  rewrite PyDict.get_set_eq. intros [= <-]. simpl.
  split.
  - intros k. destruct (decide (_encode_message message = k)) as [<-|Hne].
    + by rewrite PyDict.get_set_eq, Hget.
    + by rewrite !PyDict.get_set_ne.
  - intros k Hne. by rewrite !PyDict.get_set_ne.
Qed.

(** X4.  A call of [add_message_to_cluster] grows the table by one entry for a
    new key and by none for a key already there; it never fails. *)
Lemma add_message_to_cluster_length (human : dummy_human.t Enc) (m_i : Message.t) :
  exists human',
    add_message_to_cluster human m_i = inr human'
    /\ length (dummy_human.M human')
       = (length (dummy_human.M human)
          + (if PyDict.contains (dummy_human.M human) (_encode_message m_i)
             then 0 else 1))%nat
    /\ (forall k c, k <> _encode_message m_i ->
          PyDict.get (dummy_human.M human) k = Some c ->
          PyDict.get (dummy_human.M human') k = Some c)
    /\ PyDict.contains (dummy_human.M human') (_encode_message m_i) = true.
Proof.
  destruct (add_message_to_cluster_inr human m_i) as (c & Hrun & _).
  eexists. split; [exact Hrun|]. simpl. split; [apply PyDict.length_set|].
  split.
  - intros k c0 Hne Hk. by rewrite PyDict.get_set_ne.
  - unfold PyDict.contains. by rewrite PyDict.get_set_eq.
Qed.

(** X7.  The loop of the main program under the cluster-aware model: the message
    is clustered, then fused.  The fusion then never raises, and as the entry
    was just written with the risk of the message and the base transmission
    probability, the update is [m_risk * RISK_TRANSMISSION_PROBA]. *)
Lemma cluster_then_fuse (human : dummy_human.t Enc) (m_i : Message.t) :
  let m := m_risk_of (Message.risk m_i) in
  exists human1 human2 update c,
    add_message_to_cluster human m_i = inr human1
    /\ update_risk_encounter human1 m_i eilif = inr human2
    /\ (update == m * RISK_TRANSMISSION_PROBA)%Q
    /\ dummy_human.risk human2
       = (if CLIP_RISK then py_min (dummy_human.risk human + update) 1
          else dummy_human.risk human + update)%Q
    /\ PyDict.get (dummy_human.M human2) (_encode_message m_i) = Some c
    /\ Cluster.previous_risk c = m
    /\ Cluster.carry_over_transmission_proba c
       = (RISK_TRANSMISSION_PROBA * (1 - update))%Q
    /\ length (dummy_human.M human2) = length (dummy_human.M human1).
Proof.
  intros m.
  destruct (add_message_to_cluster_inr human m_i) as (c & Hrun & Hprev & Hcarry & _).
  set (human1 := dummy_human.set_M human
                   (PyDict.set (dummy_human.M human) (_encode_message m_i) c)) in *.
  assert (Hget : PyDict.get (dummy_human.M human1) (_encode_message m_i) = Some c)
    by apply PyDict.get_set_eq.
  destruct (update_risk_encounter_eilif_seen human1 m_i c Hget)
    as (human2 & Hfuse & Hrisk & Hentry).
  pose proof (update_risk_encounter_eilif_keys _ _ _ Hfuse) as Hkeys.
  do 4 eexists. split; [exact Hrun|]. split; [exact Hfuse|].
  split; [|split; [exact Hrisk|split; [exact Hentry|]]].
  - rewrite Hprev, Hcarry. fold m. ring.
  - simpl. split; [done|]. split; [done|].
    apply (f_equal length) in Hkeys. unfold PyDict.keys in Hkeys.
    by rewrite !length_fmap in Hkeys.
Qed.

(** ** The choice of [add_message_to_cluster] *)

(** The scored messages of the table, in the order of the table. *)
Definition scored (M : list (Enc * Cluster.t)) (m_i : Message.t) : list (Enc * Z) :=
  omap (fun kv : Enc * Cluster.t =>
          (fun s => (kv.1, s)) <$> score m_i (_decode_message kv.1)) M.

Lemma scores_of_scored_acc (M : list (Enc * Cluster.t)) (m_i : Message.t) :
  forall acc : list (Enc * Z),
    NoDup (PyDict.keys M) ->
    (forall k, k ∈ PyDict.keys acc -> k ∉ PyDict.keys M) ->
    foldl (fun scores '(m_enc, _) =>
             match score m_i (_decode_message m_enc) with
             | Some s => PyDict.set scores m_enc s
             | None => scores
             end) acc M
    = acc ++ scored M m_i.
Proof.
  induction M as [|[k c] M IH]; intros acc Hnd Hdisj; simpl.
  - by rewrite app_nil_r.
  - unfold PyDict.keys in Hnd. simpl in Hnd. apply NoDup_cons in Hnd as [Hk Hnd].
    destruct (score m_i (_decode_message k)) as [s|] eqn:Hs; simpl.
    + assert (Hfresh : PyDict.get acc k = None).
      { apply PyDict.get_None_not_in. intros Hin. apply (Hdisj k Hin). left. }
      rewrite PyDict.set_fresh by done. rewrite IH; [by rewrite <- app_assoc | done |].
      intros k' Hk'. unfold PyDict.keys in Hk'. rewrite fmap_app in Hk'.
      apply elem_of_app in Hk' as [Hk' | Hk'].
      * intros Hin. apply (Hdisj k' Hk'). by right.
      * apply list_elem_of_singleton in Hk'. by subst k'.
    + apply IH; [done|]. intros k' Hk' Hin. apply (Hdisj k' Hk'). by right.
Qed.

(** In a table without repeated keys the dict [scores] lists the scored
    messages in the order of the table. *)
Lemma scores_of_scored (M : list (Enc * Cluster.t)) (m_i : Message.t) :
  NoDup (PyDict.keys M) -> scores_of M m_i = scored M m_i.
Proof.
  intros Hnd. unfold scores_of. rewrite scores_of_scored_acc; [done | done |].
  intros k Hk. by apply elem_of_nil in Hk.
Qed.

(** [max_by] answers the first item of maximal key. *)
Lemma max_by_first {A : Type} (key : A -> Z) (l : list A) :
  forall x : A,
    exists l1 l2,
      x :: l = l1 ++ max_by key x l :: l2
      /\ (forall z, z ∈ l1 -> key z < key (max_by key x l))
      /\ (forall z, z ∈ l2 -> key z <= key (max_by key x l)).
Proof.
  induction l as [|y l IH]; intros x; simpl.
  - exists [], []. split; [done|]. split; intros z Hz; by apply elem_of_nil in Hz.
  - destruct (Z.ltb_spec (key x) (key y)) as [Hlt | Hge].
    + destruct (IH y) as (l1 & l2 & Heq & H1 & H2).
      exists (x :: l1), l2. split; [by rewrite Heq|]. split; [|done].
      intros z Hz. apply elem_of_cons in Hz as [-> | Hz]; [|by apply H1].
      pose proof (max_by_ge key y l y) as Hy. specialize (Hy ltac:(left)). lia.
    + destruct (IH x) as (l1 & l2 & Heq & H1 & H2).
      destruct l1 as [|x' l1]; simpl in Heq.
      * injection Heq as Hx Hl. exists [], (y :: l).
        split; [by rewrite <- Hx|]. split.
        -- intros z Hz. by apply elem_of_nil in Hz.
        -- intros z Hz. rewrite <- Hx.
           apply elem_of_cons in Hz as [-> | Hz]; [lia|].
           rewrite Hx. apply H2. by rewrite <- Hl.
      * injection Heq as <- Hl. exists (x :: y :: l1), l2.
        split; [simpl; do 2 f_equal; exact Hl|]. split; [|done].
        intros z Hz. apply elem_of_cons in Hz as [-> | Hz]; [apply H1; left|].
        apply elem_of_cons in Hz as [-> | Hz].
        -- pose proof (H1 x ltac:(left)). lia.
        -- apply H1. by right.
Qed.

Lemma omap_split {A B : Type} (f : A -> option B) (l : list A) :
  forall (l1 : list B) (y : B) (l2 : list B),
    omap f l = l1 ++ y :: l2 ->
    exists k1 a k2,
      l = k1 ++ a :: k2 /\ omap f k1 = l1 /\ f a = Some y /\ omap f k2 = l2.
Proof.
  induction l as [|a l IH]; intros l1 y l2; simpl.
  - intros Heq. by destruct l1.
  - destruct (f a) as [b|] eqn:Hfa.
    + destruct l1 as [|b1 l1]; simpl; intros [= <- Hrest].
      * exists [], a, l. by rewrite Hfa.
      * destruct (IH l1 y l2 Hrest) as (k1 & a' & k2 & -> & H1 & Ha' & H2).
        exists (a :: k1), a', k2. split; [done|].
        split; [simpl; rewrite Hfa; f_equal; exact H1 | done].
    + intros Hrest.
      destruct (IH l1 y l2 Hrest) as (k1 & a' & k2 & -> & H1 & Ha' & H2).
      exists (a :: k1), a', k2. split; [done|].
      split; [simpl; rewrite Hfa; exact H1 | done].
Qed.

Lemma get_middle (M1 M2 : list (Enc * Cluster.t)) k c :
  k ∉ PyDict.keys M1 -> PyDict.get (M1 ++ (k, c) :: M2) k = Some c.
Proof.
  unfold PyDict.keys. induction M1 as [|[k1 c1] M1 IH]; simpl; intros Hk.
  - by rewrite decide_True.
  - apply not_elem_of_cons in Hk as [Hne Hk].
    rewrite decide_False by done. by apply IH.
Qed.

(** X5.  The nearest neighbour.  In a table without repeated keys, when some
    stored message is scored, the new message joins the group of a stored
    message whose score is the highest, and among several of the highest
    score, of the one that entered the table first. *)
Lemma add_message_to_cluster_nearest (human : dummy_human.t Enc)
    (m_i : Message.t) (k0 : Enc) (c0 : Cluster.t) (s0 : Z) :
  let M := dummy_human.M human in
  NoDup (PyDict.keys M) ->
  (k0, c0) ∈ M ->
  score m_i (_decode_message k0) = Some s0 ->
  exists M1 k c M2 s c_new,
    M = M1 ++ (k, c) :: M2
    /\ score m_i (_decode_message k) = Some s
    /\ (forall k' c' s', (k', c') ∈ M1 ->
          score m_i (_decode_message k') = Some s' -> s' < s)
    /\ (forall k' c' s', (k', c') ∈ M2 ->
          score m_i (_decode_message k') = Some s' -> s' <= s)
    /\ add_message_to_cluster human m_i
       = inr (dummy_human.set_M human (PyDict.set M (_encode_message m_i) c_new))
    /\ Cluster.assignment c_new = Cluster.assignment c.
Proof.
  intros M Hnd Hin Hs0.
  destruct (add_message_to_cluster_inr human m_i) as (c_new & Hrun & _ & _ & Hgrp).
  fold M in Hrun, Hgrp.
  rewrite scores_of_scored in Hgrp by done.
  destruct (scored M m_i) as [|x l] eqn:Hsc.
  { exfalso. assert (Hx : (k0, s0) ∈ scored M m_i).
    { unfold scored. apply list_elem_of_omap. exists (k0, c0). split; [done|].
      simpl. by rewrite Hs0. }
    rewrite Hsc in Hx. by apply elem_of_nil in Hx. }
  destruct Hgrp as (c & Hget & Hassign).
  destruct (max_by_first snd l x) as (l1 & l2 & Heq & Hbefore & Hafter).
  rewrite <- Hsc in Heq. unfold scored in Heq.
  apply omap_split in Heq as (M1 & [k ck] & M2 & HM & Hl1 & Hk & Hl2).
  simpl in Hk.
  destruct (score m_i (_decode_message k)) as [s|] eqn:Hs; [|done].
  simpl in Hk. injection Hk as Hmax.
  assert (Hfst : (max_by snd x l).1 = k) by (by rewrite <- Hmax).
  assert (Hsnd : (max_by snd x l).2 = s) by (by rewrite <- Hmax).
  assert (Hk1 : k ∉ PyDict.keys M1).
  { rewrite HM in Hnd. unfold PyDict.keys in *. rewrite fmap_app in Hnd.
    apply NoDup_app in Hnd as (_ & Hdisj & _). intros Hk1.
    apply (Hdisj k Hk1). simpl. left. }
  rewrite Hfst, HM, get_middle in Hget by done. injection Hget as <-.
  exists M1, k, ck, M2, s, c_new.
  split; [done|]. split; [done|]. split; [|split; [|done]].
  - intros k' c' s' Hk' Hs'. rewrite <- Hsnd.
    apply (Hbefore (k', s')). rewrite <- Hl1.
    apply list_elem_of_omap. exists (k', c'). split; [done|]. simpl. by rewrite Hs'.
  - intros k' c' s' Hk' Hs'. rewrite <- Hsnd.
    apply (Hafter (k', s')). rewrite <- Hl2.
    apply list_elem_of_omap. exists (k', c'). split; [done|]. simpl. by rewrite Hs'.
Qed.

Lemma scores_of_none_acc (M : list (Enc * Cluster.t)) (m_i : Message.t) :
  (forall k, k ∈ PyDict.keys M -> score m_i (_decode_message k) = None) ->
  forall acc : list (Enc * Z),
    foldl (fun scores '(m_enc, _) =>
             match score m_i (_decode_message m_enc) with
             | Some s => PyDict.set scores m_enc s
             | None => scores
             end) acc M = acc.
Proof.
  unfold PyDict.keys. induction M as [|[k c] M IH]; intros Hnone acc; simpl; [done|].
  rewrite (Hnone k) by left. apply IH. intros k' Hk'. apply Hnone. by right.
Qed.

(** X6.  A new group.  When no stored message is scored, the new message gets
    group 0 in an empty table, and otherwise a group id above every group id
    of the table. *)
Lemma add_message_to_cluster_new_group (human : dummy_human.t Enc)
    (m_i : Message.t) :
  let M := dummy_human.M human in
  (forall k, k ∈ PyDict.keys M -> score m_i (_decode_message k) = None) ->
  exists c_new,
    add_message_to_cluster human m_i
    = inr (dummy_human.set_M human (PyDict.set M (_encode_message m_i) c_new))
    /\ (M = [] -> Cluster.assignment c_new = 0)
    /\ (forall g, g ∈ group_ids M -> g < Cluster.assignment c_new).
Proof.
  intros M Hnone.
  destruct (add_message_to_cluster_inr human m_i) as (c_new & Hrun & _ & _ & Hgrp).
  fold M in Hrun, Hgrp. unfold scores_of in Hgrp.
  rewrite scores_of_none_acc in Hgrp by done.
  exists c_new. split; [done|].
  destruct (group_ids M) as [|g gs] eqn:Hids.
  - split; [done|]. intros g Hg. by apply elem_of_nil in Hg.
  - split.
    + intros HM. rewrite HM in Hids. done.
    + intros g' Hg'. rewrite Hgrp.
      pose proof (max_by_ge id g gs g' Hg') as Hle.
      change (g' <= max_by id g gs) in Hle. lia.
Qed.

(** X10.  With [CLIP_RISK] the risk is at most 1 after the fusion of a list of
    messages that is not empty, whatever the model, the messages and the
    risk before; and a risk of at most 1 stays so. *)
Lemma update_risk_encounters_clipped (human human' : dummy_human.t Enc)
    (ms : list Message.t) (model : risk_model) :
  CLIP_RISK = true ->
  ms <> [] \/ (dummy_human.risk human <= 1)%Q ->
  update_risk_encounters human ms model = inr human' ->
  (dummy_human.risk human' <= 1)%Q.
Proof.
  intros Hclip. revert human.
  induction ms as [|m ms IH]; intros human Hor Hrun; simpl in Hrun.
  - injection Hrun as <-. by destruct Hor.
  - destruct (update_risk_encounter human m model) as [e|h1] eqn:Hstep; [done|].
    apply (IH h1); [|done]. right.
    by apply (update_risk_encounter_clipped human h1 m model).
Qed.

(** X9.  The models that do not cluster never raise, whatever the messages and
    whatever the table holds, and they change the risk only: the table, the
    identifier and the message list stay. *)
Lemma update_risk_encounters_no_cluster (ms : list Message.t) (model : risk_model) :
  model <> eilif ->
  forall human : dummy_human.t Enc,
    exists human',
      update_risk_encounters human ms model = inr human'
      /\ dummy_human.M human' = dummy_human.M human
      /\ dummy_human._uid human' = dummy_human._uid human
      /\ dummy_human.messages human' = dummy_human.messages human.
Proof.
  intros Hmodel. induction ms as [|m ms IH]; intros human; simpl.
  - by exists human.
  - destruct (update_risk_encounter_no_cluster human m model Hmodel)
      as (h1 & Hrun & HM & Hu & Hm).
    rewrite Hrun. destruct (IH h1) as (h2 & Hrun2 & HM2 & Hu2 & Hm2).
    exists h2. split; [done|]. split; [congruence|]. split; congruence.
Qed.

(** ** The monotonic model is self-limiting *)

(** X12.  With a transmission probability in [0,1] and message risks of at most 1,
    the monotonic model keeps a risk that starts in [0,1] inside [0,1],
    clipping or not. *)
Lemma yoshua_stays_in_unit_interval (human : dummy_human.t Enc)
    (ms : list Message.t) :
  (0 <= RISK_TRANSMISSION_PROBA)%Q ->
  (RISK_TRANSMISSION_PROBA <= 1)%Q ->
  (0 <= dummy_human.risk human /\ dummy_human.risk human <= 1)%Q ->
  Forall (fun m => (m_risk_of (Message.risk m) <= 1)%Q) ms ->
  exists human',
    update_risk_encounters human ms yoshua = inr human'
    /\ (0 <= dummy_human.risk human' /\ dummy_human.risk human' <= 1)%Q.
Proof.
  intros Hp0 Hp1 Hr Hms.
  destruct (yoshua_run Hp0 Hp1 ms human Hr Hms) as (h1 & Hrun & _ & Hr1).
  by exists h1.
Qed.

End risk_prediction.

(** ** Concrete runs *)

(** In the runs below a message is its own key. *)
#[local] Instance id_message_inj : Inj (=) (=) (@id Message.t).
Proof. intros x y Heq. exact Heq. Qed.

Lemma Qfloor_exact (q : Q) (k : Z) : (q == inject_Z k)%Q -> Qfloor q = k.
Proof. intros Hq. rewrite Hq. apply Qfloor_Z. Qed.

Definition human_with_risk (r : Q) : dummy_human.t Message.t :=
  dummy_human.mk 0 [] [] r None.

Definition human_with_uid (u : list bool) : dummy_human.t Message.t :=
  dummy_human.mk 0 [] [] 0%Q (Some u).

Definition human_with_M (M : list (Message.t * Cluster.t))
  : dummy_human.t Message.t :=
  dummy_human.mk 0 M [] 0%Q None.

(** A generator that only draws [False]. *)
Definition rng_false : RandomState.t := RandomState.mk (fun _ => false) 0.

Definition msg (u r : list bool) (t : DateTime.datetime) : Message.t :=
  Message.mk u r t 1.

(** The rotation in the words of the specification: the oldest (first) bit
    leaves and the fresh bit is appended. *)
Definition rotate_as_specified (u : list bool) (b : bool) : list bool :=
  drop 1 u ++ [b].

Lemma message_risk_roundtrip_witness :
  exists code,
    message_risk Qfloor (human_with_risk (3 # 16)) = Some code
    /\ length code = 4%nat
    /\ (m_risk_of code == 3 # 16)%Q.
Proof.
  apply (proj1 (message_risk_roundtrip Qfloor Qfloor_exact
                  (human_with_risk (3 # 16))) 3); [lia | reflexivity].
Defined.

(** C9 (counterexample).  The risk 1.0 is a multiple of 1/16 in [0,1], it
    is sent as [1111], and [1111] reads back as 15/16. *)
Lemma message_risk_roundtrip_fails_at_one :
  message_risk Qfloor (human_with_risk 1) = Some [true; true; true; true]
  /\ ~ (m_risk_of [true; true; true; true]
        == dummy_human.risk (human_with_risk 1))%Q.
Proof.
  split; [reflexivity|]. intros Heq. vm_compute in Heq. discriminate Heq.
Qed.

Lemma update_uid_rotation_witness :
  uid_ok (human_with_uid [true; false; false; true])
  /\ exists self' rng' u,
       update_uid_n 3 (human_with_uid [true; false; false; true]) rng_false
       = inr (self', rng')
       /\ dummy_human._uid self' = Some u /\ length u = 4%nat.
Proof.
  split; [reflexivity|].
  apply (proj2 (proj2 (update_uid_rotation
                         (human_with_uid [true; false; false; true]) rng_false
                         eq_refl)) 3%nat).
  lia.
Defined.

(** A generator that draws 1000, then 1, then only 0. *)
Definition rng_1000_1 : RandomState.t :=
  RandomState.mk (fun n => match n with O | 4%nat => true | _ => false end) 0.

(** C10 (counterexample).  A new human gets 1000 at the first call and 1001
    at the second, whose last bit is the newest one.  The third call, with
    the fresh bit 0, answers 1000: the newest bit went and the three oldest
    stayed, where dropping the oldest bit would give 0010. *)
Lemma update_uid_keeps_oldest_bit :
  exists self2 rng2 self3 rng3,
    update_uid_n 2 (dummy_human.init (Enc := Message.t) 0) rng_1000_1
    = inr (self2, rng2)
    /\ dummy_human._uid self2 = Some [true; false; false; true]
    /\ RandomState.stream rng2 (RandomState.pos rng2) = false
    /\ update_uid self2 rng2 = inr (self3, rng3)
    /\ dummy_human._uid self3 = Some [true; false; false; false]
    /\ rotate_as_specified [true; false; false; true] false
       = [false; false; true; false]
    /\ dummy_human._uid self3
       <> Some (rotate_as_specified [true; false; false; true] false).
Proof.
  do 4 eexists. split; [reflexivity|]. split; [reflexivity|].
  split; [reflexivity|]. split; [reflexivity|]. split; [reflexivity|].
  split; [reflexivity | discriminate].
Qed.

Lemma cluster_assignment_totality_witness :
  let ms := [msg [true; false; true; false] [false; true; false; false]
               (DateTime.date 2020 3 4);
             msg [true; false; true; true] [false; true; false; false]
               (DateTime.date 2020 3 5);
             msg [false; true; true; true] [true; true; false; false]
               (DateTime.date 2020 3 5)] in
  NoDup ms
  /\ exists human',
       add_messages_to_cluster (1 # 2) id id (dummy_human.init 0) ms = inr human'
       /\ length (dummy_human.M human') = length ms
       /\ forall c, c ∈ (dummy_human.M human').*2 ->
            0 <= Cluster.assignment c
            /\ Cluster.assignment c < Z.of_nat (num_groups (dummy_human.M human'))
            /\ Cluster.assignment c <= Z.of_nat (num_groups (dummy_human.M human')).
Proof.
  intros ms.
  assert (Hnd : NoDup ms).
  { apply (bool_decide_unpack _). vm_compute. exact I. }
  split; [exact Hnd|].
  exact (proj1 (cluster_assignment_totality (1 # 2) id id id_message_inj 0 ms Hnd)).
Defined.

(** C6 (counterexample).  A message processed a second time, as the main
    loop does when it reads the stored messages again the next day: the
    second call succeeds and inserts nothing, the table has one entry after
    the first call and one entry after the second. *)
Lemma add_message_to_cluster_inserts_nothing :
  let m := msg [true; false; true; false] [false; true; false; false]
             (DateTime.date 2020 3 4) in
  exists human1 human2,
    add_message_to_cluster (1 # 2) id id (dummy_human.init 0) m = inr human1
    /\ add_message_to_cluster (1 # 2) id id human1 m = inr human2
    /\ length (dummy_human.M human1) = 1%nat
    /\ length (dummy_human.M human2) = 1%nat.
Proof.
  intros m. do 2 eexists.
  split; [reflexivity|]. split; [reflexivity|]. split; reflexivity.
Qed.

Lemma update_risk_encounter_eilif_unseen_witness :
  update_risk_encounter (1 # 2) false id (human_with_M [])
    (msg [true; false; true; false] [true; false; false; false]
       (DateTime.date 2020 3 4)) eilif
  = inl KeyError.
Proof.
  apply (update_risk_encounter_eilif_unseen (1 # 2) false id).
  reflexivity.
Defined.

Lemma yoshua_non_decreasing_witness :
  let m1 := msg [true; false; true; false] [true; false; false; false]
              (DateTime.date 2020 3 4) in
  let m2 := msg [true; false; true; true] [true; true; false; false]
              (DateTime.date 2020 3 5) in
  exists h1 h2,
    update_risk_encounters (1 # 2) false id (human_with_risk (1 # 4)) [m1] yoshua
    = inr h1
    /\ update_risk_encounters (1 # 2) false id (human_with_risk (1 # 4))
         ([m1] ++ [m2]) yoshua = inr h2
    /\ (dummy_human.risk (human_with_risk (1 # 4)) <= dummy_human.risk h1)%Q
    /\ (dummy_human.risk h1 <= dummy_human.risk h2)%Q.
Proof.
  intros m1 m2.
  refine (proj1 (yoshua_non_decreasing (1 # 2) false id _ _
                   (human_with_risk (1 # 4)) [m1] [m2] m1 _ _ _)).
  - unfold Qle. simpl. lia.
  - unfold Qle. simpl. lia.
  - split; unfold Qle; simpl; lia.
  - repeat constructor; apply Qle_bool_iff; reflexivity.
  - apply Qle_bool_iff. reflexivity.
Defined.

(** C5 (the defect).  The stored message was met on 2020-02-29 and shares
    its first three bits with the new message of 2020-03-01, one calendar
    day later.  The ladder compares days of the month, [1 - 1] against [29]:
    no branch is taken and the new message starts group 1 instead of joining
    group 0. *)
Theorem add_message_to_cluster_month_rollover :
  let m := msg [true; false; true; false] [false; false; false; false]
             (DateTime.date 2020 2 29) in
  let m_i := msg [true; false; true; true] [false; false; false; false]
               (DateTime.date 2020 3 1) in
  let human := human_with_M [(m, Cluster.mk 0 0 (1 # 2))] in
  DateTime.toordinal (Message.time m_i) - DateTime.toordinal (Message.time m) = 1
  /\ prefix 3 (Message.uid m_i) = prefix 3 (Message.uid m)
  /\ score m_i m = None
  /\ exists human',
       add_message_to_cluster (1 # 2) id id human m_i = inr human'
       /\ Cluster.assignment <$> PyDict.get (dummy_human.M human') m_i = Some 1.
Proof.
  intros m m_i human. split; [reflexivity|]. split; [reflexivity|].
  split; [reflexivity|]. eexists. split; reflexivity.
Qed.

(** ** Concrete runs of the further facts *)

Definition msg_a : Message.t :=
  msg [true; false; true; false] [true; false; false; false] (DateTime.date 2020 3 4).
Definition msg_b : Message.t :=
  msg [true; false; true; true] [true; true; false; false] (DateTime.date 2020 3 5).
Definition msg_c : Message.t :=
  msg [true; false; true; true] [false; true; false; false] (DateTime.date 2020 3 5).
Definition msg_far : Message.t :=
  msg [false; true; true; true] [false; true; false; false] (DateTime.date 2020 3 20).

Definition table_ab : list (Message.t * Cluster.t) :=
  [(msg_a, Cluster.mk 0 (1 # 2) (1 # 2)); (msg_b, Cluster.mk 1 (3 # 4) (1 # 2))].

Lemma risk_for_symptoms_monotone_witness :
  (0 <= risk_for_symptoms false ["mild"%string])%Q
  /\ (risk_for_symptoms false ["mild"%string]
      <= risk_for_symptoms false ["mild"%string; "severe"%string])%Q
  /\ (risk_for_symptoms false ["mild"%string; "severe"%string] <= 1)%Q
  /\ ((risk_for_symptoms false ["mild"%string] == 1)%Q <-> false = true).
Proof.
  apply (risk_for_symptoms_monotone false ["mild"%string]
           ["mild"%string; "severe"%string]).
  intros s Hs. apply list_elem_of_singleton in Hs. subst s. left.
Defined.

Lemma update_uid_n_keeps_prefix_witness :
  exists self' rng' u',
    update_uid_n 5 (human_with_uid [true; false; false; true]) rng_1000_1
    = inr (self', rng')
    /\ dummy_human._uid self' = Some u'
    /\ length u' = 4%nat
    /\ prefix 3 u' = prefix 3 [true; false; false; true]
    /\ RandomState.pos rng' = (RandomState.pos rng_1000_1 + 5)%nat
    /\ dummy_human.M self' = dummy_human.M (human_with_uid [true; false; false; true])
    /\ dummy_human.risk self'
       = dummy_human.risk (human_with_uid [true; false; false; true])
    /\ dummy_human.messages self'
       = dummy_human.messages (human_with_uid [true; false; false; true]).
Proof.
  apply (update_uid_n_keeps_prefix 5 (human_with_uid [true; false; false; true])
           rng_1000_1 [true; false; false; true] eq_refl eq_refl).
Defined.

(** The risk 5 and two messages of risk 0.5 and 0.75, transmission
    probability 0.5, additive model with clipping: the risk is cut to 1. *)
Lemma update_risk_encounters_clipped_witness :
  exists human',
    update_risk_encounters (1 # 2) true id (human_with_risk 5) [msg_a; msg_b] lenka
    = inr human'
    /\ (dummy_human.risk human' <= 1)%Q.
Proof.
  eexists. split; [reflexivity|].
  apply (update_risk_encounters_clipped (1 # 2) true id
           (human_with_risk 5) _ [msg_a; msg_b] lenka eq_refl).
  - by left.
  - reflexivity.
Defined.

(** [msg_c] is not a key of the table: the cluster-aware model would raise,
    the monotonic model does not look. *)
Lemma update_risk_encounters_no_cluster_witness :
  exists human',
    update_risk_encounters (1 # 2) false id (human_with_M table_ab)
      [msg_c; msg_far] yoshua = inr human'
    /\ dummy_human.M human' = dummy_human.M (human_with_M table_ab)
    /\ dummy_human._uid human' = dummy_human._uid (human_with_M table_ab)
    /\ dummy_human.messages human' = dummy_human.messages (human_with_M table_ab).
Proof.
  apply (update_risk_encounters_no_cluster (1 # 2) false id
           [msg_c; msg_far] yoshua).
  discriminate.
Defined.

(** The risk 0 and a message of risk 0.5, transmission probability 0.5,
    additive model without clipping: the risk becomes 0.25. *)
Lemma lenka_additive_witness :
  exists human',
    update_risk_encounters (1 # 2) false id (human_with_risk 0) [msg_a] lenka
    = inr human'
    /\ (dummy_human.risk human'
        == dummy_human.risk (human_with_risk 0) + (1 # 2) * total_m_risk [msg_a])%Q
    /\ dummy_human.M human' = dummy_human.M (human_with_risk 0).
Proof.
  apply (lenka_additive (1 # 2) false id [msg_a] eq_refl (human_with_risk 0)).
Defined.

Lemma update_risk_encounter_eilif_keeps_table_witness :
  exists human',
    update_risk_encounter (1 # 2) false id (human_with_M table_ab) msg_b eilif
    = inr human'
    /\ PyDict.keys (dummy_human.M human') = PyDict.keys table_ab
    /\ (forall k, Cluster.assignment <$> PyDict.get (dummy_human.M human') k
                  = Cluster.assignment <$> PyDict.get table_ab k)
    /\ (forall k, k <> id msg_b ->
                  PyDict.get (dummy_human.M human') k = PyDict.get table_ab k).
Proof.
  eexists. split; [reflexivity|].
  apply (update_risk_encounter_eilif_keeps_table (1 # 2) false id
           (human_with_M table_ab) _ msg_b).
  reflexivity.
Defined.

(** [msg_c] has the identifier and the day of [msg_b] (score 3) and shares
    three bits with [msg_a] of the day before (score 2). *)
Lemma add_message_to_cluster_nearest_witness :
  exists M1 k c M2 s c_new,
    table_ab = M1 ++ (k, c) :: M2
    /\ score msg_c (id k) = Some s
    /\ (forall k' c' s', (k', c') ∈ M1 -> score msg_c (id k') = Some s' -> s' < s)
    /\ (forall k' c' s', (k', c') ∈ M2 -> score msg_c (id k') = Some s' -> s' <= s)
    /\ add_message_to_cluster (1 # 2) id id (human_with_M table_ab) msg_c
       = inr (dummy_human.set_M (human_with_M table_ab)
                (PyDict.set table_ab (id msg_c) c_new))
    /\ Cluster.assignment c_new = Cluster.assignment c.
Proof.
  apply (add_message_to_cluster_nearest (1 # 2) id id (human_with_M table_ab)
           msg_c msg_a (Cluster.mk 0 (1 # 2) (1 # 2)) 2).
  - apply (bool_decide_unpack _). vm_compute. exact I.
  - left.
  - reflexivity.
Defined.

Lemma add_message_to_cluster_new_group_witness :
  exists c_new,
    add_message_to_cluster (1 # 2) id id (human_with_M table_ab) msg_far
    = inr (dummy_human.set_M (human_with_M table_ab)
             (PyDict.set table_ab (id msg_far) c_new))
    /\ (table_ab = [] -> Cluster.assignment c_new = 0)
    /\ (forall g, g ∈ group_ids table_ab -> g < Cluster.assignment c_new).
Proof.
  apply (add_message_to_cluster_new_group (1 # 2) id id
           (human_with_M table_ab) msg_far).
  intros k Hk. simpl in Hk.
  apply elem_of_cons in Hk as [-> | Hk]; [reflexivity|].
  apply list_elem_of_singleton in Hk. subst k. reflexivity.
Defined.

Lemma yoshua_stays_in_unit_interval_witness :
  exists human',
    update_risk_encounters (1 # 2) false id (human_with_risk (1 # 4))
      [msg_a; msg_b] yoshua = inr human'
    /\ (0 <= dummy_human.risk human' /\ dummy_human.risk human' <= 1)%Q.
Proof.
  apply (yoshua_stays_in_unit_interval (1 # 2) false id
           (human_with_risk (1 # 4)) [msg_a; msg_b]).
  - apply Qle_bool_iff. reflexivity.
  - apply Qle_bool_iff. reflexivity.
  - split; apply Qle_bool_iff; reflexivity.
  - repeat constructor; apply Qle_bool_iff; reflexivity.
Defined.

End RiskPrediction.

(* ===================================================================== *)
(** * risk_prediction.py: the identifier is one object *)
(* ===================================================================== *)

(** [update_uid] changes the [bitarray] of a human in place ([pop],
    [extend]), and [cur_message] puts that very object in the message it
    builds.  Here the bitarrays live in a store and [_uid] and the [uid] of a
    message are addresses. *)
Module SharedUid.

Record store : Type := mk_store {
  cells : nat -> list bool;
  next : nat                       (* the first address not in use *)
}.

Definition read (s : store) (a : nat) : list bool := cells s a.

Definition write (s : store) (a : nat) (u : list bool) : store :=
  mk_store (fun a' => if decide (a' = a) then u else cells s a') (next s).

(** [bitarray()]: a new object. *)
Definition alloc (s : store) (u : list bool) : nat * store :=
  (next s,
   mk_store (fun a' => if decide (a' = next s) then u else cells s a')
            (S (next s))).

(** The fields of [dummy_human] that [update_uid] and [cur_message] touch. *)
Record human : Type := mk_human {
  name : Z;
  risk : Q;
  _uid : option nat
}.

(** [Message(self.uid, self.message_risk, time, self.name)] *)
Record message : Type := mk_message {
  uid : nat;
  risk_bits : list bool;
  time : DateTime.datetime;
  unobs_id : Z
}.

(** [AttributeError] besides the exceptions met so far. *)
Inductive raised : Type :=
  | AttributeError
  | Raised (e : exn).

Definition update_uid (self : human) (rng : RandomState.t) (s : store)
  : exn + (human * RandomState.t * store) :=
  match _uid self with
  | Some a =>
      (* self._uid.pop() *)
      match Bits.pop (read s a) with
      | None => inl IndexError
      | Some (_, u') =>
          (* self._uid.extend([self.rng.choice([True, False])]) *)
          let '(b, rng') := RandomState.choice rng in
          inr (self, rng', write s a (u' ++ [b]))
      end
  | None =>
      (* except AttributeError: a fresh bitarray of four random bits *)
      let '(bs, rng') := RandomState.choice_n 4 rng in
      let '(a, s') := alloc s ([] ++ bs) in
      inr (mk_human (name self) (risk self) (Some a), rng', s')
  end.

(** [n] successive calls of [update_uid] (one per day of the main loop). *)
Fixpoint update_uid_n (n : nat) (self : human) (rng : RandomState.t) (s : store)
  : exn + (human * RandomState.t * store) :=
  match n with
  | O => inr (self, rng, s)
  | S n' =>
      match update_uid self rng s with
      | inl e => inl e
      | inr (self', rng', s') => update_uid_n n' self' rng' s'
      end
  end.

Section shared_uid.

(** The rounding of [float_to_binary], as in [RiskPrediction]. *)
Variable rnd : Q -> Z.

(** The property [message_risk] reads the risk only. *)
Definition message_risk (self : human) : option (list bool) :=
  RiskPrediction.message_risk (Enc := unit) rnd
    (dummy_human.mk (name self) [] [] (risk self) None).

Definition cur_message (self : human) (time : DateTime.datetime)
  : raised + message :=
  match _uid self with
  | None => inl AttributeError
  | Some a =>
      match message_risk self with
      | None => inl (Raised ValueError)
      | Some r => inr (mk_message a r time (name self))
      end
  end.

(** The message as it reads in a store: what [m.uid], [m.risk], [m.time] and
    [m.unobs_id] give there. *)
Definition seen (s : store) (m : message) : Message.t :=
  Message.mk (read s (uid m)) (risk_bits m) (time m) (unobs_id m).

(** ** One rotation in place and on values *)

Lemma update_uid_step {Enc : Type} (self : human) (rng : RandomState.t)
    (s : store) (h : dummy_human.t Enc) :
  dummy_human._uid h = read s <$> _uid self ->
  match update_uid self rng s with
  | inr (self', rng', s') =>
      exists h',
        RiskPrediction.update_uid h rng = inr (h', rng')
        /\ dummy_human._uid h' = read s' <$> _uid self'
        /\ (_uid self = None -> _uid self' = Some (next s))
        /\ (forall a, _uid self = Some a -> _uid self' = Some a)
        /\ (forall a, _uid self' <> Some a -> read s' a = read s a)
        /\ name self' = name self /\ risk self' = risk self
        /\ (next s <= next s')%nat
  | inl e => RiskPrediction.update_uid h rng = inl e
  end.
Proof.
  intros Hh. unfold update_uid, RiskPrediction.update_uid. rewrite Hh.
  destruct (_uid self) as [a|] eqn:Ha; simpl.
  - destruct (Bits.pop (read s a)) as [[x u']|]; [|done].
    eexists. split; [reflexivity|]. simpl. rewrite Ha. simpl.
    unfold read at 1. simpl. rewrite decide_True by done.
    split; [done|]. split; [done|]. split; [done|].
    split; [|done].
    intros a' Hne. unfold read. simpl. rewrite decide_False; [done|]. congruence.
  - destruct (RandomState.choice_n 4 rng) as [bs rng'] eqn:Hbs. simpl.
    eexists. split; [reflexivity|]. simpl.
    unfold read at 1. simpl. rewrite decide_True by done.
    split; [done|]. split; [done|]. split; [done|].
    split; [|split; [done|split; [done | lia]]].
    intros a' Hne. unfold read. simpl. rewrite decide_False; [done|]. congruence.
Qed.

Lemma update_uid_n_step {Enc : Type} (n : nat) :
  forall (self : human) (rng : RandomState.t) (s : store) (h : dummy_human.t Enc),
    dummy_human._uid h = read s <$> _uid self ->
    match update_uid_n n self rng s with
    | inr (self', rng', s') =>
        exists h',
          RiskPrediction.update_uid_n n h rng = inr (h', rng')
          /\ dummy_human._uid h' = read s' <$> _uid self'
          /\ (forall a, _uid self = Some a -> _uid self' = Some a)
          /\ (forall a, (a < next s)%nat -> _uid self <> Some a ->
                read s' a = read s a)
          /\ name self' = name self /\ risk self' = risk self
          /\ (next s <= next s')%nat
    | inl e => RiskPrediction.update_uid_n n h rng = inl e
    end.
Proof.
  induction n as [|n IH]; intros self rng s h Hh; simpl.
  - exists h. repeat split; try done. 
  - pose proof (update_uid_step self rng s h Hh) as Hstep.
    destruct (update_uid self rng s) as [e|[[self1 rng1] s1]]; [by rewrite Hstep|].
    destruct Hstep as (h1 & -> & Hh1 & Hsome & Hkeep & Hframe & Hname & Hrisk & Hnext).
    specialize (IH self1 rng1 s1 h1 Hh1).
    destruct (update_uid_n n self1 rng1 s1) as [e|[[self' rng'] s']]; [done|].
    destruct IH as (h' & Hrun & Hh' & Hkeep' & Hframe' & Hname' & Hrisk' & Hnext').
    exists h'. split; [done|]. split; [done|]. split; [by auto|].
    split; [|split; [congruence|split; [congruence | lia]]].
    intros a Ha Hne.
    destruct (_uid self) as [a0|] eqn:Hself.
    + rewrite Hframe'; [|lia|].
      * apply Hframe. rewrite (Hkeep a0 eq_refl). congruence.
      * rewrite (Hkeep a0 eq_refl). congruence.
    + pose proof (Hsome eq_refl) as Hfresh.
      rewrite Hframe'; [|lia|rewrite Hfresh; intros [= Heq]; lia].
      apply Hframe. rewrite Hfresh. intros [= Heq]. lia.
Qed.

(** ** A message has no identifier of its own *)

(** X3.  Let [m1] be a message built before [k] rotations of its sender and [m2]
    one built after them.  Read after the rotations, the [uid] of [m1] is
    not the identifier [m1] was built with but the identifier that [k]
    rotations make of it, which is the [uid] of [m2]: at any time all the
    messages of a sender show the same identifier.  The bitarrays of the
    other humans are not touched. *)
Lemma sent_messages_share_uid {Enc : Type} (k : nat)
    (self self' : human) (rng rng' : RandomState.t) (s s' : store)
    (t1 t2 : DateTime.datetime) (m1 m2 : message) (h : dummy_human.t Enc) :
  cur_message self t1 = inr m1 ->
  update_uid_n k self rng s = inr (self', rng', s') ->
  cur_message self' t2 = inr m2 ->
  dummy_human._uid h = Some (Message.uid (seen s m1)) ->
  exists h',
    RiskPrediction.update_uid_n k h rng = inr (h', rng')
    /\ dummy_human._uid h' = Some (Message.uid (seen s' m1))
    /\ Message.uid (seen s' m1) = Message.uid (seen s' m2)
    /\ (forall a, (a < next s)%nat -> a <> uid m1 -> read s' a = read s a).
Proof.
  intros Hm1 Hrun Hm2 Hh. unfold cur_message in Hm1, Hm2.
  destruct (_uid self) as [a|] eqn:Ha; [|done].
  destruct (message_risk self) as [r1|]; [|done]. injection Hm1 as <-.
  simpl in *.
  assert (Hh0 : dummy_human._uid h = read s <$> _uid self) by (by rewrite Ha).
  pose proof (update_uid_n_step k self rng s h Hh0) as Hstep.
  rewrite Hrun in Hstep.
  destruct Hstep as (h' & Hrun' & Hh' & Hkeep & Hframe & _).
  rewrite (Hkeep a Ha) in Hm2, Hh'.
  destruct (message_risk self') as [r2|]; [|done]. injection Hm2 as <-.
  exists h'. split; [done|]. split; [done|]. split; [done|].
  intros a' Hlt Hne. apply Hframe; [done|]. rewrite Ha. congruence.
Qed.

End shared_uid.

(** ** Concrete runs *)

(** The human 7, whose identifier 1000 lies at address 0, and the human 8,
    whose identifier 0110 lies at address 1. *)
Definition sender : human := mk_human 7 0 (Some 0%nat).

Definition two_identifiers : store :=
  mk_store (fun a => match a with
                     | O => [true; false; false; false]
                     | 1%nat => [false; true; true; false]
                     | _ => []
                     end) 2.

(** A generator that only draws [True]. *)
Definition rng_true : RandomState.t := RandomState.mk (fun _ => true) 0.

Lemma sent_messages_share_uid_witness :
  exists m1 self' rng' s' m2,
    cur_message Qfloor sender (DateTime.date 2020 3 4) = inr m1
    /\ update_uid_n 1 sender rng_true two_identifiers = inr (self', rng', s')
    /\ cur_message Qfloor self' (DateTime.date 2020 3 5) = inr m2
    /\ exists h',
         RiskPrediction.update_uid_n 1
           (RiskPrediction.human_with_uid [true; false; false; false]) rng_true
         = inr (h', rng')
         /\ dummy_human._uid h' = Some (Message.uid (seen s' m1))
         /\ Message.uid (seen s' m1) = Message.uid (seen s' m2)
         /\ (forall a, (a < next two_identifiers)%nat -> a <> uid m1 ->
               read s' a = read two_identifiers a).
Proof.
  do 5 eexists. split; [reflexivity|]. split; [reflexivity|].
  split; [reflexivity|].
  eapply (sent_messages_share_uid Qfloor 1 sender _ rng_true _ two_identifiers _
           (DateTime.date 2020 3 4) (DateTime.date 2020 3 5) _ _
           (RiskPrediction.human_with_uid [true; false; false; false]));
    reflexivity.
Defined.

(** The message of March 4th was built with the identifier 1000; after the
    rotation of March 5th it shows 1001. *)
Lemma message_of_march_4_changes :
  exists m1 self' rng' s',
    cur_message Qfloor sender (DateTime.date 2020 3 4) = inr m1
    /\ update_uid_n 1 sender rng_true two_identifiers = inr (self', rng', s')
    /\ Message.uid (seen two_identifiers m1) = [true; false; false; false]
    /\ Message.uid (seen s' m1) = [true; false; false; true].
Proof. do 4 eexists. repeat split; reflexivity. Qed.

End SharedUid.

(* ===================================================================== *)
(** * covid19sim/base.py: the global mailbox and the GAEN message budget *)
(* ===================================================================== *)

(** [covid19sim.frozen.message_utils.UpdateMessage]: the fields that
    [City] reads. *)
Module UpdateMessage.
Record t : Type := mk {
  uid : Z;                              (* the mailbox key *)
  _sender_uid : Z;
  _receiver_uid : Z;
  encounter_time : DateTime.datetime;
  new_risk_level : Z
}.

#[global] Instance eq_dec : EqDecision t.
Proof. solve_decision. Defined.
End UpdateMessage.

(** [Human]: what [City] reads and writes of a human, the name and
    [contact_book.latest_update_time].  A human object is identified with
    its key in [City.hd]. *)
Module Human.
Record t : Type := mk {
  name : Z;
  latest_update_time : DateTime.datetime
}.
End Human.

(** The entries of [conf] that the mailbox and the budget read. *)
Module Conf.
Record t : Type := mk {
  TRACING_N_DAYS_HISTORY : Z;
  USE_GAEN : bool;
  MESSAGE_BUDGET_GAEN : Q;
  INTERVENTION_DAY : Z;
  BURN_IN_DAYS : Z;
  DAYS_BETWEEN_MESSAGES : Z;
  n_people : Z;
  UPDATES_PER_DAY : Z
}.
End Conf.

(** [City.rng.random()]: a stream of draws and a cursor. *)
Module FloatRandomState.
Record t : Type := mk {
  stream : nat -> Q;
  pos : nat
}.

Definition random (g : t) : Q * t := (stream g (pos g), mk (stream g) (S (pos g))).
End FloatRandomState.

Module City.

(** The attributes of [City] that the mailbox and the budget use. *)
Record t : Type := mk {
  hd : gmap Z Human.t;
  risk_change_histogram : gmap Z nat;
  risk_change_histogram_sum : nat;
  sent_messages_by_day : gmap Z nat;
  global_mailbox : gmap Z (gmap Z (list UpdateMessage.t));
  rng : FloatRandomState.t
}.

Definition set_hd (self : t) (v : gmap Z Human.t) : t :=
  mk v (risk_change_histogram self) (risk_change_histogram_sum self)
     (sent_messages_by_day self) (global_mailbox self) (rng self).
Definition set_histogram (self : t) (h : gmap Z nat) (s : nat) : t :=
  mk (hd self) h s (sent_messages_by_day self) (global_mailbox self) (rng self).
Definition set_sent_messages_by_day (self : t) (v : gmap Z nat) : t :=
  mk (hd self) (risk_change_histogram self) (risk_change_histogram_sum self)
     v (global_mailbox self) (rng self).
Definition set_global_mailbox (self : t)
    (v : gmap Z (gmap Z (list UpdateMessage.t))) : t :=
  mk (hd self) (risk_change_histogram self) (risk_change_histogram_sum self)
     (sent_messages_by_day self) v (rng self).
Definition set_rng (self : t) (g : FloatRandomState.t) : t :=
  mk (hd self) (risk_change_histogram self) (risk_change_histogram_sum self)
     (sent_messages_by_day self) (global_mailbox self) g.

(** The state of a city after [__init__]: an empty histogram, no message
    sent, an empty mailbox. *)
Definition init (humans : gmap Z Human.t) (g : FloatRandomState.t) : t :=
  mk humans ∅ 0 ∅ ∅ g.

(** ** A state and exception monad over the city

    A raised exception keeps the mutations made before it. *)
Definition M (A : Type) : Type := t -> (exn + A) * t.

Definition ret {A : Type} (a : A) : M A := fun self => (inr a, self).
Definition raise {A : Type} (e : exn) : M A := fun self => (inl e, self).
Definition bind {A B : Type} (c : M A) (k : A -> M B) : M B :=
  fun self =>
    match c self with
    | (inl e, self') => (inl e, self')
    | (inr a, self') => k a self'
    end.
Definition get : M t := fun self => (inr self, self).
Definition put (self' : t) : M unit := fun _ => (inr tt, self').

Notation "'let*' x ':=' c 'in' k" := (bind c (fun x => k))
  (at level 10, x name, c at level 100, k at level 200, only parsing).

(** [for x in l: body(x)] *)
Fixpoint for_each {A : Type} (l : list A) (body : A -> M unit) : M unit :=
  match l with
  | [] => ret tt
  | x :: l' => let* _ := body x in for_each l' body
  end.

(** [d[k]] on a plain dict. *)
Definition getitem {V : Type} (d : gmap Z V) (k : Z) : M V :=
  match d !! k with
  | Some v => ret v
  | None => raise KeyError
  end.

Definition Qlt_bool (a b : Q) : bool := negb (Qle_bool b a).

Section city.

Variable conf : Conf.t.

(** ** [cleanup_global_mailbox] *)

(** [if key not in mailbox: mailbox[key] = []] followed by
    [mailbox[key].append(message)]. *)
Definition append_message (mailbox_key : Z) (message : UpdateMessage.t)
    (mailbox : gmap Z (list UpdateMessage.t)) : gmap Z (list UpdateMessage.t) :=
  let mailbox1 :=
    match mailbox !! mailbox_key with
    | None => <[mailbox_key := []]> mailbox
    | Some _ => mailbox
    end in
  alter (fun messages => messages ++ [message]) mailbox_key mailbox1.

(** The test that keeps a message. *)
Definition recent (current_timestamp : DateTime.datetime)
    (message : UpdateMessage.t) : bool :=
  DateTime.sub_days current_timestamp (UpdateMessage.encounter_time message)
  <=? Conf.TRACING_N_DAYS_HISTORY conf.

(** The two inner loops: the new personal mailbox. *)
Definition cleanup_personal_mailbox (current_timestamp : DateTime.datetime)
    (personal_mailbox : gmap Z (list UpdateMessage.t))
  : gmap Z (list UpdateMessage.t) :=
  foldl (fun new_personal_mailbox '(mailbox_key, messages) =>
           foldl (fun new_personal_mailbox message =>
                    if recent current_timestamp message
                    then append_message mailbox_key message new_personal_mailbox
                    else new_personal_mailbox)
                 new_personal_mailbox messages)
        ∅ (map_to_list personal_mailbox).

Definition cleanup_global_mailbox (self : t)
    (current_timestamp : DateTime.datetime) : t :=
  let new_global_mailbox :=
    foldl (fun new_global_mailbox '(user_key, personal_mailbox) =>
             <[user_key := cleanup_personal_mailbox current_timestamp
                             personal_mailbox]> new_global_mailbox)
          ∅ (map_to_list (global_mailbox self)) in
  set_global_mailbox self new_global_mailbox.

(** ** [_check_should_send_message_gaen] *)

(** [sorted(..., reverse=True)] compares the pairs (score, proportion). *)
Definition item_ge (a b : Z * Q) : Prop :=
  Is_true ((b.1 <? a.1) || ((a.1 =? b.1) && Qle_bool b.2 a.2)).

#[local] Instance item_ge_dec (a b : Z * Q) : Decision (item_ge a b).
Proof. unfold item_ge. apply _. Defined.

(** The dict comprehension [{k: v / sum}] and its sorted items. *)
Definition scaled_risks_of (self : t) : M (list (Z * Q)) :=
  match map_to_list (risk_change_histogram self) with
  | [] => ret []
  | items =>
      if Nat.eqb (risk_change_histogram_sum self) 0 then raise ZeroDivisionError
      else
        ret (merge_sort item_ge
               ((fun kv : Z * nat =>
                   (kv.1, (inject_Z (Z.of_nat kv.2)
                           / inject_Z (Z.of_nat (risk_change_histogram_sum self)))%Q))
                  <$> items))
  end.

(** The loop over the sorted buckets. *)
Fixpoint walk_buckets (scaled_risks : list (Z * Q)) (summed_percentiles : Q)
    (message_budget : Q) (risk_change_score : Z) : M bool :=
  match scaled_risks with
  | [] => ret false
  | (rc, percentile) :: rest =>
      let next := walk_buckets rest (summed_percentiles + percentile)%Q
                    message_budget risk_change_score in
      if (risk_change_score =? rc) && Qlt_bool summed_percentiles message_budget
      then
        if Qlt_bool message_budget (summed_percentiles + percentile)%Q
        then
          (* self.rng.random() < message_budget - summed_percentiles *)
          let* self := get in
          let '(x, g) := FloatRandomState.random (rng self) in
          let* _ := put (set_rng self g) in
          if Qlt_bool x (message_budget - summed_percentiles)%Q
          then ret true else next
        else ret true
      else next
  end.

(** The three guards that reject before the buckets are looked at. *)
Definition in_burn_in (current_day_idx : Z) : bool :=
  current_day_idx - Conf.INTERVENTION_DAY conf <? Conf.BURN_IN_DAYS conf.

Definition sent_recently (current_timestamp : DateTime.datetime)
    (human : Human.t) : bool :=
  DateTime.sub_days current_timestamp (Human.latest_update_time human)
  <? Conf.DAYS_BETWEEN_MESSAGES conf.

Definition budget_spent (self : t) (current_day_idx : Z) : bool :=
  let already_sent_messages :=
    default 0%nat (sent_messages_by_day self !! current_day_idx) in
  Qle_bool (Conf.MESSAGE_BUDGET_GAEN conf * inject_Z (Conf.n_people conf))
           (inject_Z (Z.of_nat already_sent_messages)).

Definition _check_should_send_message_gaen (current_day_idx : Z)
    (current_timestamp : DateTime.datetime) (human : Human.t)
    (risk_change_score : Z) : M bool :=
  let message_budget := Conf.MESSAGE_BUDGET_GAEN conf in
  if in_burn_in current_day_idx then ret false
  else
    let days_between_messages := Conf.DAYS_BETWEEN_MESSAGES conf in
    if sent_recently current_timestamp human then ret false
    else
      let* self := get in
      if budget_spent self current_day_idx then ret false
      else
        let message_budget :=
          (inject_Z days_between_messages * message_budget)%Q in
        if Conf.UPDATES_PER_DAY conf =? 0 then raise ZeroDivisionError
        else
          let message_budget :=
            (message_budget / inject_Z (Conf.UPDATES_PER_DAY conf))%Q in
          let* scaled_risks := scaled_risks_of self in
          walk_buckets scaled_risks 0%Q message_budget risk_change_score.

(** ** [register_new_messages] *)

(** [self.risk_change_histogram[score] += 1] on a [Counter]. *)
Definition count_score (histogram : gmap Z nat) (score : Z) : gmap Z nat :=
  <[score := S (default 0%nat (histogram !! score))]> histogram.

(** The histogram update for the scores of the updaters. *)
Definition update_histogram (updater_scores : gmap Z Z) : M unit :=
  let* self := get in
  put (set_histogram self
         (foldl count_score (risk_change_histogram self)
                (map_to_list updater_scores).*2)
         (risk_change_histogram_sum self + size updater_scores)%nat).

(** The end of the loop body, reached when the message is sent: the
    counter of the day, the time of the last update of the sender, and the
    personal mailbox of the receiver.  The call to the tracker records the
    message for the statistics and is left out. *)
Definition deliver_update_message (current_day_idx : Z)
    (current_timestamp : DateTime.datetime)
    (source_human destination_human : Human.t)
    (update_message : UpdateMessage.t) : M unit :=
  let* self := get in
  (* self.sent_messages_by_day[current_day_idx] += 1 *)
  let sent :=
    match sent_messages_by_day self !! current_day_idx with
    | None => <[current_day_idx := 0%nat]> (sent_messages_by_day self)
    | Some _ => sent_messages_by_day self
    end in
  let sent := alter S current_day_idx sent in
  (* source_human.contact_book.latest_update_time = max(..., now) *)
  let source_human' :=
    Human.mk (Human.name source_human)
      (DateTime.max_dt (Human.latest_update_time source_human)
         current_timestamp) in
  let hd' := <[UpdateMessage._sender_uid update_message := source_human']>
               (hd self) in
  (* the personal mailbox of the receiver, made on first use *)
  let mailbox_key := UpdateMessage.uid update_message in
  let personal_mailbox :=
    default ∅ (global_mailbox self !! Human.name destination_human) in
  let mailbox' :=
    <[Human.name destination_human :=
        append_message mailbox_key update_message personal_mailbox]>
      (global_mailbox self) in
  put (set_global_mailbox
         (set_hd (set_sent_messages_by_day self sent) hd') mailbox').

(** The body of the loop over the update messages. *)
Definition send_update_message (current_day_idx : Z)
    (current_timestamp : DateTime.datetime) (updater_scores : gmap Z Z)
    (update_message : UpdateMessage.t) : M unit :=
  let* self := get in
  let* source_human := getitem (hd self) (UpdateMessage._sender_uid update_message) in
  let* destination_human :=
    getitem (hd self) (UpdateMessage._receiver_uid update_message) in
  let* should_send :=
    if Conf.USE_GAEN conf then
      let* risk_change_score :=
        getitem updater_scores (UpdateMessage._sender_uid update_message) in
      _check_should_send_message_gaen current_day_idx current_timestamp
        source_human risk_change_score
    else ret true in
  if negb should_send then ret tt
  else deliver_update_message current_day_idx current_timestamp
         source_human destination_human update_message.

(** [risk_level_change_score h] stands for the call of
    [h.contact_book.get_risk_level_change_score] on the two risk history
    maps of [h]; the contact book is not part of the sources at hand. *)
Definition register_new_messages (current_day_idx : Z)
    (current_timestamp : DateTime.datetime)
    (update_messages : list UpdateMessage.t)
    (risk_level_change_score : Z -> Z) : M unit :=
  let* self := get in
  let* _ := for_each update_messages
              (fun m => let* _ := getitem (hd self) (UpdateMessage._sender_uid m) in
                        ret tt) in
  let humans_with_updates : gset Z :=
    list_to_set (UpdateMessage._sender_uid <$> update_messages) in
  let updater_scores : gmap Z Z :=
    list_to_map ((fun h => (h, risk_level_change_score h))
                   <$> elements humans_with_updates) in
  let* _ := if Conf.USE_GAEN conf then update_histogram updater_scores else ret tt in
  for_each update_messages
    (send_update_message current_day_idx current_timestamp updater_scores).

(** ** Facts on [cleanup_global_mailbox] *)

(** [message] lies in the list kept under [mailbox_key]. *)
Definition in_mailbox (mailbox : gmap Z (list UpdateMessage.t))
    (mailbox_key : Z) (message : UpdateMessage.t) : Prop :=
  exists messages, mailbox !! mailbox_key = Some messages /\ message ∈ messages.

(** [message] lies in the personal mailbox of [user_key]. *)
Definition in_global_mailbox (mailboxes : gmap Z (gmap Z (list UpdateMessage.t)))
    (user_key mailbox_key : Z) (message : UpdateMessage.t) : Prop :=
  exists personal_mailbox,
    mailboxes !! user_key = Some personal_mailbox
    /\ in_mailbox personal_mailbox mailbox_key message.

Lemma in_append_message k m (mailbox : gmap Z (list UpdateMessage.t)) k' m' :
  in_mailbox (append_message k m mailbox) k' m'
  <-> in_mailbox mailbox k' m' \/ (k' = k /\ m' = m).
Proof.
  unfold in_mailbox, append_message.
  destruct (decide (k' = k)) as [->|Hne].
  - rewrite lookup_alter_eq.
    destruct (mailbox !! k) as [messages|] eqn:Hk.
    + rewrite Hk. simpl. split.
      * intros (l & [= <-] & Hin). apply elem_of_app in Hin as [Hin|Hin].
        -- left. eauto.
        -- apply list_elem_of_singleton in Hin. by right.
      * intros [(l & [= <-] & Hin) | [_ ->]].
        -- eexists. split; [done|]. apply elem_of_app. by left.
        -- eexists. split; [done|]. apply elem_of_app. right. left.
    + rewrite lookup_insert_eq. simpl. split.
      * intros (l & [= <-] & Hin). apply list_elem_of_singleton in Hin. by right.
      * intros [(l & Hl & _) | [_ ->]]; [done|].
        eexists. split; [done|]. left.
  - rewrite lookup_alter_ne by done.
    destruct (mailbox !! k) as [messages|] eqn:Hk.
    + split; [by left | intros [H | [? _]]; done].
    + rewrite lookup_insert_ne by done.
      split; [by left | intros [H | [? _]]; done].
Qed.

Lemma in_cleanup_messages now k (messages : list UpdateMessage.t) :
  forall (mailbox : gmap Z (list UpdateMessage.t)) k' m',
    in_mailbox
      (foldl (fun new_personal_mailbox message =>
                if recent now message
                then append_message k message new_personal_mailbox
                else new_personal_mailbox) mailbox messages) k' m'
    <-> in_mailbox mailbox k' m'
        \/ (k' = k /\ m' ∈ messages /\ recent now m' = true).
Proof.
  induction messages as [|m messages IH]; intros mailbox k' m'; simpl.
  - split; [by left | intros [H | (_ & H & _)]; [done|]].
    by apply elem_of_nil in H.
  - rewrite IH. destruct (recent now m) eqn:Hm.
    + rewrite in_append_message. split.
      * intros [[H | [-> ->]] | (-> & Hin & Hr)].
        -- by left.
        -- right. split; [done|]. split; [left | done].
        -- right. split; [done|]. split; [by right | done].
      * intros [H | (-> & Hin & Hr)]; [by do 2 left|].
        apply elem_of_cons in Hin as [-> | Hin]; [left; by right | by right].
    + split.
      * intros [H | (-> & Hin & Hr)]; [by left|].
        right. split; [done|]. split; [by right | done].
      * intros [H | (-> & Hin & Hr)]; [by left|].
        apply elem_of_cons in Hin as [-> | Hin]; [congruence | by right].
Qed.

Lemma in_cleanup_items now (items : list (Z * list UpdateMessage.t)) :
  forall (mailbox : gmap Z (list UpdateMessage.t)) k' m',
    in_mailbox
      (foldl (fun new_personal_mailbox '(mailbox_key, messages) =>
                foldl (fun new_personal_mailbox message =>
                         if recent now message
                         then append_message mailbox_key message new_personal_mailbox
                         else new_personal_mailbox)
                      new_personal_mailbox messages) mailbox items) k' m'
    <-> in_mailbox mailbox k' m'
        \/ exists messages, (k', messages) ∈ items /\ m' ∈ messages
                            /\ recent now m' = true.
Proof.
  induction items as [|[k messages] items IH]; intros mailbox k' m'; simpl.
  - split; [by left | intros [H | (l & H & _)]; [done|]].
    by apply elem_of_nil in H.
  - rewrite IH, in_cleanup_messages. split.
    + intros [[H | (-> & Hin & Hr)] | (l & Hl & Hin & Hr)].
      * by left.
      * right. exists messages. split; [left | done].
      * right. exists l. split; [by right | done].
    + intros [H | (l & Hl & Hin & Hr)]; [by do 2 left|].
      apply elem_of_cons in Hl as [[= -> ->] | Hl].
      * left. by right.
      * right. eauto.
Qed.

(** A message is in the cleaned personal mailbox exactly when it was in the
    mailbox under the same key and passes the test. *)
Lemma in_cleanup_personal_mailbox now (mailbox : gmap Z (list UpdateMessage.t)) k m :
  in_mailbox (cleanup_personal_mailbox now mailbox) k m
  <-> in_mailbox mailbox k m /\ recent now m = true.
Proof.
  unfold cleanup_personal_mailbox. rewrite in_cleanup_items. split.
  - intros [(l & Hl & _) | (l & Hl & Hin & Hr)].
    + by rewrite lookup_empty in Hl.
    + apply elem_of_map_to_list in Hl. split; [|done]. by exists l.
  - intros [(l & Hl & Hin) Hr]. right. exists l.
    split; [by apply elem_of_map_to_list | done].
Qed.

(** The outer loop rebuilds one personal mailbox per user key. *)
Lemma rebuild_lookup {A B : Type} (f : A -> B) (items : list (Z * A)) :
  forall (acc : gmap Z B) (u : Z),
    NoDup items.*1 ->
    foldl (fun acc '(k, a) => <[k := f a]> acc) acc items !! u
    = match (list_to_map items : gmap Z A) !! u with
      | Some a => Some (f a)
      | None => acc !! u
      end.
Proof.
  induction items as [|[k a] items IH]; intros acc u Hnd; simpl.
  - by rewrite lookup_empty.
  - apply NoDup_cons in Hnd as [Hk Hnd]. rewrite IH by done.
    destruct (decide (k = u)) as [->|Hne].
    + rewrite lookup_insert_eq.
      rewrite (proj1 (not_elem_of_list_to_map _ _) Hk).
      by rewrite lookup_insert_eq.
    + by rewrite !lookup_insert_ne by done.
Qed.

Lemma cleanup_global_mailbox_lookup (self : t) now (u : Z) :
  global_mailbox (cleanup_global_mailbox self now) !! u
  = cleanup_personal_mailbox now <$> global_mailbox self !! u.
Proof.
  unfold cleanup_global_mailbox. simpl.
  rewrite (rebuild_lookup (cleanup_personal_mailbox now))
    by apply NoDup_fst_map_to_list.
  rewrite list_to_map_to_list, lookup_empty.
  by destruct (global_mailbox self !! u).
Qed.

Lemma in_cleanup_global_mailbox (self : t) now (u k : Z) (m : UpdateMessage.t) :
  in_global_mailbox (global_mailbox (cleanup_global_mailbox self now)) u k m
  <-> in_global_mailbox (global_mailbox self) u k m /\ recent now m = true.
Proof.
  unfold in_global_mailbox. rewrite cleanup_global_mailbox_lookup. split.
  - intros (pm & Hpm & Hin).
    destruct (global_mailbox self !! u) as [pm0|] eqn:Hu; [|done].
    simpl in Hpm. injection Hpm as <-.
    apply in_cleanup_personal_mailbox in Hin as [Hin Hr]. eauto.
  - intros [(pm & Hpm & Hin) Hr]. rewrite Hpm. simpl.
    eexists. split; [done|]. by apply in_cleanup_personal_mailbox.
Qed.

(** What the clean-up keeps.  After [cleanup_global_mailbox] a message is in
    a personal mailbox under a key exactly when it was there before and the
    whole days elapsed since its encounter time are at most
    [TRACING_N_DAYS_HISTORY]; every surviving message is thus younger than
    [TRACING_N_DAYS_HISTORY + 1] days. *)
Theorem cleanup_global_mailbox_retention (self : t)
    (current_timestamp : DateTime.datetime) (user_key mailbox_key : Z)
    (message : UpdateMessage.t) :
  let age := DateTime.sub current_timestamp (UpdateMessage.encounter_time message) in
  let survives :=
    in_global_mailbox
      (global_mailbox (cleanup_global_mailbox self current_timestamp))
      user_key mailbox_key message in
  (survives <->
   in_global_mailbox (global_mailbox self) user_key mailbox_key message
   /\ DateTime.sub_days current_timestamp (UpdateMessage.encounter_time message)
      <= Conf.TRACING_N_DAYS_HISTORY conf)
  /\ (survives ->
      age < (Conf.TRACING_N_DAYS_HISTORY conf + 1) * DateTime.us_per_day).
Proof.
  intros age survives.
  assert (Hiff : survives <->
     in_global_mailbox (global_mailbox self) user_key mailbox_key message
     /\ DateTime.sub_days current_timestamp (UpdateMessage.encounter_time message)
        <= Conf.TRACING_N_DAYS_HISTORY conf).
  { unfold survives. rewrite in_cleanup_global_mailbox. unfold recent.
    by rewrite Z.leb_le. }
  split; [exact Hiff|]. intros Hs. apply Hiff in Hs as [_ Hdays].
  unfold DateTime.sub_days in Hdays. fold age in Hdays.
  pose proof (Z.mul_succ_div_gt age DateTime.us_per_day) as Hgt.
  unfold DateTime.us_per_day in *. nia.
Qed.

(** ** Facts on the message budget *)

(** Two states that differ at most by the cursor of the generator. *)
Definition same_but_rng (self self' : t) : Prop :=
  hd self' = hd self
  /\ risk_change_histogram self' = risk_change_histogram self
  /\ risk_change_histogram_sum self' = risk_change_histogram_sum self
  /\ sent_messages_by_day self' = sent_messages_by_day self
  /\ global_mailbox self' = global_mailbox self.

Lemma same_but_rng_refl self : same_but_rng self self.
Proof. by repeat split. Qed.

Lemma same_but_rng_trans s1 s2 s3 :
  same_but_rng s1 s2 -> same_but_rng s2 s3 -> same_but_rng s1 s3.
Proof.
  intros (? & ? & ? & ? & ?) (? & ? & ? & ? & ?).
  repeat split; congruence.
Qed.

Lemma walk_buckets_frame (scaled_risks : list (Z * Q)) :
  forall summed message_budget score self,
    same_but_rng self (walk_buckets scaled_risks summed message_budget score self).2.
Proof.
  induction scaled_risks as [|[rc p] rest IH]; intros summed b score self; simpl.
  - apply same_but_rng_refl.
  - destruct ((score =? rc) && Qlt_bool summed b); [|apply IH].
    destruct (Qlt_bool b (summed + p)); [|apply same_but_rng_refl].
    unfold bind, get, put. simpl.
    destruct (Qlt_bool _ (b - summed)).
    + simpl. by repeat split.
    + eapply same_but_rng_trans; [|apply IH]. by repeat split.
Qed.

Lemma scaled_risks_of_state (self self0 : t) :
  (scaled_risks_of self self0).2 = self0.
Proof.
  unfold scaled_risks_of.
  destruct (map_to_list (risk_change_histogram self)); [done|].
  by destruct (Nat.eqb _ 0).
Qed.

(** The check only moves the cursor of the generator. *)
Lemma check_frame d now human score self :
  same_but_rng self (_check_should_send_message_gaen d now human score self).2.
Proof.
  unfold _check_should_send_message_gaen.
  destruct (in_burn_in d); [apply same_but_rng_refl|].
  destruct (sent_recently now human); [apply same_but_rng_refl|].
  unfold bind at 1. unfold get. simpl.
  destruct (budget_spent self d); [apply same_but_rng_refl|].
  destruct (Conf.UPDATES_PER_DAY conf =? 0); [apply same_but_rng_refl|].
  unfold bind.
  pose proof (scaled_risks_of_state self self) as Hst.
  destruct (scaled_risks_of self self) as [[e|scaled] self1]; simpl in Hst; subst self1.
  - apply same_but_rng_refl.
  - apply walk_buckets_frame.
Qed.

Lemma check_burn_in d now human score self :
  in_burn_in d = true ->
  _check_should_send_message_gaen d now human score self = (inr false, self).
Proof. intros H. unfold _check_should_send_message_gaen. by rewrite H. Qed.

Lemma check_sent_recently d now human score self :
  sent_recently now human = true ->
  _check_should_send_message_gaen d now human score self = (inr false, self).
Proof.
  intros H. unfold _check_should_send_message_gaen. rewrite H.
  by destruct (in_burn_in d).
Qed.

Lemma check_budget_spent d now human score self :
  budget_spent self d = true ->
  _check_should_send_message_gaen d now human score self = (inr false, self).
Proof.
  intros H. unfold _check_should_send_message_gaen.
  destruct (in_burn_in d); [done|].
  destruct (sent_recently now human); [done|].
  unfold bind, get. simpl. by rewrite H.
Qed.

(** A message is only admitted with budget left. *)
Lemma check_true_budget d now human score self self' :
  _check_should_send_message_gaen d now human score self = (inr true, self') ->
  in_burn_in d = false /\ sent_recently now human = false
  /\ budget_spent self d = false.
Proof.
  destruct (in_burn_in d) eqn:H1.
  { by rewrite check_burn_in. }
  destruct (sent_recently now human) eqn:H2.
  { by rewrite check_sent_recently. }
  destruct (budget_spent self d) eqn:H3.
  { by rewrite check_budget_spent. }
  done.
Qed.

(** The count of the day, 0 when the day has no entry. *)
Definition sent_on (self : t) (d : Z) : nat :=
  default 0%nat (sent_messages_by_day self !! d).

(** The state written when a message is sent. *)
Lemma deliver_update_message_run d now src dst msg self :
  exists self',
    deliver_update_message d now src dst msg self = (inr tt, self')
    /\ sent_messages_by_day self' !! d = Some (S (sent_on self d))
    /\ (forall d', d' <> d ->
          sent_messages_by_day self' !! d' = sent_messages_by_day self !! d')
    /\ hd self' =
         <[UpdateMessage._sender_uid msg :=
             Human.mk (Human.name src)
               (DateTime.max_dt (Human.latest_update_time src) now)]> (hd self)
    /\ global_mailbox self' =
         <[Human.name dst :=
             append_message (UpdateMessage.uid msg) msg
               (default ∅ (global_mailbox self !! Human.name dst))]>
           (global_mailbox self)
    /\ risk_change_histogram self' = risk_change_histogram self
    /\ risk_change_histogram_sum self' = risk_change_histogram_sum self
    /\ rng self' = rng self.
Proof.
  unfold deliver_update_message, bind, get, put.
  eexists. split; [reflexivity|]. simpl. unfold sent_on.
  split; [|split; [|done]].
  - rewrite lookup_alter_eq.
    destruct (sent_messages_by_day self !! d) as [n|] eqn:Hd.
    + by rewrite Hd.
    + by rewrite lookup_insert_eq.
  - intros d' Hne. rewrite lookup_alter_ne by done.
    destruct (sent_messages_by_day self !! d); [done|].
    by rewrite lookup_insert_ne.
Qed.

(** The three ways the loop body can end. *)
Inductive send_outcome (d : Z) (now : DateTime.datetime)
    (updater_scores : gmap Z Z) (msg : UpdateMessage.t) (self : t)
  : (exn + unit) * t -> Prop :=
  | send_raises e self1 :
      same_but_rng self self1 ->
      send_outcome d now updater_scores msg self (inl e, self1)
  | send_rejected src dst score self1 :
      hd self !! UpdateMessage._sender_uid msg = Some src ->
      hd self !! UpdateMessage._receiver_uid msg = Some dst ->
      updater_scores !! UpdateMessage._sender_uid msg = Some score ->
      _check_should_send_message_gaen d now src score self = (inr false, self1) ->
      send_outcome d now updater_scores msg self (inr tt, self1)
  | send_admitted src dst score self1 :
      hd self !! UpdateMessage._sender_uid msg = Some src ->
      hd self !! UpdateMessage._receiver_uid msg = Some dst ->
      updater_scores !! UpdateMessage._sender_uid msg = Some score ->
      _check_should_send_message_gaen d now src score self = (inr true, self1) ->
      send_outcome d now updater_scores msg self
        (deliver_update_message d now src dst msg self1).

Lemma send_update_message_outcome d now updater_scores msg self :
  Conf.USE_GAEN conf = true ->
  send_outcome d now updater_scores msg self
    (send_update_message d now updater_scores msg self).
Proof.
  intros Hgaen. unfold send_update_message. rewrite Hgaen.
  unfold bind at 1. unfold get. simpl.
  unfold bind at 1. unfold getitem at 1.
  destruct (hd self !! UpdateMessage._sender_uid msg) as [src|] eqn:Hsrc;
    [|apply send_raises, same_but_rng_refl].
  simpl. unfold bind at 1. unfold getitem at 1.
  destruct (hd self !! UpdateMessage._receiver_uid msg) as [dst|] eqn:Hdst;
    [|apply send_raises, same_but_rng_refl].
  simpl. unfold bind at 1. unfold bind at 1. unfold getitem at 1.
  destruct (updater_scores !! UpdateMessage._sender_uid msg) as [score|] eqn:Hsc;
    [|apply send_raises, same_but_rng_refl].
  simpl.
  pose proof (check_frame d now src score self) as Hframe.
  destruct (_check_should_send_message_gaen d now src score self)
    as [[e|[|]] self1] eqn:Hcheck; simpl in *.
  - by apply send_raises.
  - by eapply send_admitted.
  - by eapply send_rejected.
Qed.

Lemma send_update_message_run d now updater_scores msg self src dst score :
  Conf.USE_GAEN conf = true ->
  hd self !! UpdateMessage._sender_uid msg = Some src ->
  hd self !! UpdateMessage._receiver_uid msg = Some dst ->
  updater_scores !! UpdateMessage._sender_uid msg = Some score ->
  send_update_message d now updater_scores msg self
  = match _check_should_send_message_gaen d now src score self with
    | (inl e, self1) => (inl e, self1)
    | (inr true, self1) => deliver_update_message d now src dst msg self1
    | (inr false, self1) => (inr tt, self1)
    end.
Proof.
  intros Hgaen Hsrc Hdst Hsc. unfold send_update_message. rewrite Hgaen.
  unfold bind at 1. unfold get. simpl.
  unfold bind at 1. unfold getitem at 1. rewrite Hsrc. simpl.
  unfold bind at 1. unfold getitem at 1. rewrite Hdst. simpl.
  unfold bind at 1. unfold bind at 1. unfold getitem at 1. rewrite Hsc. simpl.
  by destruct (_check_should_send_message_gaen d now src score self)
    as [[e|[|]] self1].
Qed.

Lemma for_each_inv {A : Type} (P : t -> Prop) (body : A -> M unit) (l : list A) :
  (forall x self, P self -> P (body x self).2) ->
  forall self, P self -> P (for_each l body self).2.
Proof.
  intros Hbody. induction l as [|x l IH]; intros self HP; simpl; [done|].
  unfold bind. specialize (Hbody x self HP).
  destruct (body x self) as [[e|[]] self1]; simpl in *; [done|]. by apply IH.
Qed.

(** The look-up of the senders leaves the state as it is, and succeeds when
    every sender is known. *)
Lemma lookup_senders_run (humans : gmap Z Human.t) (ms : list UpdateMessage.t) self :
  let r := for_each ms
             (fun m => let* _ := getitem humans (UpdateMessage._sender_uid m) in
                       ret tt) self in
  r.2 = self
  /\ ((forall m, m ∈ ms -> is_Some (humans !! UpdateMessage._sender_uid m)) ->
      r.1 = inr tt).
Proof.
  induction ms as [|m ms [IH1 IH2]]; simpl; [done|].
  unfold bind at 1. unfold bind at 1. unfold getitem.
  destruct (humans !! UpdateMessage._sender_uid m) as [h|] eqn:Hm; simpl.
  - split; [done|]. intros Hall. apply IH2. intros m' Hm'. apply Hall. by right.
  - split; [done|]. intros Hall.
    destruct (Hall m) as [h Hh]; [left | congruence].
Qed.

(** The scores of the distinct senders, as [register_new_messages] builds
    them. *)
Definition updater_scores_of (update_messages : list UpdateMessage.t)
    (risk_level_change_score : Z -> Z) : gmap Z Z :=
  list_to_map ((fun h => (h, risk_level_change_score h))
                 <$> elements (list_to_set (C := gset Z)
                                 (UpdateMessage._sender_uid <$> update_messages))).

(** The state after the update of the histogram. *)
Definition with_updated_histogram (self : t) (updater_scores : gmap Z Z) : t :=
  set_histogram self
    (foldl count_score (risk_change_histogram self)
           (map_to_list updater_scores).*2)
    (risk_change_histogram_sum self + size updater_scores)%nat.

(** [register_new_messages] under GAEN: a [KeyError] on an unknown sender
    with the state untouched, or the histogram update followed by the loop. *)
Lemma register_new_messages_run d now ms score_fn self :
  Conf.USE_GAEN conf = true ->
  let r := register_new_messages d now ms score_fn self in
  let scores := updater_scores_of ms score_fn in
  (r.2 = self
   /\ ~ (forall m, m ∈ ms -> is_Some (hd self !! UpdateMessage._sender_uid m)))
  \/ ((forall m, m ∈ ms -> is_Some (hd self !! UpdateMessage._sender_uid m))
      /\ r = for_each ms (send_update_message d now scores)
               (with_updated_histogram self scores)).
Proof.
  intros Hgaen r scores.
  assert (Hr : r =
    match for_each ms
            (fun m => let* _ := getitem (hd self) (UpdateMessage._sender_uid m) in
                      ret tt) self with
    | (inl e, self1) => (inl e, self1)
    | (inr _, self1) =>
        for_each ms (send_update_message d now scores)
          (with_updated_histogram self1 scores)
    end).
  { unfold r, register_new_messages. rewrite Hgaen.
    unfold bind at 1. unfold get. simpl. unfold bind at 1.
    destruct (for_each ms _ self) as [[e|[]] self1]; [done|].
    unfold bind at 1. unfold update_histogram, bind, get, put. simpl.
    reflexivity. }
  destruct (lookup_senders_run (hd self) ms self) as [Hst Hok]. simpl in Hst, Hok.
  destruct (for_each ms _ self) as [[e|[]] self1] eqn:Hlook; simpl in *; subst self1.
  - left. rewrite Hr. split; [done|]. intros Hall. by specialize (Hok Hall).
  - right. split; [|done]. clear Hok Hr. revert Hlook. clear.
    induction ms as [|m ms IH]; simpl.
    + intros _ m Hm. by apply elem_of_nil in Hm.
    + unfold bind at 1. unfold bind at 1. unfold getitem.
      destruct (hd self !! UpdateMessage._sender_uid m) as [h|] eqn:Hm;
        simpl; [|done].
      intros Hrest m' Hm'. apply elem_of_cons in Hm' as [->|Hm']; [by eexists|].
      by apply IH.
Qed.

(** *** The daily quota *)

Definition quota : Z :=
  Qceiling (Conf.MESSAGE_BUDGET_GAEN conf * inject_Z (Conf.n_people conf)).

Definition within_budget (self : t) : Prop :=
  forall d n, sent_messages_by_day self !! d = Some n -> Z.of_nat n <= quota.

Lemma budget_left_succ self d :
  budget_spent self d = false -> Z.of_nat (S (sent_on self d)) <= quota.
Proof.
  unfold budget_spent, quota. fold (sent_on self d). intros Hb.
  set (q := (Conf.MESSAGE_BUDGET_GAEN conf * inject_Z (Conf.n_people conf))%Q) in *.
  assert (Hlt : (inject_Z (Z.of_nat (sent_on self d)) < q)%Q).
  { apply Qnot_le_lt. intros Hle. apply Qle_bool_iff in Hle. congruence. }
  pose proof (Qle_ceiling q) as Hc.
  assert (Hz : (inject_Z (Z.of_nat (sent_on self d)) < inject_Z (Qceiling q))%Q)
    by (eapply Qlt_le_trans; eauto).
  rewrite <- Zlt_Qlt in Hz. lia.
Qed.

Lemma send_update_message_within_budget d now scores msg self :
  Conf.USE_GAEN conf = true ->
  within_budget self ->
  within_budget (send_update_message d now scores msg self).2.
Proof.
  intros Hgaen Hw.
  destruct (send_update_message_outcome d now scores msg self Hgaen)
    as [e self1 (_ & _ & _ & Hs & _)
       | src dst score self1 _ _ _ Hcheck
       | src dst score self1 _ _ _ Hcheck].
  - simpl. unfold within_budget. by rewrite Hs.
  - pose proof (check_frame d now src score self) as Hf.
    rewrite Hcheck in Hf. simpl in Hf. destruct Hf as (_ & _ & _ & Hs & _).
    simpl. unfold within_budget. by rewrite Hs.
  - pose proof (check_frame d now src score self) as Hf.
    rewrite Hcheck in Hf. simpl in Hf. destruct Hf as (_ & _ & _ & Hs & _). simpl in Hs.
    apply check_true_budget in Hcheck as (_ & _ & Hb).
    destruct (deliver_update_message_run d now src dst msg self1)
      as (self2 & -> & Hd & Hother & _).
    simpl. intros d' n Hn.
    destruct (decide (d' = d)) as [->|Hne].
    + rewrite Hd in Hn. injection Hn as <-.
      unfold sent_on. rewrite Hs. by apply budget_left_succ.
    + rewrite Hother, Hs in Hn by done. by apply (Hw d').
Qed.

Lemma register_new_messages_within_budget d now ms score_fn self :
  Conf.USE_GAEN conf = true ->
  within_budget self ->
  within_budget (register_new_messages d now ms score_fn self).2.
Proof.
  intros Hgaen Hw.
  destruct (register_new_messages_run d now ms score_fn self Hgaen)
    as [[-> _] | [_ ->]]; [done|].
  apply for_each_inv; [|done].
  intros msg s Hs. by apply send_update_message_within_budget.
Qed.

(** *** The messages in the mailboxes *)

(** The sum of a measure over the values of a map. *)
Definition total {V : Type} (measure : V -> nat) (m : gmap Z V) : nat :=
  map_fold (fun _ x acc => (measure x + acc)%nat) 0%nat m.

(** The number of messages held in the global mailbox. *)
Definition mailbox_size (self : t) : nat :=
  total (total (@length UpdateMessage.t)) (global_mailbox self).

Lemma total_insert {V : Type} (measure : V -> nat) (m : gmap Z V) (k : Z) (v : V) :
  (total measure (<[k := v]> m) + default 0 (measure <$> m !! k)
   = total measure m + measure v)%nat.
Proof.
  unfold total. destruct (m !! k) as [x|] eqn:Hk; simpl.
  - rewrite <- insert_delete_eq.
    rewrite map_fold_insert_L; [|intros; lia | apply lookup_delete_eq].
    rewrite (map_fold_delete_L _ _ k x m); [lia | intros; lia | done].
  - rewrite map_fold_insert_L; [lia | intros; lia | done].
Qed.

Lemma append_message_insert k m (mailbox : gmap Z (list UpdateMessage.t)) :
  append_message k m mailbox = <[k := default [] (mailbox !! k) ++ [m]]> mailbox.
Proof.
  unfold append_message. apply map_eq. intros k'.
  destruct (decide (k' = k)) as [->|Hne].
  - rewrite lookup_alter_eq, lookup_insert_eq.
    destruct (mailbox !! k) as [l|] eqn:Hk.
    + by rewrite Hk.
    + by rewrite lookup_insert_eq.
  - rewrite lookup_alter_ne, lookup_insert_ne by done.
    destruct (mailbox !! k); [done|]. by rewrite lookup_insert_ne.
Qed.

Lemma total_append_message k m (mailbox : gmap Z (list UpdateMessage.t)) :
  total (@length UpdateMessage.t) (append_message k m mailbox)
  = S (total (@length UpdateMessage.t) mailbox).
Proof.
  rewrite append_message_insert.
  pose proof (total_insert (@length UpdateMessage.t) mailbox k
                (default [] (mailbox !! k) ++ [m])) as H.
  rewrite length_app in H. simpl in H.
  destruct (mailbox !! k) as [l|]; simpl in *; lia.
Qed.

Lemma deliver_update_message_counted d now src dst msg self :
  mailbox_size (deliver_update_message d now src dst msg self).2
  = S (mailbox_size self).
Proof.
  destruct (deliver_update_message_run d now src dst msg self)
    as (self' & -> & _ & _ & _ & Hmb & _).
  simpl. unfold mailbox_size. rewrite Hmb.
  pose proof (total_insert (total (@length UpdateMessage.t)) (global_mailbox self)
                (Human.name dst)
                (append_message (UpdateMessage.uid msg) msg
                   (default ∅ (global_mailbox self !! Human.name dst)))) as H.
  rewrite total_append_message in H.
  assert (Hempty : total (@length UpdateMessage.t) ∅ = 0%nat)
    by (unfold total; apply map_fold_empty).
  destruct (global_mailbox self !! Human.name dst) as [pm|]; simpl in *; [lia|].
  rewrite Hempty in H. lia.
Qed.

(** One pass of the loop body: the counter of the day moves as the number
    of messages in the mailboxes does. *)
Lemma send_update_message_counted d now scores msg self :
  Conf.USE_GAEN conf = true ->
  let self' := (send_update_message d now scores msg self).2 in
  (mailbox_size self' + sent_on self d = mailbox_size self + sent_on self' d)%nat.
Proof.
  intros Hgaen. simpl.
  destruct (send_update_message_outcome d now scores msg self Hgaen)
    as [e self1 (_ & _ & _ & Hs & Hmb)
       | src dst score self1 _ _ _ Hcheck
       | src dst score self1 _ _ _ Hcheck].
  - simpl. unfold mailbox_size, sent_on. by rewrite Hs, Hmb.
  - pose proof (check_frame d now src score self) as Hf.
    rewrite Hcheck in Hf. simpl in Hf. destruct Hf as (_ & _ & _ & Hs & Hmb).
    simpl. unfold mailbox_size, sent_on. by rewrite Hs, Hmb.
  - pose proof (check_frame d now src score self) as Hf.
    rewrite Hcheck in Hf. simpl in Hf. destruct Hf as (_ & _ & _ & Hs & Hmb).
    rewrite deliver_update_message_counted.
    destruct (deliver_update_message_run d now src dst msg self1)
      as (self2 & -> & Hd & _).
    simpl. unfold mailbox_size, sent_on in *. rewrite Hd, Hs, Hmb. simpl. lia.
Qed.

Lemma register_new_messages_counted d now ms score_fn self :
  Conf.USE_GAEN conf = true ->
  let self' := (register_new_messages d now ms score_fn self).2 in
  (mailbox_size self' + sent_on self d = mailbox_size self + sent_on self' d)%nat.
Proof.
  intros Hgaen. simpl.
  destruct (register_new_messages_run d now ms score_fn self Hgaen)
    as [[-> _] | [_ ->]]; [done|].
  apply (for_each_inv
           (fun s => (mailbox_size s + sent_on self d
                      = mailbox_size self + sent_on s d)%nat)); [|done].
  intros msg s Hs.
  pose proof (send_update_message_counted d now (updater_scores_of ms score_fn)
                msg s Hgaen) as Hstep.
  simpl in Hstep. lia.
Qed.

(** The states a run of the simulator goes through, as far as the mailbox
    and the budget are concerned. *)
Inductive reachable : t -> Prop :=
  | reachable_init humans g : reachable (init humans g)
  | reachable_register self d now ms score_fn :
      reachable self ->
      reachable (register_new_messages d now ms score_fn self).2
  | reachable_cleanup self now :
      reachable self -> reachable (cleanup_global_mailbox self now).

(** C1.  Under GAEN, in every state of a run the count of a day is at most
    [ceil(MESSAGE_BUDGET_GAEN * n_people)]; a send decision taken when the
    count of the day has reached [MESSAGE_BUDGET_GAEN * n_people] answers no
    and changes nothing; one pass of the loop body leaves the counts as they
    are or, when the message is admitted, adds one to the count of the day.
    Every admitted message is counted: when the decision answers yes, the
    pass returns normally, the count of the day goes up by exactly one, the
    counts of the other days stay and the message is in the mailbox of its
    receiver; when the decision answers no, the counts and the mailboxes
    stay.  Over a whole batch the count of the day grows by exactly the
    number of messages that the mailboxes gain. *)
Theorem budget_never_exceeds_quota :
  Conf.USE_GAEN conf = true ->
  (forall self, reachable self ->
     forall d n, sent_messages_by_day self !! d = Some n -> Z.of_nat n <= quota)
  /\ (forall self d now human score,
        (Conf.MESSAGE_BUDGET_GAEN conf * inject_Z (Conf.n_people conf)
         <= inject_Z (Z.of_nat (sent_on self d)))%Q ->
        _check_should_send_message_gaen d now human score self = (inr false, self))
  /\ (forall self d now scores msg,
        let self' := (send_update_message d now scores msg self).2 in
        sent_messages_by_day self' = sent_messages_by_day self
        \/ (sent_on self' d = S (sent_on self d)
            /\ (forall d', d' <> d -> sent_on self' d' = sent_on self d')
            /\ exists src score self1,
                 hd self !! UpdateMessage._sender_uid msg = Some src
                 /\ _check_should_send_message_gaen d now src score self
                    = (inr true, self1)))
  /\ (forall self d now scores msg src dst score self1,
        hd self !! UpdateMessage._sender_uid msg = Some src ->
        hd self !! UpdateMessage._receiver_uid msg = Some dst ->
        scores !! UpdateMessage._sender_uid msg = Some score ->
        _check_should_send_message_gaen d now src score self = (inr true, self1) ->
        let r := send_update_message d now scores msg self in
        r.1 = inr tt
        /\ sent_on r.2 d = S (sent_on self d)
        /\ (forall d', d' <> d -> sent_on r.2 d' = sent_on self d')
        /\ mailbox_size r.2 = S (mailbox_size self)
        /\ in_global_mailbox (global_mailbox r.2) (Human.name dst)
             (UpdateMessage.uid msg) msg)
  /\ (forall self d now scores msg src dst score self1,
        hd self !! UpdateMessage._sender_uid msg = Some src ->
        hd self !! UpdateMessage._receiver_uid msg = Some dst ->
        scores !! UpdateMessage._sender_uid msg = Some score ->
        _check_should_send_message_gaen d now src score self = (inr false, self1) ->
        let r := send_update_message d now scores msg self in
        r.1 = inr tt
        /\ sent_messages_by_day r.2 = sent_messages_by_day self
        /\ global_mailbox r.2 = global_mailbox self)
  /\ (forall self d now ms score_fn,
        let self' := (register_new_messages d now ms score_fn self).2 in
        (mailbox_size self' + sent_on self d
         = mailbox_size self + sent_on self' d)%nat).
Proof.
  intros Hgaen. split; [|split; [|split; [|split; [|split]]]].
  - intros self Hreach. change (within_budget self).
    induction Hreach as [humans g | self d now ms score_fn _ IH | self now _ IH].
    + intros d n Hn. simpl in Hn. by rewrite lookup_empty in Hn.
    + by apply register_new_messages_within_budget.
    + exact IH.
  - intros self d now human score Hle. apply check_budget_spent.
    unfold budget_spent. fold (sent_on self d). by apply Qle_bool_iff.
  - intros self d now scores msg. simpl.
    destruct (send_update_message_outcome d now scores msg self Hgaen)
      as [e self1 (_ & _ & _ & Hs & _)
         | src dst score self1 _ _ _ Hcheck
         | src dst score self1 Hsrc _ _ Hcheck].
    + by left.
    + pose proof (check_frame d now src score self) as Hf.
      rewrite Hcheck in Hf. simpl in Hf. destruct Hf as (_ & _ & _ & Hs & _). by left.
    + pose proof (check_frame d now src score self) as Hf.
      rewrite Hcheck in Hf. simpl in Hf. destruct Hf as (_ & _ & _ & Hs & _). simpl in Hs.
      destruct (deliver_update_message_run d now src dst msg self1)
        as (self2 & -> & Hd & Hother & _).
      right. simpl. unfold sent_on in *. rewrite Hd, Hs. simpl.
      split; [done|]. split; [|by eauto].
      intros d' Hne. by rewrite Hother, Hs.
  - intros self d now scores msg src dst score self1 Hsrc Hdst Hsc Hcheck r.
    unfold r. clear r.
    rewrite (send_update_message_run _ _ _ _ _ src dst score) by done.
    rewrite Hcheck.
    pose proof (check_frame d now src score self) as Hf.
    rewrite Hcheck in Hf. simpl in Hf. destruct Hf as (_ & _ & _ & Hs & Hmb).
    rewrite deliver_update_message_counted.
    destruct (deliver_update_message_run d now src dst msg self1)
      as (self2 & -> & Hd & Hother & _ & Hmb2 & _).
    simpl. split; [done|]. split.
    { unfold sent_on at 1. rewrite Hd. simpl. unfold sent_on. by rewrite Hs. }
    split.
    { intros d' Hne. unfold sent_on. by rewrite Hother, Hs. }
    split.
    { unfold mailbox_size. by rewrite Hmb. }
    unfold in_global_mailbox. rewrite Hmb2, lookup_insert_eq.
    eexists. split; [done|]. apply in_append_message. by right.
  - intros self d now scores msg src dst score self1 Hsrc Hdst Hsc Hcheck r.
    unfold r. clear r.
    rewrite (send_update_message_run _ _ _ _ _ src dst score) by done.
    rewrite Hcheck.
    pose proof (check_frame d now src score self) as Hf.
    rewrite Hcheck in Hf. simpl in Hf. destruct Hf as (_ & _ & _ & Hs & Hmb).
    done.
  - intros self d now ms score_fn.
    by apply register_new_messages_counted.
Qed.

(** C2.  The send decision answers no, and changes nothing, during the
    burn-in ([current_day_idx - INTERVENTION_DAY < BURN_IN_DAYS]) and when
    the last update of the human is less than [DAYS_BETWEEN_MESSAGES] days
    old.  With a burn-in of 2 days and the intervention on day 5, day 6 is
    rejected and on day 7 the burn-in guard is no longer taken. *)
Theorem gaen_burn_in_and_cooldown :
  (forall d now human score self,
     d - Conf.INTERVENTION_DAY conf < Conf.BURN_IN_DAYS conf ->
     _check_should_send_message_gaen d now human score self = (inr false, self))
  /\ (forall d now human score self,
        DateTime.sub now (Human.latest_update_time human)
        < Conf.DAYS_BETWEEN_MESSAGES conf * DateTime.us_per_day ->
        _check_should_send_message_gaen d now human score self = (inr false, self))
  /\ (Conf.BURN_IN_DAYS conf = 2 -> Conf.INTERVENTION_DAY conf = 5 ->
      (forall now human score self,
         _check_should_send_message_gaen 6 now human score self = (inr false, self))
      /\ in_burn_in 7 = false).
Proof.
  split; [|split].
  - intros d now human score self Hd. apply check_burn_in.
    unfold in_burn_in. by apply Z.ltb_lt.
  - intros d now human score self Hd. apply check_sent_recently.
    unfold sent_recently, DateTime.sub_days. apply Z.ltb_lt.
    apply Z.div_lt_upper_bound; [done|]. lia.
  - intros Hb Hi. split.
    + intros now human score self. apply check_burn_in.
      unfold in_burn_in. rewrite Hb, Hi. reflexivity.
    + unfold in_burn_in. rewrite Hb, Hi. reflexivity.
Qed.

(** *** The histogram *)

Lemma count_score_fold (scores : list Z) :
  forall (histogram : gmap Z nat) (s : Z),
    default 0%nat (foldl count_score histogram scores !! s)
    = (default 0%nat (histogram !! s)
       + length (filter (fun x => x = s) scores))%nat.
Proof.
  induction scores as [|x scores IH]; intros histogram s; simpl; [lia|].
  rewrite IH. unfold count_score at 1.
  destruct (decide (x = s)) as [->|Hne].
  - rewrite lookup_insert_eq, filter_cons_True by done. simpl. lia.
  - rewrite lookup_insert_ne, filter_cons_False by done. lia.
Qed.

Lemma keys_of_tagged {A B : Type} (f : A -> B) (l : list A) :
  ((fun h => (h, f h)) <$> l).*1 = l.
Proof. induction l as [|x l IH]; simpl; [done | f_equal; apply IH]. Qed.

Lemma values_of_tagged {A B : Type} (f : A -> B) (l : list A) :
  ((fun h => (h, f h)) <$> l).*2 = f <$> l.
Proof. induction l as [|x l IH]; simpl; [done | f_equal; apply IH]. Qed.

Lemma updater_scores_of_values ms score_fn :
  (map_to_list (updater_scores_of ms score_fn)).*2
  ≡ₚ score_fn <$> elements (list_to_set (C := gset Z)
                              (UpdateMessage._sender_uid <$> ms)).
Proof.
  unfold updater_scores_of.
  set (X := list_to_set (C := gset Z) (UpdateMessage._sender_uid <$> ms)).
  rewrite map_to_list_to_map.
  - by rewrite values_of_tagged.
  - rewrite keys_of_tagged. apply NoDup_elements.
Qed.

Lemma updater_scores_of_size ms score_fn :
  size (updater_scores_of ms score_fn)
  = size (list_to_set (C := gset Z) (UpdateMessage._sender_uid <$> ms)).
Proof.
  unfold updater_scores_of.
  set (X := list_to_set (C := gset Z) (UpdateMessage._sender_uid <$> ms)).
  rewrite map_size_list_to_map.
  - by rewrite length_fmap.
  - rewrite keys_of_tagged. apply NoDup_elements.
Qed.

Lemma send_update_message_histogram d now scores msg self :
  Conf.USE_GAEN conf = true ->
  let self' := (send_update_message d now scores msg self).2 in
  risk_change_histogram self' = risk_change_histogram self
  /\ risk_change_histogram_sum self' = risk_change_histogram_sum self.
Proof.
  intros Hgaen. simpl.
  destruct (send_update_message_outcome d now scores msg self Hgaen)
    as [e self1 (_ & Hh & Hs & _)
       | src dst score self1 _ _ _ Hcheck
       | src dst score self1 _ _ _ Hcheck].
  - done.
  - pose proof (check_frame d now src score self) as Hf.
    rewrite Hcheck in Hf. simpl in Hf. by destruct Hf as (_ & Hh & Hs & _).
  - pose proof (check_frame d now src score self) as Hf.
    rewrite Hcheck in Hf. simpl in Hf. destruct Hf as (_ & Hh & Hs & _).
    destruct (deliver_update_message_run d now src dst msg self1)
      as (self2 & -> & _ & _ & _ & _ & Hh2 & Hs2 & _).
    simpl. split; congruence.
Qed.

(** C3 (as amended).  Under GAEN, [register_new_messages] first counts
    every distinct sender of the batch in the histogram, one in the bucket of
    its score and one in the running total, whether or not its messages are
    then admitted; the loop over the messages never touches the histogram.
    A rejected message leaves the times of last update, the counters and the
    mailboxes as they are.  An admitted message sets the time of last update
    of its sender to the current timestamp: the code writes the later of the
    previous value and the current timestamp, and when
    [DAYS_BETWEEN_MESSAGES] is not negative the previous value of an admitted
    sender is not later than the current timestamp, so that the time written
    is the instant of the current timestamp. *)
Theorem register_new_messages_effects :
  Conf.USE_GAEN conf = true ->
  (forall d now ms score_fn self,
     (forall m, m ∈ ms -> is_Some (hd self !! UpdateMessage._sender_uid m)) ->
     let senders : gset Z := list_to_set (UpdateMessage._sender_uid <$> ms) in
     let self' := (register_new_messages d now ms score_fn self).2 in
     risk_change_histogram_sum self'
     = (risk_change_histogram_sum self + size senders)%nat
     /\ forall s,
          default 0%nat (risk_change_histogram self' !! s)
          = (default 0%nat (risk_change_histogram self !! s)
             + length (filter (fun x => x = s) (score_fn <$> elements senders)))%nat)
  /\ (forall d now scores msg self,
        let self' := (send_update_message d now scores msg self).2 in
        risk_change_histogram self' = risk_change_histogram self
        /\ risk_change_histogram_sum self' = risk_change_histogram_sum self)
  /\ (forall d now scores msg self src dst score self1,
        hd self !! UpdateMessage._sender_uid msg = Some src ->
        hd self !! UpdateMessage._receiver_uid msg = Some dst ->
        scores !! UpdateMessage._sender_uid msg = Some score ->
        _check_should_send_message_gaen d now src score self = (inr false, self1) ->
        send_update_message d now scores msg self = (inr tt, self1)
        /\ same_but_rng self self1)
  /\ (forall d now scores msg self src dst score self1,
        hd self !! UpdateMessage._sender_uid msg = Some src ->
        hd self !! UpdateMessage._receiver_uid msg = Some dst ->
        scores !! UpdateMessage._sender_uid msg = Some score ->
        _check_should_send_message_gaen d now src score self = (inr true, self1) ->
        exists self2,
          send_update_message d now scores msg self = (inr tt, self2)
          /\ hd self2 =
               <[UpdateMessage._sender_uid msg :=
                   Human.mk (Human.name src)
                     (DateTime.max_dt (Human.latest_update_time src) now)]>
                 (hd self)
          /\ (DateTime.to_us (Human.latest_update_time src) < DateTime.to_us now ->
              DateTime.max_dt (Human.latest_update_time src) now = now)
          /\ (0 <= Conf.DAYS_BETWEEN_MESSAGES conf ->
              DateTime.to_us (Human.latest_update_time src) <= DateTime.to_us now
              /\ DateTime.to_us
                   (DateTime.max_dt (Human.latest_update_time src) now)
                 = DateTime.to_us now)
          /\ sent_on self2 d = S (sent_on self d)
          /\ in_global_mailbox (global_mailbox self2) (Human.name dst)
               (UpdateMessage.uid msg) msg).
Proof.
  intros Hgaen. split; [|split; [|split]].
  - intros d now ms score_fn self Hall senders self'.
    destruct (register_new_messages_run d now ms score_fn self Hgaen)
      as [[_ Hno] | [_ Hrun]]; [done|].
    assert (Hloop : risk_change_histogram self'
                    = risk_change_histogram
                        (with_updated_histogram self (updater_scores_of ms score_fn))
                    /\ risk_change_histogram_sum self'
                       = risk_change_histogram_sum
                           (with_updated_histogram self
                              (updater_scores_of ms score_fn))).
    { unfold self'. rewrite Hrun.
      apply (for_each_inv
               (fun s => risk_change_histogram s
                         = risk_change_histogram
                             (with_updated_histogram self
                                (updater_scores_of ms score_fn))
                         /\ risk_change_histogram_sum s
                            = risk_change_histogram_sum
                                (with_updated_histogram self
                                   (updater_scores_of ms score_fn)))); [|done].
      intros msg s [Hh Hs].
      destruct (send_update_message_histogram d now
                  (updater_scores_of ms score_fn) msg s Hgaen) as [Hh' Hs'].
      split; congruence. }
    destruct Hloop as [-> ->]. simpl. split.
    + by rewrite updater_scores_of_size.
    + intros s. rewrite count_score_fold. f_equal.
      by rewrite updater_scores_of_values.
  - intros d now scores msg self. by apply send_update_message_histogram.
  - intros d now scores msg self src dst score self1 Hsrc Hdst Hsc Hcheck.
    rewrite (send_update_message_run _ _ _ _ _ src dst score) by done.
    rewrite Hcheck. split; [done|].
    pose proof (check_frame d now src score self) as Hf. by rewrite Hcheck in Hf.
  - intros d now scores msg self src dst score self1 Hsrc Hdst Hsc Hcheck.
    rewrite (send_update_message_run _ _ _ _ _ src dst score) by done.
    rewrite Hcheck.
    pose proof (check_frame d now src score self) as Hf.
    rewrite Hcheck in Hf. simpl in Hf. destruct Hf as (Hhd & _ & _ & Hs & _).
    destruct (deliver_update_message_run d now src dst msg self1)
      as (self2 & -> & Hd & _ & Hhd2 & Hmb & _).
    exists self2. split; [done|]. split; [by rewrite Hhd2, Hhd|].
    split; [|split; [|split]].
    + intros Hlt. unfold DateTime.max_dt.
      by rewrite (proj2 (Z.ltb_lt _ _) Hlt).
    + intros Hdays.
      destruct (check_true_budget _ _ _ _ _ _ Hcheck) as (_ & Hrecent & _).
      unfold sent_recently in Hrecent. apply Z.ltb_ge in Hrecent.
      assert (Hle : DateTime.to_us (Human.latest_update_time src)
                    <= DateTime.to_us now).
      { unfold DateTime.sub_days, DateTime.sub in Hrecent.
        destruct (Z.lt_ge_cases (DateTime.to_us now)
                    (DateTime.to_us (Human.latest_update_time src)))
          as [Hlt | Hge]; [|lia].
        assert (Hneg : (DateTime.to_us now
                        - DateTime.to_us (Human.latest_update_time src))
                       / DateTime.us_per_day < 0).
        { apply Z.div_lt_upper_bound; unfold DateTime.us_per_day; lia. }
        lia. }
      split; [exact Hle|].
      unfold DateTime.max_dt.
      destruct (Z.ltb_spec (DateTime.to_us (Human.latest_update_time src))
                  (DateTime.to_us now)); lia.
    + unfold sent_on in *. by rewrite Hd, Hs.
    + unfold in_global_mailbox. rewrite Hmb, lookup_insert_eq.
      eexists. split; [done|]. apply in_append_message. by right.
Qed.

(** ** More on [cleanup_global_mailbox] *)

(** What is left of a list of messages: the recent ones in their order, or
    no key at all when none is recent. *)
Definition kept (now : DateTime.datetime) (messages : list UpdateMessage.t)
  : option (list UpdateMessage.t) :=
  match filter (fun m => recent now m = true) messages with
  | [] => None
  | l => Some l
  end.

Lemma cleanup_messages_exact now k (messages : list UpdateMessage.t) :
  forall mailbox : gmap Z (list UpdateMessage.t),
    foldl (fun new_personal_mailbox message =>
             if recent now message
             then append_message k message new_personal_mailbox
             else new_personal_mailbox) mailbox messages
    = match filter (fun m => recent now m = true) messages with
      | [] => mailbox
      | l => <[k := default [] (mailbox !! k) ++ l]> mailbox
      end.
Proof.
  induction messages as [|m messages IH]; intros mailbox; simpl; [done|].
  rewrite IH. destruct (recent now m) eqn:Hm.
  - rewrite filter_cons_True by done. rewrite append_message_insert.
    destruct (filter _ messages) as [|m' l]; [done|].
    rewrite lookup_insert_eq, insert_insert_eq. simpl.
    by rewrite <- app_assoc.
  - rewrite filter_cons_False by congruence. done.
Qed.

Lemma cleanup_items_lookup now (items : list (Z * list UpdateMessage.t)) :
  forall (mailbox : gmap Z (list UpdateMessage.t)) (k' : Z),
    NoDup items.*1 ->
    foldl (fun new_personal_mailbox '(mailbox_key, messages) =>
             foldl (fun new_personal_mailbox message =>
                      if recent now message
                      then append_message mailbox_key message new_personal_mailbox
                      else new_personal_mailbox)
                   new_personal_mailbox messages) mailbox items !! k'
    = match (list_to_map items : gmap Z (list UpdateMessage.t)) !! k' with
      | Some messages =>
          match filter (fun m => recent now m = true) messages with
          | [] => mailbox !! k'
          | l => Some (default [] (mailbox !! k') ++ l)
          end
      | None => mailbox !! k'
      end.
Proof.
  induction items as [|[k messages] items IH]; intros mailbox k' Hnd; simpl.
  - by rewrite lookup_empty.
  - apply NoDup_cons in Hnd as [Hk Hnd]. rewrite IH by done.
    rewrite cleanup_messages_exact.
    destruct (decide (k = k')) as [->|Hne].
    + rewrite (proj1 (not_elem_of_list_to_map _ _) Hk), lookup_insert_eq.
      destruct (filter _ messages); [done|]. by rewrite lookup_insert_eq.
    + rewrite (lookup_insert_ne _ k k') by done.
      assert (Hsame :
        match filter (fun m => recent now m = true) messages with
        | [] => mailbox
        | l => <[k := default [] (mailbox !! k) ++ l]> mailbox
        end !! k' = mailbox !! k').
      { destruct (filter _ messages); [done|]. by rewrite lookup_insert_ne. }
      by rewrite Hsame.
Qed.

Lemma cleanup_personal_mailbox_lookup now
    (mailbox : gmap Z (list UpdateMessage.t)) (k : Z) :
  cleanup_personal_mailbox now mailbox !! k = mailbox !! k ≫= kept now.
Proof.
  unfold cleanup_personal_mailbox.
  rewrite cleanup_items_lookup by apply NoDup_fst_map_to_list.
  rewrite list_to_map_to_list, lookup_empty.
  destruct (mailbox !! k) as [messages|]; simpl; [|done].
  unfold kept. by destruct (filter _ messages).
Qed.

Lemma kept_kept now (messages l : list UpdateMessage.t) :
  kept now messages = Some l -> kept now l = Some l.
Proof.
  unfold kept. intros Hk.
  assert (Hl : l = filter (fun m => recent now m = true) messages).
  { destruct (filter _ messages); [done | congruence]. }
  assert (Hidem : filter (fun m => recent now m = true) l = l).
  { rewrite Hl. clear. induction messages as [|m messages IH]; [done|].
    destruct (recent now m) eqn:Hm.
    - rewrite filter_cons_True by done. rewrite filter_cons_True by done.
      by rewrite IH.
    - by rewrite filter_cons_False by congruence. }
  rewrite Hidem. destruct l; [|done].
  destruct (filter _ messages); done.
Qed.

(** X13.  The clean-up keeps a personal mailbox for every user, possibly an empty
    one; under each key it keeps the recent messages in their order and it
    drops the key when none is recent.  Cleaning twice at the same time is
    cleaning once. *)
Lemma cleanup_global_mailbox_exact (self : t) (now : DateTime.datetime) :
  (forall u,
     global_mailbox (cleanup_global_mailbox self now) !! u
     = cleanup_personal_mailbox now <$> global_mailbox self !! u)
  /\ (forall (mailbox : gmap Z (list UpdateMessage.t)) k,
        cleanup_personal_mailbox now mailbox !! k = mailbox !! k ≫= kept now)
  /\ dom (global_mailbox (cleanup_global_mailbox self now))
     = dom (global_mailbox self)
  /\ cleanup_global_mailbox (cleanup_global_mailbox self now) now
     = cleanup_global_mailbox self now.
Proof.
  split; [apply cleanup_global_mailbox_lookup|].
  split; [apply cleanup_personal_mailbox_lookup|].
  split.
  - apply set_eq. intros u. rewrite !elem_of_dom, cleanup_global_mailbox_lookup.
    by rewrite fmap_is_Some.
  - assert (Hgm : global_mailbox (cleanup_global_mailbox
                                    (cleanup_global_mailbox self now) now)
                  = global_mailbox (cleanup_global_mailbox self now)).
    { apply map_eq. intros u. rewrite !cleanup_global_mailbox_lookup.
      destruct (global_mailbox self !! u) as [mailbox|]; simpl; [|done].
      f_equal. apply map_eq. intros k.
      rewrite !cleanup_personal_mailbox_lookup.
      destruct (mailbox !! k) as [messages|]; simpl; [|done].
      destruct (kept now messages) as [l|] eqn:Hk; simpl; [|done].
      by apply (kept_kept now messages). }
    unfold cleanup_global_mailbox at 1 3.
    unfold cleanup_global_mailbox at 1 in Hgm. simpl in Hgm.
    unfold set_global_mailbox. simpl. by rewrite Hgm.
Qed.

(** ** More on [register_new_messages] *)

Lemma lookup_senders_unknown (humans : gmap Z Human.t)
    (ms : list UpdateMessage.t) (self : t) (m : UpdateMessage.t) :
  m ∈ ms ->
  humans !! UpdateMessage._sender_uid m = None ->
  for_each ms
    (fun m => let* _ := getitem humans (UpdateMessage._sender_uid m) in ret tt) self
  = (inl KeyError, self).
Proof.
  induction ms as [|m0 ms IH]; intros Hin Hm; [by apply elem_of_nil in Hin|].
  simpl. unfold bind at 1. unfold bind at 1. unfold getitem at 1.
  destruct (humans !! UpdateMessage._sender_uid m0) as [h|] eqn:Hm0; simpl.
  - apply elem_of_cons in Hin as [-> | Hin]; [congruence|]. by apply IH.
  - done.
Qed.

(** X14.  A batch with a message whose sender is not a human of the city raises
    [KeyError] before anything is changed, with or without GAEN. *)
Lemma register_new_messages_unknown_sender d now ms score_fn self m :
  m ∈ ms ->
  hd self !! UpdateMessage._sender_uid m = None ->
  register_new_messages d now ms score_fn self = (inl KeyError, self).
Proof.
  intros Hin Hm. unfold register_new_messages.
  unfold bind at 1. unfold get. simpl. unfold bind at 1.
  by rewrite (lookup_senders_unknown (hd self) ms self m).
Qed.

(** One pass of the loop body either leaves everything but the generator, or
    delivers the message from a state that differs by the generator only. *)
Lemma send_update_message_shape d now scores msg self :
  let r := send_update_message d now scores msg self in
  same_but_rng self r.2
  \/ exists src dst self1,
       hd self !! UpdateMessage._sender_uid msg = Some src
       /\ hd self !! UpdateMessage._receiver_uid msg = Some dst
       /\ same_but_rng self self1
       /\ r = deliver_update_message d now src dst msg self1.
Proof.
  intros r.
  assert (H : exists r',
    r = r'
    /\ (same_but_rng self r'.2
        \/ exists src dst self1,
             hd self !! UpdateMessage._sender_uid msg = Some src
             /\ hd self !! UpdateMessage._receiver_uid msg = Some dst
             /\ same_but_rng self self1
             /\ r' = deliver_update_message d now src dst msg self1)).
  { unfold r, send_update_message.
    unfold bind at 1. unfold get. simpl.
    unfold bind at 1. unfold getitem at 1.
    destruct (hd self !! UpdateMessage._sender_uid msg) as [src|] eqn:Hsrc;
      [|eexists; split; [reflexivity|]; left; apply same_but_rng_refl].
    simpl. unfold bind at 1. unfold getitem at 1.
    destruct (hd self !! UpdateMessage._receiver_uid msg) as [dst|] eqn:Hdst;
      [|eexists; split; [reflexivity|]; left; apply same_but_rng_refl].
    simpl. unfold bind at 1.
    destruct (Conf.USE_GAEN conf).
    - unfold bind at 1. unfold getitem at 1.
      destruct (scores !! UpdateMessage._sender_uid msg) as [score|] eqn:Hsc;
        [|eexists; split; [reflexivity|]; left; apply same_but_rng_refl].
      simpl.
      pose proof (check_frame d now src score self) as Hframe.
      destruct (_check_should_send_message_gaen d now src score self)
        as [[e|[|]] self1]; simpl in *.
      + eexists. split; [reflexivity|]. by left.
      + eexists. split; [reflexivity|]. right.
        exists src, dst, self1. split; [done|]. split; [done|].
        split; [exact Hframe | reflexivity].
      + eexists. split; [reflexivity|]. by left.
    - eexists. split; [reflexivity|]. right.
      exists src, dst, self. split; [done|]. split; [done|].
      split; [apply same_but_rng_refl | reflexivity]. }
  destruct H as (r' & Hr & H). by rewrite Hr.
Qed.

(** How a state may follow another on day [d]: the same humans under the
    same names, no time of last update moved backwards, no counter of
    another day changed, the counter of the day not lowered, the histogram
    kept. *)
Definition follows (d : Z) (self self' : t) : Prop :=
  (forall u, Human.name <$> hd self' !! u = Human.name <$> hd self !! u)
  /\ (forall u h h', hd self !! u = Some h -> hd self' !! u = Some h' ->
        DateTime.to_us (Human.latest_update_time h)
        <= DateTime.to_us (Human.latest_update_time h'))
  /\ (forall d', d' <> d -> sent_on self' d' = sent_on self d')
  /\ (sent_on self d <= sent_on self' d)%nat
  /\ risk_change_histogram self' = risk_change_histogram self
  /\ risk_change_histogram_sum self' = risk_change_histogram_sum self.

Lemma follows_refl d self : follows d self self.
Proof.
  repeat split; try done.
  intros u h h' Hh Hh'. rewrite Hh in Hh'. injection Hh' as <-. lia.
Qed.

Lemma follows_trans d s1 s2 s3 : follows d s1 s2 -> follows d s2 s3 -> follows d s1 s3.
Proof.
  intros (Hn1 & Ht1 & Hd1 & Hc1 & Hh1 & Hs1) (Hn2 & Ht2 & Hd2 & Hc2 & Hh2 & Hs2).
  split; [intros u; by rewrite Hn2, Hn1|].
  split; [|split; [|split; [lia|split; congruence]]].
  - intros u h h3 Hh Hh3.
    destruct (hd s2 !! u) as [h2|] eqn:Hh2'.
    + specialize (Ht1 u h h2 Hh Hh2'). specialize (Ht2 u h2 h3 Hh2' Hh3). lia.
    + specialize (Hn1 u). rewrite Hh2', Hh in Hn1. done.
  - intros d' Hne. by rewrite Hd2, Hd1.
Qed.

Lemma same_but_rng_follows d self self' : same_but_rng self self' -> follows d self self'.
Proof.
  intros (Hhd & Hh & Hs & Hsent & _). unfold follows, sent_on.
  rewrite Hhd, Hh, Hs, Hsent. apply follows_refl.
Qed.

Lemma max_dt_ge a b : DateTime.to_us a <= DateTime.to_us (DateTime.max_dt a b).
Proof. unfold DateTime.max_dt. destruct (Z.ltb_spec (DateTime.to_us a) (DateTime.to_us b)); lia. Qed.

Lemma max_dt_ge_r a b : DateTime.to_us b <= DateTime.to_us (DateTime.max_dt a b).
Proof. unfold DateTime.max_dt. destruct (Z.ltb_spec (DateTime.to_us a) (DateTime.to_us b)); lia. Qed.

Lemma deliver_update_message_follows d now src dst msg self :
  hd self !! UpdateMessage._sender_uid msg = Some src ->
  follows d self (deliver_update_message d now src dst msg self).2
  /\ sent_on (deliver_update_message d now src dst msg self).2 d
     = S (sent_on self d).
Proof.
  intros Hsrc.
  destruct (deliver_update_message_run d now src dst msg self)
    as (self' & -> & Hd & Hother & Hhd & _ & Hh & Hs & _).
  simpl.
  assert (Hc : sent_on self' d = S (sent_on self d)).
  { unfold sent_on at 1. by rewrite Hd. }
  split; [|done]. unfold follows. rewrite Hhd, Hh, Hs, Hc.
  split; [|split; [|split; [|split; [lia | done]]]].
  - intros u. destruct (decide (UpdateMessage._sender_uid msg = u)) as [<-|Hne].
    + by rewrite lookup_insert_eq, Hsrc.
    + by rewrite lookup_insert_ne.
  - intros u h h' Hh0 Hh'.
    destruct (decide (UpdateMessage._sender_uid msg = u)) as [<-|Hne].
    + rewrite lookup_insert_eq in Hh'. injection Hh' as <-.
      rewrite Hsrc in Hh0. injection Hh0 as <-. simpl. apply max_dt_ge.
    + rewrite lookup_insert_ne in Hh' by done.
      rewrite Hh0 in Hh'. injection Hh' as <-. lia.
  - intros d' Hne. unfold sent_on. by rewrite Hother.
Qed.

Lemma send_update_message_follows d now scores msg self :
  follows d self (send_update_message d now scores msg self).2
  /\ (sent_on (send_update_message d now scores msg self).2 d
      <= S (sent_on self d))%nat.
Proof.
  destruct (send_update_message_shape d now scores msg self)
    as [Hsame | (src & dst & self1 & Hsrc & _ & Hsame & ->)].
  - split; [by apply same_but_rng_follows|].
    destruct Hsame as (_ & _ & _ & Hsent & _). unfold sent_on. rewrite Hsent. lia.
  - pose proof Hsame as (Hhd & _ & _ & Hsent & _).
    rewrite <- Hhd in Hsrc.
    destruct (deliver_update_message_follows d now src dst msg self1 Hsrc)
      as [Hf Hc].
    split.
    + eapply follows_trans; [by apply same_but_rng_follows | exact Hf].
    + rewrite Hc. unfold sent_on. rewrite Hsent. lia.
Qed.

Lemma for_each_send_follows d now scores (ms : list UpdateMessage.t) :
  forall self,
    follows d self (for_each ms (send_update_message d now scores) self).2
    /\ (sent_on (for_each ms (send_update_message d now scores) self).2 d
        <= sent_on self d + length ms)%nat.
Proof.
  induction ms as [|m ms IH]; intros self; simpl.
  - split; [apply follows_refl | lia].
  - unfold bind.
    destruct (send_update_message_follows d now scores m self) as [Hf Hc].
    destruct (send_update_message d now scores m self) as [[e|[]] self1];
      simpl in *.
    + split; [done | lia].
    + destruct (IH self1) as [Hf' Hc'].
      split; [by eapply follows_trans | lia].
Qed.

Lemma register_new_messages_unfold d now ms score_fn self :
  register_new_messages d now ms score_fn self
  = match for_each ms
            (fun m => let* _ := getitem (hd self) (UpdateMessage._sender_uid m) in
                      ret tt) self with
    | (inl e, self1) => (inl e, self1)
    | (inr _, self1) =>
        match (if Conf.USE_GAEN conf
               then update_histogram (updater_scores_of ms score_fn)
               else ret tt) self1 with
        | (inl e, self2) => (inl e, self2)
        | (inr _, self2) =>
            for_each ms
              (send_update_message d now (updater_scores_of ms score_fn)) self2
        end
    end.
Proof. reflexivity. Qed.

(** X15.  A batch on day [d], with or without GAEN: the humans of the city stay
    the same, no time of last update moves backwards, the counters of the
    other days are untouched, and the counter of the day grows by at most the
    number of messages of the batch. *)
Lemma register_new_messages_follows d now ms score_fn self :
  let self' := (register_new_messages d now ms score_fn self).2 in
  (forall u, Human.name <$> hd self' !! u = Human.name <$> hd self !! u)
  /\ (forall u h h', hd self !! u = Some h -> hd self' !! u = Some h' ->
        DateTime.to_us (Human.latest_update_time h)
        <= DateTime.to_us (Human.latest_update_time h'))
  /\ (forall d', d' <> d -> sent_on self' d' = sent_on self d')
  /\ (sent_on self d <= sent_on self' d <= sent_on self d + length ms)%nat.
Proof.
  intros self'. unfold self'. rewrite register_new_messages_unfold.
  destruct (lookup_senders_run (hd self) ms self) as [Hst _]. simpl in Hst.
  destruct (for_each ms _ self) as [[e|[]] self1]; simpl in *; subst self1.
  { destruct (follows_refl d self) as (H1 & H2 & H3 & H4 & _).
    split; [done|]. split; [done|]. split; [done | lia]. }
  assert (Hstep : exists self1,
            (if Conf.USE_GAEN conf
             then update_histogram (updater_scores_of ms score_fn)
             else ret tt) self = (inr tt, self1)
            /\ hd self1 = hd self
            /\ sent_messages_by_day self1 = sent_messages_by_day self).
  { destruct (Conf.USE_GAEN conf).
    - eexists. split; [reflexivity | done].
    - eexists. split; [reflexivity | done]. }
  destruct Hstep as (self1 & -> & Hhd1 & Hsent1).
  destruct (for_each_send_follows d now (updater_scores_of ms score_fn) ms self1)
    as [(H1 & H2 & H3 & H4 & _) H5].
  unfold sent_on in *. rewrite Hhd1, Hsent1 in *.
  split; [done|]. split; [done|]. split; [done | lia].
Qed.

(** ** Without GAEN nothing is filtered *)

Lemma deliver_update_message_mailbox d now src dst msg self :
  let self' := (deliver_update_message d now src dst msg self).2 in
  in_global_mailbox (global_mailbox self') (Human.name dst)
    (UpdateMessage.uid msg) msg
  /\ (forall u k m, in_global_mailbox (global_mailbox self) u k m ->
                    in_global_mailbox (global_mailbox self') u k m).
Proof.
  destruct (deliver_update_message_run d now src dst msg self)
    as (self' & -> & _ & _ & _ & Hmb & _).
  simpl. unfold in_global_mailbox. rewrite Hmb. split.
  - rewrite lookup_insert_eq. eexists. split; [done|].
    apply in_append_message. by right.
  - intros u k m (pm & Hpm & Hin).
    destruct (decide (Human.name dst = u)) as [<-|Hne].
    + rewrite lookup_insert_eq. eexists. split; [done|].
      rewrite Hpm. simpl. apply in_append_message. by left.
    + rewrite lookup_insert_ne by done. by exists pm.
Qed.

Lemma send_update_message_no_gaen d now scores msg self src dst :
  Conf.USE_GAEN conf = false ->
  hd self !! UpdateMessage._sender_uid msg = Some src ->
  hd self !! UpdateMessage._receiver_uid msg = Some dst ->
  send_update_message d now scores msg self
  = deliver_update_message d now src dst msg self.
Proof.
  intros Hgaen Hsrc Hdst. unfold send_update_message. rewrite Hgaen.
  unfold bind at 1. unfold get. simpl.
  unfold bind at 1. unfold getitem at 1. rewrite Hsrc. simpl.
  unfold bind at 1. unfold getitem at 1. rewrite Hdst. simpl.
  reflexivity.
Qed.

Lemma for_each_send_no_gaen d now scores (ms : list UpdateMessage.t) :
  Conf.USE_GAEN conf = false ->
  forall self,
    (forall m, m ∈ ms ->
       is_Some (hd self !! UpdateMessage._sender_uid m)
       /\ is_Some (hd self !! UpdateMessage._receiver_uid m)) ->
    exists self',
      for_each ms (send_update_message d now scores) self = (inr tt, self')
      /\ follows d self self'
      /\ sent_on self' d = (sent_on self d + length ms)%nat
      /\ rng self' = rng self
      /\ (forall u k m, in_global_mailbox (global_mailbox self) u k m ->
                        in_global_mailbox (global_mailbox self') u k m)
      /\ (forall m dst, m ∈ ms ->
            hd self !! UpdateMessage._receiver_uid m = Some dst ->
            in_global_mailbox (global_mailbox self') (Human.name dst)
              (UpdateMessage.uid m) m).
Proof.
  intros Hgaen. induction ms as [|m ms IH]; intros self Hknown; simpl.
  - exists self. split; [done|]. split; [apply follows_refl|].
    split; [lia|]. split; [done|]. split; [done|].
    intros m dst Hm. by apply elem_of_nil in Hm.
  - destruct (Hknown m ltac:(left)) as [[src Hsrc] [dst Hdst]].
    unfold bind. rewrite (send_update_message_no_gaen _ _ _ _ _ src dst) by done.
    destruct (deliver_update_message_follows d now src dst m self Hsrc)
      as [Hf Hc].
    destruct (deliver_update_message_mailbox d now src dst m self) as [Hin Hmono].
    destruct (deliver_update_message_run d now src dst m self)
      as (self1 & Hrun & _ & _ & _ & _ & _ & _ & Hrng).
    rewrite Hrun in *. simpl in *.
    pose proof Hf as (Hnames & _).
    assert (Hknown1 : forall m', m' ∈ ms ->
              is_Some (hd self1 !! UpdateMessage._sender_uid m')
              /\ is_Some (hd self1 !! UpdateMessage._receiver_uid m')).
    { intros m' Hm'. destruct (Hknown m' ltac:(by right)) as [Hs Hr].
      split; apply fmap_is_Some with (f := Human.name); rewrite Hnames;
        by apply fmap_is_Some. }
    destruct (IH self1 Hknown1) as (self' & Hrun' & Hf' & Hc' & Hrng' & Hmono' & Hin').
    exists self'. split; [done|]. split; [by eapply follows_trans|].
    split; [lia|]. split; [congruence|]. split; [by auto|].
    intros m' dst' Hm' Hdst'. apply elem_of_cons in Hm' as [-> | Hm'].
    + rewrite Hdst in Hdst'. injection Hdst' as <-. by apply Hmono'.
    + pose proof (Hnames (UpdateMessage._receiver_uid m')) as Hn.
      rewrite Hdst' in Hn. simpl in Hn.
      destruct (hd self1 !! UpdateMessage._receiver_uid m') as [dst1|] eqn:Hd1;
        [|done].
      simpl in Hn. injection Hn as Hn. rewrite <- Hn. by apply Hin'.
Qed.

(** X16.  Without GAEN every message of a batch whose senders and receivers are
    humans of the city is delivered: the call returns normally, each message
    is in the personal mailbox of its receiver under its own uid, what was in
    the mailboxes stays, the counter of the day grows by the number of
    messages, and neither the histogram nor the generator is touched. *)
Lemma register_new_messages_no_gaen d now ms score_fn self :
  Conf.USE_GAEN conf = false ->
  (forall m, m ∈ ms ->
     is_Some (hd self !! UpdateMessage._sender_uid m)
     /\ is_Some (hd self !! UpdateMessage._receiver_uid m)) ->
  exists self',
    register_new_messages d now ms score_fn self = (inr tt, self')
    /\ sent_on self' d = (sent_on self d + length ms)%nat
    /\ risk_change_histogram self' = risk_change_histogram self
    /\ risk_change_histogram_sum self' = risk_change_histogram_sum self
    /\ rng self' = rng self
    /\ (forall u k m, in_global_mailbox (global_mailbox self) u k m ->
                      in_global_mailbox (global_mailbox self') u k m)
    /\ (forall m dst, m ∈ ms ->
          hd self !! UpdateMessage._receiver_uid m = Some dst ->
          in_global_mailbox (global_mailbox self') (Human.name dst)
            (UpdateMessage.uid m) m).
Proof.
  intros Hgaen Hknown. rewrite register_new_messages_unfold, Hgaen.
  destruct (lookup_senders_run (hd self) ms self) as [Hst Hok]. simpl in Hst, Hok.
  destruct (for_each ms _ self) as [[e|[]] self1]; simpl in *; subst self1.
  { assert (Hall : forall m, m ∈ ms ->
                     is_Some (hd self !! UpdateMessage._sender_uid m))
      by (intros m Hm; by destruct (Hknown m Hm)).
    by specialize (Hok Hall). }
  destruct (for_each_send_no_gaen d now (updater_scores_of ms score_fn) ms
              Hgaen self Hknown)
    as (self' & Hrun & (_ & _ & _ & _ & Hh & Hs) & Hc & Hrng & Hmono & Hin).
  exists self'. split; [exact Hrun|]. done.
Qed.

(** ** The errors of the send decision *)

Lemma walk_buckets_returns (scaled_risks : list (Z * Q)) :
  forall summed message_budget score self,
    exists b self',
      walk_buckets scaled_risks summed message_budget score self = (inr b, self').
Proof.
  induction scaled_risks as [|[rc p] rest IH]; intros summed b score self; simpl.
  - by exists false, self.
  - destruct ((score =? rc) && Qlt_bool summed b); [|apply IH].
    destruct (Qlt_bool b (summed + p)); [|by exists true, self].
    unfold bind, get, put. simpl.
    destruct (Qlt_bool _ (b - summed)); [by eexists _, _ | apply IH].
Qed.

(** X18.  The send decision raises in two cases only, both a division by zero met
    after the three guards: [UPDATES_PER_DAY] is 0, or the histogram has
    buckets while its running total is 0.  The state is then untouched. *)
Lemma check_raises d now human score self :
  let r := _check_should_send_message_gaen d now human score self in
  let guards_passed :=
    in_burn_in d = false /\ sent_recently now human = false
    /\ budget_spent self d = false in
  let division_by_zero :=
    Conf.UPDATES_PER_DAY conf = 0
    \/ (risk_change_histogram self <> ∅ /\ risk_change_histogram_sum self = 0%nat) in
  (forall e, r.1 = inl e ->
     e = ZeroDivisionError /\ r.2 = self /\ guards_passed /\ division_by_zero)
  /\ (guards_passed -> division_by_zero -> r = (inl ZeroDivisionError, self)).
Proof.
  intros r guards_passed division_by_zero.
  unfold r, guards_passed, division_by_zero.
  clear r guards_passed division_by_zero.
  destruct (in_burn_in d) eqn:H1.
  { rewrite check_burn_in by done. split; [done | by intros (? & _)]. }
  destruct (sent_recently now human) eqn:H2.
  { rewrite check_sent_recently by done. split; [done | by intros (_ & ? & _)]. }
  destruct (budget_spent self d) eqn:H3.
  { rewrite check_budget_spent by done. split; [done | by intros (_ & _ & ?)]. }
  unfold _check_should_send_message_gaen. rewrite H1, H2.
  unfold bind, get. simpl. rewrite H3.
  destruct (Z.eqb_spec (Conf.UPDATES_PER_DAY conf) 0) as [Hu | Hu].
  { split; [|done]. intros e [= <-]. repeat split; try done. by left. }
  unfold scaled_risks_of.
  destruct (map_to_list (risk_change_histogram self)) as [|kv items] eqn:Hitems.
  { apply map_to_list_empty_iff in Hitems.
    destruct (walk_buckets_returns [] 0%Q
                (inject_Z (Conf.DAYS_BETWEEN_MESSAGES conf)
                 * Conf.MESSAGE_BUDGET_GAEN conf
                 / inject_Z (Conf.UPDATES_PER_DAY conf))%Q score self)
      as (b & self' & Hw).
    simpl in *. split; [done|].
    intros _ [Hz | [Hne _]]; done. }
  assert (Hne : risk_change_histogram self <> ∅).
  { intros Hempty. rewrite Hempty, map_to_list_empty in Hitems. done. }
  destruct (Nat.eqb_spec (risk_change_histogram_sum self) 0) as [Hs | Hs].
  { simpl. split; [|done]. intros e [= <-]. repeat split; try done. by right. }
  simpl.
  match goal with
  | |- context [walk_buckets ?l ?s ?b ?sc ?st] =>
      destruct (walk_buckets_returns l s b sc st) as (b' & self' & ->)
  end.
  simpl. split; [done|]. intros _ [Hz | [_ Hz]]; done.
Qed.

(** ** The histogram and its running total *)

(** The sum of the counts of the histogram. *)
Definition histogram_total (histogram : gmap Z nat) : nat :=
  map_fold (fun _ n acc => (n + acc)%nat) 0%nat histogram.

Lemma histogram_total_insert (histogram : gmap Z nat) s n :
  histogram !! s = None ->
  histogram_total (<[s := n]> histogram) = (n + histogram_total histogram)%nat.
Proof.
  intros Hs. unfold histogram_total.
  apply map_fold_insert_L; [|done]. intros. lia.
Qed.

Lemma histogram_total_count_score (histogram : gmap Z nat) s :
  histogram_total (count_score histogram s) = S (histogram_total histogram).
Proof.
  unfold count_score. destruct (histogram !! s) as [n|] eqn:Hs; simpl.
  - rewrite <- insert_delete_eq.
    rewrite histogram_total_insert by apply lookup_delete_eq.
    unfold histogram_total.
    rewrite (map_fold_delete_L _ _ s n histogram); [lia | intros; lia | done].
  - by rewrite histogram_total_insert.
Qed.

Lemma histogram_total_fold (scores : list Z) :
  forall histogram,
    histogram_total (foldl count_score histogram scores)
    = (histogram_total histogram + length scores)%nat.
Proof.
  induction scores as [|s scores IH]; intros histogram; simpl; [lia|].
  rewrite IH, histogram_total_count_score. lia.
Qed.

Lemma count_score_positive (scores : list Z) :
  forall histogram : gmap Z nat,
    (forall s n, histogram !! s = Some n -> (1 <= n)%nat) ->
    forall s n, foldl count_score histogram scores !! s = Some n -> (1 <= n)%nat.
Proof.
  induction scores as [|x scores IH]; intros histogram Hpos; simpl; [done|].
  apply IH. intros s n. unfold count_score.
  destruct (decide (x = s)) as [->|Hne].
  - rewrite lookup_insert_eq. intros [= <-]. lia.
  - rewrite lookup_insert_ne by done. apply Hpos.
Qed.

Lemma histogram_total_positive (histogram : gmap Z nat) :
  (forall s n, histogram !! s = Some n -> (1 <= n)%nat) ->
  histogram <> ∅ -> (1 <= histogram_total histogram)%nat.
Proof.
  intros Hpos Hne.
  destruct (map_choose histogram Hne) as (s & n & Hs).
  unfold histogram_total.
  rewrite (map_fold_delete_L _ _ s n histogram); [|intros; lia | done].
  specialize (Hpos s n Hs). lia.
Qed.

(** The histogram of a run: every bucket counts at least one, and the
    running total is the sum of the buckets. *)
Definition histogram_ok (self : t) : Prop :=
  (forall s n, risk_change_histogram self !! s = Some n -> (1 <= n)%nat)
  /\ risk_change_histogram_sum self = histogram_total (risk_change_histogram self).

Lemma register_new_messages_histogram_ok d now ms score_fn self :
  histogram_ok self ->
  histogram_ok (register_new_messages d now ms score_fn self).2.
Proof.
  intros [Hpos Hsum]. rewrite register_new_messages_unfold.
  destruct (lookup_senders_run (hd self) ms self) as [Hst _]. simpl in Hst.
  destruct (for_each ms _ self) as [[e|[]] self1]; simpl in *; subst self1;
    [done|].
  assert (Hstep : exists self1,
            (if Conf.USE_GAEN conf
             then update_histogram (updater_scores_of ms score_fn)
             else ret tt) self = (inr tt, self1)
            /\ histogram_ok self1).
  { destruct (Conf.USE_GAEN conf).
    - eexists. split; [reflexivity|]. split; simpl.
      + by apply count_score_positive.
      + rewrite histogram_total_fold, Hsum, length_fmap, length_map_to_list. done.
    - eexists. split; [reflexivity | done]. }
  destruct Hstep as (self1 & -> & [Hpos1 Hsum1]).
  destruct (for_each_send_follows d now (updater_scores_of ms score_fn) ms self1)
    as [(_ & _ & _ & _ & Hh & Hs) _].
  unfold histogram_ok. by rewrite Hh, Hs.
Qed.

(** X19.  In every state of a run, with or without GAEN, the running total of the
    histogram is the sum of its buckets and no bucket is empty; so, unless
    [UPDATES_PER_DAY] is 0, the send decision never raises. *)
Lemma reachable_histogram_ok (self : t) :
  reachable self ->
  risk_change_histogram_sum self = histogram_total (risk_change_histogram self)
  /\ (forall s n, risk_change_histogram self !! s = Some n -> (1 <= n)%nat)
  /\ (Conf.UPDATES_PER_DAY conf <> 0 ->
      forall d now human score,
      exists b self',
        _check_should_send_message_gaen d now human score self = (inr b, self')).
Proof.
  intros Hreach.
  assert (Hok : histogram_ok self).
  { induction Hreach as [humans g | self d now ms score_fn _ IH | self now _ IH].
    - split; [intros s n Hs; simpl in Hs; by rewrite lookup_empty in Hs | done].
    - by apply register_new_messages_histogram_ok.
    - exact IH. }
  destruct Hok as [Hpos Hsum]. split; [done|]. split; [done|].
  intros Hu d now human score.
  unfold _check_should_send_message_gaen.
  destruct (in_burn_in d); [by eexists _, _|].
  destruct (sent_recently now human); [by eexists _, _|].
  unfold bind, get. simpl.
  destruct (budget_spent self d); [by eexists _, _|].
  rewrite (proj2 (Z.eqb_neq _ _) Hu).
  unfold scaled_risks_of.
  destruct (map_to_list (risk_change_histogram self)) as [|kv items] eqn:Hitems.
  { simpl. by eexists _, _. }
  assert (Hne : risk_change_histogram self <> ∅).
  { intros Hempty. rewrite Hempty, map_to_list_empty in Hitems. done. }
  pose proof (histogram_total_positive _ Hpos Hne) as Htotal.
  destruct (Nat.eqb_spec (risk_change_histogram_sum self) 0) as [Hz | Hz]; [lia|].
  simpl. apply walk_buckets_returns.
Qed.

(** ** The walk over the buckets *)

(** The value of [summed_percentiles] after a run of buckets. *)
Definition summed_after (summed : Q) (buckets : list (Z * Q)) : Q :=
  foldl (fun acc (kv : Z * Q) => (acc + kv.2)%Q) summed buckets.

Lemma walk_buckets_skip (pre rest : list (Z * Q)) :
  forall summed message_budget score self,
    score ∉ pre.*1 ->
    walk_buckets (pre ++ rest) summed message_budget score self
    = walk_buckets rest (summed_after summed pre) message_budget score self.
Proof.
  induction pre as [|[rc p] pre IH]; intros summed b score self Hscore; simpl;
    [done|].
  simpl in Hscore. apply not_elem_of_cons in Hscore as [Hne Hscore].
  rewrite (proj2 (Z.eqb_neq score rc)) by done. simpl. by apply IH.
Qed.

Lemma walk_buckets_no_bucket (buckets : list (Z * Q)) summed message_budget score self :
  score ∉ buckets.*1 ->
  walk_buckets buckets summed message_budget score self = (inr false, self).
Proof.
  intros Hscore. rewrite <- (app_nil_r buckets).
  by rewrite walk_buckets_skip.
Qed.

(** X20.  The decision for a score whose bucket comes after the buckets [pre]:
    with [s] the share summed over [pre], the message is rejected when
    [s] has reached the budget, admitted when the bucket fits under the
    budget, and otherwise admitted when one draw of the generator is below
    [budget - s].  Only that last case draws, and it draws once. *)
Lemma walk_buckets_decision (pre post : list (Z * Q)) (p : Q)
    (summed message_budget : Q) (score : Z) (self : t) :
  NoDup (pre ++ (score, p) :: post).*1 ->
  let s := summed_after summed pre in
  walk_buckets (pre ++ (score, p) :: post) summed message_budget score self
  = if Qlt_bool s message_budget
    then if Qlt_bool message_budget (s + p)
         then (inr (Qlt_bool (FloatRandomState.stream (rng self)
                                (FloatRandomState.pos (rng self)))
                             (message_budget - s)),
               set_rng self (FloatRandomState.random (rng self)).2)
         else (inr true, self)
    else (inr false, self).
Proof.
  intros Hnd s. rewrite fmap_app in Hnd. simpl in Hnd.
  apply NoDup_app in Hnd as (_ & Hpre & Hpost).
  apply NoDup_cons in Hpost as [Hpost _].
  rewrite walk_buckets_skip.
  2:{ intros Hin. apply (Hpre score Hin). left. }
  fold s. simpl. rewrite Z.eqb_refl. simpl.
  destruct (Qlt_bool s message_budget).
  - destruct (Qlt_bool message_budget (s + p)); [|done].
    unfold bind, get, put. simpl.
    destruct (Qlt_bool _ (message_budget - s)); [done|].
    by rewrite walk_buckets_no_bucket.
  - by rewrite walk_buckets_no_bucket.
Qed.

Lemma walk_buckets_one_draw (buckets : list (Z * Q)) summed message_budget score self :
  NoDup buckets.*1 ->
  let r := walk_buckets buckets summed message_budget score self in
  FloatRandomState.stream (rng r.2) = FloatRandomState.stream (rng self)
  /\ (FloatRandomState.pos (rng self) <= FloatRandomState.pos (rng r.2)
      <= S (FloatRandomState.pos (rng self)))%nat.
Proof.
  intros Hnd r. unfold r. clear r. revert summed.
  induction buckets as [|[rc p] rest IH]; intros summed; simpl.
  - split; [done | lia].
  - simpl in Hnd. apply NoDup_cons in Hnd as [Hrc Hnd].
    destruct (Z.eqb_spec score rc) as [-> | Hne]; simpl; [|by apply IH].
    destruct (Qlt_bool summed message_budget).
    + destruct (Qlt_bool message_budget (summed + p)); [|simpl; split; [done | lia]].
      unfold bind, get, put. simpl.
      destruct (Qlt_bool _ (message_budget - summed)); simpl.
      * split; [done | lia].
      * rewrite walk_buckets_no_bucket by done. simpl. split; [done | lia].
    + rewrite walk_buckets_no_bucket by done. simpl. split; [done | lia].
Qed.

Lemma keys_of_mapped {A B : Type} (g : Z * A -> B) (l : list (Z * A)) :
  ((fun kv : Z * A => (kv.1, g kv)) <$> l).*1 = l.*1.
Proof. induction l as [|x l IH]; simpl; [done | f_equal; apply IH]. Qed.

Lemma sorted_keys_NoDup {B : Type} (g : Z * nat -> B) (R : relation (Z * B))
    `{!forall x y, Decision (R x y)} (l : list (Z * nat)) :
  NoDup l.*1 ->
  NoDup (merge_sort R ((fun kv : Z * nat => (kv.1, g kv)) <$> l)).*1.
Proof.
  intros Hl. rewrite merge_sort_Permutation, keys_of_mapped. exact Hl.
Qed.

Lemma scaled_risks_of_keys (self self0 : t) (scaled : list (Z * Q)) (self1 : t) :
  scaled_risks_of self self0 = (inr scaled, self1) -> NoDup scaled.*1.
Proof.
  unfold scaled_risks_of.
  pose proof (NoDup_fst_map_to_list (risk_change_histogram self)) as Hnd.
  destruct (map_to_list (risk_change_histogram self)) as [|kv items].
  { intros [= <- _]. constructor. }
  destruct (Nat.eqb _ 0); [done|]. intros [= <- _].
  apply (sorted_keys_NoDup
           (fun kv : Z * nat =>
              (inject_Z (Z.of_nat kv.2)
               / inject_Z (Z.of_nat (risk_change_histogram_sum self)))%Q)
           item_ge (kv :: items) Hnd).
Qed.

(** X21.  A send decision consumes at most one draw of the generator, and changes
    nothing else. *)
Lemma check_one_draw d now human score self :
  let r := _check_should_send_message_gaen d now human score self in
  same_but_rng self r.2
  /\ FloatRandomState.stream (rng r.2) = FloatRandomState.stream (rng self)
  /\ (FloatRandomState.pos (rng self) <= FloatRandomState.pos (rng r.2)
      <= S (FloatRandomState.pos (rng self)))%nat.
Proof.
  intros r. split; [apply check_frame|]. unfold r. clear r.
  unfold _check_should_send_message_gaen.
  destruct (in_burn_in d); [simpl; split; [done | lia]|].
  destruct (sent_recently now human); [simpl; split; [done | lia]|].
  unfold bind, get. simpl.
  destruct (budget_spent self d); [simpl; split; [done | lia]|].
  destruct (Conf.UPDATES_PER_DAY conf =? 0); [simpl; split; [done | lia]|].
  pose proof (scaled_risks_of_state self self) as Hst.
  pose proof (scaled_risks_of_keys self self) as Hkeys.
  destruct (scaled_risks_of self self) as [[e|scaled] self1]; simpl in Hst;
    subst self1; [simpl; split; [done | lia]|].
  apply walk_buckets_one_draw. by apply (Hkeys scaled self).
Qed.

(** ** The cooldown after a delivery *)

Lemma sub_days_max_dt (now' old now : DateTime.datetime) :
  DateTime.sub_days now' (DateTime.max_dt old now) <= DateTime.sub_days now' now.
Proof.
  unfold DateTime.sub_days, DateTime.sub.
  pose proof (max_dt_ge_r old now).
  apply Z.div_le_mono; [unfold DateTime.us_per_day; lia | lia].
Qed.

(** X17.  Under GAEN, a message of a sender that is handled right after a
    message of that sender was delivered, and before [DAYS_BETWEEN_MESSAGES]
    whole days have passed since that delivery, is dropped: the pass of the
    loop body leaves the state as it is, whatever the day, the score and the
    budget.  With [DAYS_BETWEEN_MESSAGES] at least 1 this is the case of two
    messages of one sender that follow each other in a batch. *)
Lemma send_update_message_after_delivery d now d' now' scores src dst msg msg' self :
  Conf.USE_GAEN conf = true ->
  UpdateMessage._sender_uid msg' = UpdateMessage._sender_uid msg ->
  DateTime.sub_days now' now < Conf.DAYS_BETWEEN_MESSAGES conf ->
  let self1 := (deliver_update_message d now src dst msg self).2 in
  (send_update_message d' now' scores msg' self1).2 = self1.
Proof.
  intros Hgaen Hsender Hdays.
  destruct (deliver_update_message_run d now src dst msg self)
    as (self1 & -> & _ & _ & Hhd & _).
  simpl. unfold send_update_message. rewrite Hgaen, Hsender.
  unfold bind at 1. unfold get. simpl.
  unfold bind at 1. unfold getitem at 1.
  rewrite Hhd, lookup_insert_eq. simpl.
  unfold bind at 1. unfold getitem at 1.
  destruct (_ !! UpdateMessage._receiver_uid msg') as [dst'|]; [|done].
  simpl. unfold bind at 1. unfold bind at 1. unfold getitem at 1.
  destruct (scores !! UpdateMessage._sender_uid msg) as [score|]; [|done].
  simpl. rewrite check_sent_recently; [done|].
  unfold sent_recently. simpl. apply Z.ltb_lt.
  pose proof (sub_days_max_dt now' (Human.latest_update_time src) now). lia.
Qed.


End city.

(** ** Concrete runs *)

(** Four people, half of them may send per day, one update a day, two days
    of burn-in after the intervention of day 5, 14 days of history. *)
Definition scenario_conf : Conf.t := Conf.mk 14 true (1 # 2) 5 2 1 4 1.

Definition human (n : Z) : Human.t := Human.mk n (DateTime.date 2020 1 1).

Definition three_humans : gmap Z Human.t :=
  <[1 := human 1]> (<[2 := human 2]> (<[3 := human 3]> ∅)).

Definition rng_zero : FloatRandomState.t := FloatRandomState.mk (fun _ => 0%Q) 0.

Definition city0 : t := init three_humans rng_zero.

Definition update (u sender receiver : Z) (t : DateTime.datetime)
  : UpdateMessage.t :=
  UpdateMessage.mk u sender receiver t 3.

Definition march_1 : DateTime.datetime := DateTime.date 2020 3 1.
Definition march_15_noon : DateTime.datetime :=
  DateTime.mk_datetime 2020 3 15 12 0 0 0.

(** Day 7: the three of them want to send, scores 1, 2 and 3. *)
Definition city_day_7 : t :=
  (register_new_messages scenario_conf 7 march_15_noon
     [update 10 1 2 march_1; update 11 2 3 march_1; update 12 3 1 march_1]
     (fun h => h) city0).2.

Lemma budget_never_exceeds_quota_witness :
  Conf.USE_GAEN scenario_conf = true
  /\ sent_messages_by_day city_day_7 !! 7 = Some 2%nat
  /\ Z.of_nat 2 <= quota scenario_conf.
Proof.
  split; [reflexivity|].
  assert (Hsent : sent_messages_by_day city_day_7 !! 7 = Some 2%nat)
    by (vm_compute; reflexivity).
  split; [exact Hsent|].
  apply (proj1 (budget_never_exceeds_quota scenario_conf eq_refl) city_day_7
           (reachable_register scenario_conf _ _ _ _ _
              (reachable_init scenario_conf _ _)) 7 2%nat Hsent).
Defined.

Lemma gaen_burn_in_and_cooldown_witness :
  _check_should_send_message_gaen scenario_conf 6 march_15_noon (human 1) 3 city0
  = (inr false, city0)
  /\ in_burn_in scenario_conf 7 = false.
Proof.
  destruct (proj2 (proj2 (gaen_burn_in_and_cooldown scenario_conf))
              eq_refl eq_refl) as [Hday6 Hday7].
  split; [apply Hday6 | exact Hday7].
Defined.

(** On day 7 the same human, whose risk changed most, is allowed to send. *)
Lemma day_7_is_eligible :
  (_check_should_send_message_gaen scenario_conf 7 march_15_noon (human 3) 3
     (with_updated_histogram city0
        (updater_scores_of
           [update 10 1 2 march_1; update 11 2 3 march_1; update 12 3 1 march_1]
           (fun h => h)))).1
  = inr true.
Proof. vm_compute. reflexivity. Qed.

Lemma register_new_messages_effects_witness :
  let self' :=
    (register_new_messages scenario_conf 6 march_15_noon
       [update 10 1 2 march_1] (fun h => h) city0).2 in
  risk_change_histogram_sum self' = 1%nat.
Proof.
  intros self'.
  refine (proj1 (proj1 (register_new_messages_effects scenario_conf eq_refl)
                   6 march_15_noon [update 10 1 2 march_1] (fun h => h) city0 _)).
  intros m Hm. apply list_elem_of_singleton in Hm. subst m.
  exists (human 1). vm_compute. reflexivity.
Defined.

(** C3 (counterexample).  On day 6, during the burn-in, the message of human
    1 is rejected: nothing is sent, no mailbox is written, the time of last
    update stays; yet the bucket of its score and the running total have
    both gone from 0 to 1. *)
Lemma histogram_counts_rejected_sender :
  let r := register_new_messages scenario_conf 6 march_15_noon
             [update 10 1 2 march_1] (fun h => h) city0 in
  r.1 = inr tt
  /\ in_burn_in scenario_conf 6 = true
  /\ sent_messages_by_day r.2 = sent_messages_by_day city0
  /\ global_mailbox r.2 = global_mailbox city0
  /\ hd r.2 = hd city0
  /\ risk_change_histogram city0 !! 1 = None
  /\ risk_change_histogram r.2 !! 1 = Some 1%nat
  /\ risk_change_histogram_sum city0 = 0%nat
  /\ risk_change_histogram_sum r.2 = 1%nat.
Proof. vm_compute. repeat split. Qed.

(** C4.  The docstring of [cleanup_global_mailbox] says that it removes all
    messages older than 14 days.  A message met on March 1st at midnight is
    still in the mailbox after the clean-up of March 15th at noon, fourteen
    days and a half later: the code compares the whole days of the age, 14,
    with [<=]. *)
Lemma cleanup_keeps_message_older_than_14_days :
  let m := update 10 1 2 march_1 in
  let self := set_global_mailbox city0 {[2 := {[10 := [m]]}]} in
  Conf.TRACING_N_DAYS_HISTORY scenario_conf = 14
  /\ in_global_mailbox
       (global_mailbox (cleanup_global_mailbox scenario_conf self march_15_noon))
       2 10 m
  /\ 14 * DateTime.us_per_day
     < DateTime.sub march_15_noon (UpdateMessage.encounter_time m).
Proof.
  intros m self. split; [reflexivity|]. split; [|reflexivity].
  apply in_cleanup_global_mailbox. split; [|reflexivity].
  exists {[10 := [m]]}. split; [reflexivity|].
  exists [m]. split; [reflexivity | left].
Qed.

(** ** Concrete runs of the further facts *)

(** The scenario without GAEN. *)
Definition plain_conf : Conf.t := Conf.mk 14 false (1 # 2) 5 2 1 4 1.

(** Nobody in the city has the name 9. *)
Lemma register_new_messages_unknown_sender_witness :
  register_new_messages scenario_conf 7 march_15_noon
    [update 10 1 2 march_1; update 11 9 3 march_1] (fun h => h) city0
  = (inl KeyError, city0).
Proof.
  apply (register_new_messages_unknown_sender scenario_conf 7 march_15_noon
           [update 10 1 2 march_1; update 11 9 3 march_1] (fun h => h) city0
           (update 11 9 3 march_1)).
  - right. left.
  - reflexivity.
Defined.

(** Day 6 lies in the burn-in of the scenario, and human 1 sends twice:
    without GAEN both messages are delivered. *)
Lemma register_new_messages_no_gaen_witness :
  let ms := [update 10 1 2 march_1; update 11 1 3 march_1] in
  exists self',
    register_new_messages plain_conf 6 march_15_noon ms (fun h => h) city0
    = (inr tt, self')
    /\ sent_on self' 6 = (sent_on city0 6 + length ms)%nat
    /\ risk_change_histogram self' = risk_change_histogram city0
    /\ risk_change_histogram_sum self' = risk_change_histogram_sum city0
    /\ rng self' = rng city0
    /\ (forall u k m, in_global_mailbox (global_mailbox city0) u k m ->
                      in_global_mailbox (global_mailbox self') u k m)
    /\ (forall m dst, m ∈ ms ->
          hd city0 !! UpdateMessage._receiver_uid m = Some dst ->
          in_global_mailbox (global_mailbox self') (Human.name dst)
            (UpdateMessage.uid m) m).
Proof.
  intros ms.
  apply (register_new_messages_no_gaen plain_conf 6 march_15_noon ms
           (fun h => h) city0 eq_refl).
  intros m Hm. unfold ms in Hm.
  apply elem_of_cons in Hm as [-> | Hm]; [split; eexists; reflexivity|].
  apply list_elem_of_singleton in Hm. subst m. split; eexists; reflexivity.
Defined.

Lemma reachable_histogram_ok_witness :
  risk_change_histogram_sum city_day_7
  = histogram_total (risk_change_histogram city_day_7)
  /\ (forall s n, risk_change_histogram city_day_7 !! s = Some n -> (1 <= n)%nat)
  /\ (Conf.UPDATES_PER_DAY scenario_conf <> 0 ->
      forall d now human score,
      exists b self',
        _check_should_send_message_gaen scenario_conf d now human score city_day_7
        = (inr b, self')).
Proof.
  apply (reachable_histogram_ok scenario_conf city_day_7).
  apply (reachable_register scenario_conf _ _ _ _ _
           (reachable_init scenario_conf _ _)).
Defined.

(** Three buckets of one third each and a budget of one half: the bucket of
    score 2 comes second and straddles the budget, so that the generator
    decides; it draws 0, which is below the sixth that is left. *)
Lemma walk_buckets_decision_witness :
  walk_buckets ([(3, 1 # 3)] ++ (2, 1 # 3) :: [(1, 1 # 3)]) 0 (1 # 2) 2 city0
  = (inr true, set_rng city0 (FloatRandomState.random (rng city0)).2).
Proof.
  apply (walk_buckets_decision [(3, 1 # 3)] [(1, 1 # 3)] (1 # 3) 0 (1 # 2) 2 city0).
  apply (bool_decide_unpack _). vm_compute. exact I.
Defined.

(** Human 1 sends to 2 and, in the same batch, to 3: the second message is
    dropped. *)
Lemma send_update_message_after_delivery_witness :
  let self1 :=
    (deliver_update_message 7 march_15_noon (human 1) (human 2)
       (update 10 1 2 march_1) city0).2 in
  (send_update_message scenario_conf 7 march_15_noon {[1 := 3]}
     (update 11 1 3 march_1) self1).2 = self1.
Proof.
  apply (send_update_message_after_delivery scenario_conf 7 march_15_noon
           7 march_15_noon {[1 := 3]} (human 1) (human 2)
           (update 10 1 2 march_1) (update 11 1 3 march_1) city0);
    reflexivity.
Defined.


End City.

(* ===================================================================== *)
(** * [covid19sim/base.py]: the test facility *)
(* ===================================================================== *)

(** An [OrderedSet] of humans: their names in insertion order. *)
Module OrderedSet.

(** [x in s] *)
Definition contains (s : list Z) (x : Z) : bool := bool_decide (x ∈ s).

(** [s.add(x)]: at the end, unless [x] is a member. *)
Definition add (s : list Z) (x : Z) : list Z := if contains s x then s else s ++ [x].

(** [s.remove(x)]: [KeyError] ([None]) when [x] is not a member. *)
Fixpoint remove (s : list Z) (x : Z) : option (list Z) :=
  match s with
  | [] => None
  | y :: s' => if decide (y = x) then Some s' else cons y <$> remove s' x
  end.

End OrderedSet.

Module TestFacility.

(** What the facility reads of a [Human]; the class itself is not part of
    the sources at hand.  The queue holds the humans by name, and the
    functions that look at a human take [who], the humans as they are at the
    time of the call. *)
Record human : Type := mk_human {
  symptoms : list string;
  test_recommended : bool;
  in_hospital_or_icu : bool   (* isinstance(human.location, (Hospital, ICU)) *)
}.

(** The keys of [conf] that the facility reads. *)
Record conf : Type := mk_conf {
  P_TEST_SEVERE : Q;
  P_TEST_MODERATE : Q;
  P_TEST_MILD : Q
}.

Record t : Type := mk {
  test_type_preference : list string;
  max_capacity_per_test_type : gmap string Z;
  test_count_today : gmap string Z;       (* defaultdict(int) *)
  test_queue : list Z;
  last_date_to_check_tests : Z * Z * Z
}.

Definition set_test_count_today (self : t) (counts : gmap string Z) : t :=
  mk (test_type_preference self) (max_capacity_per_test_type self) counts
     (test_queue self) (last_date_to_check_tests self).

Definition set_test_queue (self : t) (queue : list Z) : t :=
  mk (test_type_preference self) (max_capacity_per_test_type self)
     (test_count_today self) queue (last_date_to_check_tests self).

Definition set_last_date_to_check_tests (self : t) (d : Z * Z * Z) : t :=
  mk (test_type_preference self) (max_capacity_per_test_type self)
     (test_count_today self) (test_queue self) d.

(** [timestamp.date()] *)
Definition date_of (timestamp : DateTime.datetime) : Z * Z * Z :=
  (DateTime.year timestamp, DateTime.month timestamp, DateTime.day timestamp).

(** [__init__]; [timestamp] is [env.timestamp]. *)
Definition init (test_type_preference : list string)
    (max_capacity_per_test_type : gmap string Z)
    (timestamp : DateTime.datetime) : t :=
  mk test_type_preference max_capacity_per_test_type ∅ [] (date_of timestamp).

(** ** [reset_tests_capacity] *)

(** [any(human.symptoms)]: some symptom is a non-empty string. *)
Definition any_symptom (h : human) : bool :=
  existsb (fun s => negb (String.eqb s "")) (symptoms h).

(** [not any(human.symptoms) and not human.test_recommended] *)
Definition leaves_queue (h : human) : bool :=
  negb (any_symptom h) && negb (test_recommended h).

(** [[self.test_queue.remove(human) for human in to_remove]] *)
Fixpoint remove_each (to_remove : list Z) (queue : list Z)
  : (exn + unit) * list Z :=
  match to_remove with
  | [] => (inr tt, queue)
  | human :: rest =>
      match OrderedSet.remove queue human with
      | None => (inl KeyError, queue)
      | Some queue' => remove_each rest queue'
      end
  end.

Definition reset_tests_capacity (who : Z -> human)
    (timestamp : DateTime.datetime) (self : t) : (exn + unit) * t :=
  if decide (last_date_to_check_tests self <> date_of timestamp) then
    let self := set_last_date_to_check_tests self (date_of timestamp) in
    let self := set_test_count_today self ((fun _ => 0) <$> test_count_today self) in
    let to_remove :=
      filter (fun human => leaves_queue (who human) = true) (test_queue self) in
    let '(r, queue) := remove_each to_remove (test_queue self) in
    (r, set_test_queue self queue)
  else (inr tt, self).

(** ** [get_available_test] *)

(** [self.test_count_today[test_type]]: reading a missing key of a
    [defaultdict(int)] writes it with 0. *)
Definition read_count (self : t) (test_type : string) : Z * t :=
  match test_count_today self !! test_type with
  | Some count => (count, self)
  | None =>
      (0, set_test_count_today self (<[test_type := 0]> (test_count_today self)))
  end.

(** The loop over the preferences; [None] is Python's [None], returned when
    the loop ends. *)
Fixpoint first_available (preference : list string) (self : t)
  : (exn + option string) * t :=
  match preference with
  | [] => (inr None, self)
  | test_type :: rest =>
      let '(count, self) := read_count self test_type in
      match max_capacity_per_test_type self !! test_type with
      | None => (inl KeyError, self)
      | Some capacity =>
          if count <? capacity
          then (inr (Some test_type),
                set_test_count_today self
                  (<[test_type := count + 1]> (test_count_today self)))
          else first_available rest self
      end
  end.

Definition get_available_test (self : t) : (exn + option string) * t :=
  first_available (test_type_preference self) self.

(** ** [add_to_test_queue] *)

Definition add_to_test_queue (human : Z) (self : t) : t :=
  if OrderedSet.contains (test_queue self) human then self
  else set_test_queue self (OrderedSet.add (test_queue self) human).

(** ** [score_test_need] *)

Definition score_test_need (c : conf) (h : human) : Q :=
  let score := 0%Q in
  let score :=
    if bool_decide ("severe"%string ∈ symptoms h) then (score + P_TEST_SEVERE c)%Q
    else if bool_decide ("moderate"%string ∈ symptoms h)
         then (score + P_TEST_MODERATE c)%Q
    else if bool_decide ("mild"%string ∈ symptoms h) then (score + P_TEST_MILD c)%Q
    else score in
  let score := if in_hospital_or_icu h then (score + 1)%Q else score in
  let score := if test_recommended h then (score + (3 # 10))%Q else score in
  score.

(** ** [clear_test_queue] *)

(** [sorted(l, key=key)]: ascending and stable. *)
Fixpoint insert_by {A : Type} (key : A -> Q) (x : A) (l : list A) : list A :=
  match l with
  | [] => [x]
  | y :: l' =>
      if Qle_bool (key x) (key y) then x :: y :: l' else y :: insert_by key x l'
  end.

Definition sorted {A : Type} (key : A -> Q) (l : list A) : list A :=
  foldr (insert_by key) [] l.

(** [if test_type:] holds for a string that is not empty. *)
Definition truthy (test_type : option string) : bool :=
  match test_type with
  | Some s => negb (String.eqb s "")
  | None => false
  end.

(** The loop over the triage.  The result of a test is drawn and stored by
    the human ([human.rng], [set_test_info]), outside the sources at hand:
    the loop answers the tests it hands out, in order. *)
Fixpoint administer (test_triage : list Z) (self : t)
  : (exn + list (Z * string)) * t :=
  match test_triage with
  | [] => (inr [], self)
  | human :: rest =>
      match get_available_test self with
      | (inl e, self) => (inl e, self)
      | (inr test_type, self) =>
          if truthy test_type then
            match OrderedSet.remove (test_queue self) human with
            | None => (inl KeyError, self)
            | Some queue =>
                match administer rest (set_test_queue self queue) with
                | (inl e, self) => (inl e, self)
                | (inr given, self) =>
                    (inr ((human, default ""%string test_type) :: given), self)
                end
            end
          else (inr [], self)
      end
  end.

Definition clear_test_queue (c : conf) (who : Z -> human)
    (timestamp : DateTime.datetime) (self : t)
  : (exn + list (Z * string)) * t :=
  match reset_tests_capacity who timestamp self with
  | (inl e, self) => (inl e, self)
  | (inr _, self) =>
      let test_triage :=
        sorted (fun human => (- score_test_need c (who human))%Q) (test_queue self) in
      administer test_triage self
  end.

(** ** Facts on [OrderedSet] *)

Lemma ordered_set_remove_Permutation (s : list Z) (x : Z) :
  forall s', OrderedSet.remove s x = Some s' -> s ≡ₚ x :: s'.
Proof.
  induction s as [|y s IH]; intros s'; simpl; [done|].
  destruct (decide (y = x)) as [->|Hne].
  - by intros [= <-].
  - destruct (OrderedSet.remove s x) as [s1|]; simpl; [|done].
    intros [= <-]. rewrite (IH s1 eq_refl). apply Permutation_swap.
Qed.

Lemma ordered_set_remove_member (s : list Z) (x : Z) :
  x ∈ s -> is_Some (OrderedSet.remove s x).
Proof.
  induction s as [|y s IH]; intros Hin; simpl; [by apply elem_of_nil in Hin|].
  destruct (decide (y = x)) as [->|Hne]; [by eexists|].
  apply elem_of_cons in Hin as [-> | Hin]; [done|].
  destruct (IH Hin) as [s' ->]. by eexists.
Qed.

Lemma ordered_set_remove_NoDup (s s' : list Z) (x : Z) :
  OrderedSet.remove s x = Some s' -> NoDup s -> NoDup s'.
Proof.
  intros Hrm Hnd. apply ordered_set_remove_Permutation in Hrm.
  rewrite Hrm in Hnd. by apply NoDup_cons in Hnd as [_ Hnd].
Qed.

Lemma ordered_set_remove_first (pre s : list Z) (x : Z) :
  x ∉ pre -> OrderedSet.remove (pre ++ x :: s) x = Some (pre ++ s).
Proof.
  induction pre as [|y pre IH]; intros Hx; simpl.
  - by rewrite decide_True.
  - apply not_elem_of_cons in Hx as [Hne Hx].
    rewrite decide_False by done. by rewrite IH.
Qed.

Lemma ordered_set_add_NoDup (s : list Z) (x : Z) :
  NoDup s -> NoDup (OrderedSet.add s x).
Proof.
  intros Hnd. unfold OrderedSet.add, OrderedSet.contains.
  case_bool_decide as Hx; [done|].
  apply NoDup_app. split; [done|]. split; [|apply NoDup_singleton].
  intros y Hy Hy'. apply list_elem_of_singleton in Hy'. by subst y.
Qed.

(** ** Facts on the counters *)

(** The count of a test type, read without writing. *)
Definition count_of (self : t) (test_type : string) : Z :=
  default 0 (test_count_today self !! test_type).

(** Everything but the counters is the same. *)
Definition same_setup (self self' : t) : Prop :=
  test_type_preference self' = test_type_preference self
  /\ max_capacity_per_test_type self' = max_capacity_per_test_type self
  /\ test_queue self' = test_queue self
  /\ last_date_to_check_tests self' = last_date_to_check_tests self.

(** The types of [l] are known and used up. *)
Definition used_up (self : t) (l : list string) : Prop :=
  forall test_type, test_type ∈ l ->
    exists capacity,
      max_capacity_per_test_type self !! test_type = Some capacity
      /\ capacity <= count_of self test_type.

Lemma read_count_run (self : t) (test_type : string) :
  exists self',
    read_count self test_type = (count_of self test_type, self')
    /\ test_count_today self' !! test_type = Some (count_of self test_type)
    /\ (forall test_type', count_of self' test_type' = count_of self test_type')
    /\ same_setup self self'.
Proof.
  unfold read_count, count_of.
  destruct (test_count_today self !! test_type) as [c|] eqn:Hc; simpl.
  - exists self. by rewrite Hc.
  - eexists. split; [reflexivity|]. simpl. rewrite lookup_insert_eq.
    split; [done|]. split; [|done].
    intros ty'. destruct (decide (test_type = ty')) as [<-|Hne].
    + by rewrite lookup_insert_eq, Hc.
    + by rewrite lookup_insert_ne.
Qed.

(** The three outcomes of the loop over the preferences. *)
Definition outcome_of (preference : list string) (self : t)
    (r : exn + option string) (self' : t) : Prop :=
  match r with
  | inr (Some test_type) =>
      exists before after capacity,
        preference = before ++ test_type :: after
        /\ used_up self before
        /\ max_capacity_per_test_type self !! test_type = Some capacity
        /\ count_of self test_type < capacity
        /\ (forall test_type',
              count_of self' test_type'
              = if decide (test_type' = test_type)
                then count_of self test_type + 1
                else count_of self test_type')
  | inr None =>
      used_up self preference
      /\ (forall test_type', count_of self' test_type' = count_of self test_type')
  | inl e =>
      e = KeyError
      /\ (exists before test_type after,
            preference = before ++ test_type :: after
            /\ used_up self before
            /\ max_capacity_per_test_type self !! test_type = None)
      /\ (forall test_type', count_of self' test_type' = count_of self test_type')
  end.

Lemma used_up_frame (self self' : t) (l : list string) :
  max_capacity_per_test_type self' = max_capacity_per_test_type self ->
  (forall test_type, count_of self' test_type = count_of self test_type) ->
  used_up self' l -> used_up self l.
Proof.
  intros Hcap Hcount Hl ty Hty. destruct (Hl ty Hty) as (cap & Hc & Hle).
  exists cap. by rewrite <- Hcap, <- Hcount.
Qed.

Lemma first_available_run (preference : list string) :
  forall self,
    same_setup self (first_available preference self).2
    /\ outcome_of preference self (first_available preference self).1
         (first_available preference self).2.
Proof.
  induction preference as [|ty rest IH]; intros self; simpl.
  - split; [done|]. split; [|done]. intros ty Hty. by apply elem_of_nil in Hty.
  - destruct (read_count_run self ty) as (self1 & -> & Hread & Hcount & Hsame).
    pose proof Hsame as (Hp & Hcap & Hq & Hd).
    rewrite Hcap.
    destruct (max_capacity_per_test_type self !! ty) as [cap|] eqn:Hty; simpl.
    + destruct (Z.ltb_spec (count_of self ty) cap) as [Hlt | Hge]; simpl.
      * split; [done|].
        exists [], rest, cap. split; [done|].
        split; [intros ty' Hty'; by apply elem_of_nil in Hty'|].
        split; [done|]. split; [done|].
        intros ty'. unfold count_of at 1. simpl.
        destruct (decide (ty' = ty)) as [->|Hne].
        -- by rewrite lookup_insert_eq.
        -- rewrite lookup_insert_ne by done. apply Hcount.
      * destruct (IH self1) as [Hsame' Hout].
        split.
        { destruct Hsame' as (Hp' & Hcap' & Hq' & Hd').
          repeat split; congruence. }
        assert (Hfull : used_up self [ty]).
        { intros ty' Hty'. apply list_elem_of_singleton in Hty'. subst ty'.
          by exists cap. }
        destruct (first_available rest self1) as [[e|[ty1|]] self2]; simpl in *.
        -- destruct Hout as (-> & (before & ty1 & after & -> & Hbefore & Hnone) & Hc).
           split; [done|]. split.
           ++ exists (ty :: before), ty1, after. split; [done|]. split.
              ** intros ty' Hty'. apply elem_of_cons in Hty' as [-> | Hty'].
                 --- by exists cap.
                 --- by apply (used_up_frame self self1 before Hcap Hcount).
              ** by rewrite <- Hcap.
           ++ intros ty'. by rewrite Hc.
        -- destruct Hout as (before & after & cap1 & -> & Hbefore & Hcap1 & Hlt & Hc).
           exists (ty :: before), after, cap1. split; [done|]. split.
           ++ intros ty' Hty'. apply elem_of_cons in Hty' as [-> | Hty'].
              ** by exists cap.
              ** by apply (used_up_frame self self1 before Hcap Hcount).
           ++ split; [by rewrite <- Hcap|]. split; [by rewrite <- Hcount|].
              intros ty'. rewrite Hc. by rewrite !Hcount.
        -- destruct Hout as [Hrest Hc]. split.
           ++ intros ty' Hty'. apply elem_of_cons in Hty' as [-> | Hty'].
              ** by exists cap.
              ** by apply (used_up_frame self self1 rest Hcap Hcount).
           ++ intros ty'. by rewrite Hc.
    + split; [done|]. split; [done|]. split; [|done].
      exists [], ty, rest. split; [done|]. split; [|done].
      intros ty' Hty'. by apply elem_of_nil in Hty'.
Qed.


(** ** Facts on [reset_tests_capacity] *)

Lemma remove_each_filter (P : Z -> bool) (queue : list Z) :
  forall before : list Z,
    (forall x, x ∈ before -> P x = false) ->
    remove_each (filter (fun x => P x = true) queue) (before ++ queue)
    = (inr tt, before ++ filter (fun x => P x = false) queue).
Proof.
  induction queue as [|x queue IH]; intros before Hbefore; [done|].
  destruct (P x) eqn:Hx.
  - rewrite filter_cons_True by done. rewrite filter_cons_False by congruence.
    simpl. rewrite ordered_set_remove_first.
    + by apply IH.
    + intros Hin. specialize (Hbefore x Hin). congruence.
  - rewrite filter_cons_False by congruence. rewrite filter_cons_True by done.
    rewrite (cons_middle x before), app_assoc. rewrite IH.
    + by rewrite <- app_assoc.
    + intros y Hy. apply elem_of_app in Hy as [Hy | Hy]; [by apply Hbefore|].
      apply list_elem_of_singleton in Hy. by subst y.
Qed.

Lemma reset_tests_capacity_run (who : Z -> human)
    (timestamp : DateTime.datetime) (self : t) :
  reset_tests_capacity who timestamp self
  = (inr tt,
     if decide (last_date_to_check_tests self <> date_of timestamp)
     then mk (test_type_preference self) (max_capacity_per_test_type self)
             ((fun _ => 0) <$> test_count_today self)
             (filter (fun h => leaves_queue (who h) = false) (test_queue self))
             (date_of timestamp)
     else self).
Proof.
  unfold reset_tests_capacity.
  destruct (decide (last_date_to_check_tests self <> date_of timestamp)); [|done].
  simpl.
  pose proof (remove_each_filter (fun h => leaves_queue (who h)) (test_queue self)
                [] ltac:(by intros x Hx; apply elem_of_nil in Hx)) as Hrm.
  simpl in Hrm. by rewrite Hrm.
Qed.

(** ** Facts on [sorted] *)

Lemma insert_by_Permutation {A : Type} (key : A -> Q) (x : A) (l : list A) :
  insert_by key x l ≡ₚ x :: l.
Proof.
  induction l as [|y l IH]; simpl; [done|].
  destruct (Qle_bool (key x) (key y)); [done|].
  rewrite IH. apply Permutation_swap.
Qed.

Lemma sorted_Permutation {A : Type} (key : A -> Q) (l : list A) :
  sorted key l ≡ₚ l.
Proof.
  induction l as [|x l IH]; simpl; [done|].
  unfold sorted in IH. by rewrite insert_by_Permutation, IH.
Qed.

Lemma insert_by_sorted {A : Type} (key : A -> Q) (x : A) (l : list A) :
  StronglySorted (fun a b => (key a <= key b)%Q) l ->
  StronglySorted (fun a b => (key a <= key b)%Q) (insert_by key x l).
Proof.
  induction l as [|y l IH]; intros Hl; simpl.
  - by repeat constructor.
  - apply StronglySorted_cons in Hl as [Hy Hl].
    destruct (Qle_bool (key x) (key y)) eqn:Hxy.
    + apply Qle_bool_iff in Hxy.
      apply StronglySorted_cons. split.
      * constructor; [done|].
        eapply Forall_impl; [exact Hy|]. simpl. intros z Hz. lra.
      * by apply StronglySorted_cons.
    + assert (Hlt : (key y < key x)%Q).
      { apply Qnot_le_lt. intros Hle. apply Qle_bool_iff in Hle. congruence. }
      apply StronglySorted_cons. split; [|by apply IH].
      rewrite insert_by_Permutation. constructor; [lra | done].
Qed.

Lemma sorted_StronglySorted {A : Type} (key : A -> Q) (l : list A) :
  StronglySorted (fun a b => (key a <= key b)%Q) (sorted key l).
Proof.
  induction l as [|x l IH]; simpl; [constructor|]. by apply insert_by_sorted.
Qed.

(** ** Facts on the loop of [clear_test_queue] *)

(** No counter is beyond the capacity of its test type. *)
Definition within_capacity (self : t) : Prop :=
  forall test_type,
    count_of self test_type = 0
    \/ exists capacity,
         max_capacity_per_test_type self !! test_type = Some capacity
         /\ 0 < count_of self test_type <= capacity.

Lemma first_available_within_capacity (preference : list string) (self : t) :
  within_capacity self -> within_capacity (first_available preference self).2.
Proof.
  intros Hin.
  destruct (first_available_run preference self) as [(_ & Hcap & _) Hout].
  destruct (first_available preference self) as [[e|[ty|]] self']; simpl in *;
    intros ty'; rewrite Hcap.
  - destruct Hout as (_ & _ & Hc). rewrite Hc. apply Hin.
  - destruct Hout as (before & after & cap & _ & _ & Hty & Hlt & Hc).
    rewrite Hc. destruct (decide (ty' = ty)) as [->|Hne]; [|apply Hin].
    right. exists cap. split; [done|].
    destruct (Hin ty) as [H0 | (cap' & _ & Hpos & _)]; lia.
  - destruct Hout as [_ Hc]. rewrite Hc. apply Hin.
Qed.

Lemma administer_invariants (test_triage : list Z) :
  forall self,
    within_capacity self -> NoDup (test_queue self) ->
    within_capacity (administer test_triage self).2
    /\ NoDup (test_queue (administer test_triage self).2).
Proof.
  induction test_triage as [|h rest IH]; intros self Hin Hnd; simpl; [done|].
  unfold get_available_test.
  pose proof (first_available_within_capacity (test_type_preference self) self Hin)
    as Hin1.
  destruct (first_available_run (test_type_preference self) self)
    as [(_ & _ & Hq & _) _].
  destruct (first_available (test_type_preference self) self) as [[e|r] self1];
    simpl in *; [by rewrite Hq|].
  destruct (truthy r); simpl; [|by rewrite Hq].
  destruct (OrderedSet.remove (test_queue self1) h) as [queue|] eqn:Hrm;
    simpl; [|by rewrite Hq].
  assert (Hnd' : NoDup queue).
  { apply (ordered_set_remove_NoDup _ _ _ Hrm). by rewrite Hq. }
  destruct (IH (set_test_queue self1 queue) Hin1 Hnd') as [Hin2 Hnd2].
  by destruct (administer rest (set_test_queue self1 queue)) as [[e|given] self2].
Qed.

Lemma used_up_same (self self' : t) (l : list string) :
  max_capacity_per_test_type self' = max_capacity_per_test_type self ->
  (forall test_type, count_of self' test_type = count_of self test_type) ->
  used_up self l -> used_up self' l.
Proof.
  intros Hcap Hcount Hl ty Hty. destruct (Hl ty Hty) as (cap & Hc & Hle).
  exists cap. by rewrite Hcap, Hcount.
Qed.

(** The number of tests of a type among the tests handed out. *)
Definition tests_of (test_type : string) (given : list (Z * string)) : Z :=
  Z.of_nat (length (filter (fun ty => ty = test_type) given.*2)).

Lemma tests_of_cons (test_type ty : string) (h : Z) (given : list (Z * string)) :
  tests_of test_type ((h, ty) :: given)
  = (if decide (test_type = ty) then 1 else 0) + tests_of test_type given.
Proof.
  unfold tests_of. rewrite fmap_cons. cbn [snd].
  destruct (decide (test_type = ty)) as [->|Hne].
  - rewrite filter_cons_True by done. rewrite length_cons. lia.
  - rewrite filter_cons_False by congruence. lia.
Qed.

Lemma administer_run (test_triage : list Z) :
  forall self,
    test_triage ≡ₚ test_queue self ->
    (forall test_type, test_type ∈ test_type_preference self ->
       is_Some (max_capacity_per_test_type self !! test_type)) ->
    ""%string ∉ test_type_preference self ->
    exists given self' rest,
      administer test_triage self = (inr given, self')
      /\ test_type_preference self' = test_type_preference self
      /\ max_capacity_per_test_type self' = max_capacity_per_test_type self
      /\ last_date_to_check_tests self' = last_date_to_check_tests self
      /\ test_triage = given.*1 ++ rest
      /\ rest ≡ₚ test_queue self'
      /\ (rest <> [] -> used_up self' (test_type_preference self'))
      /\ (forall test_type,
            count_of self' test_type
            = count_of self test_type + tests_of test_type given)
      /\ (forall test_type, test_type ∈ given.*2 ->
            test_type ∈ test_type_preference self).
Proof.
  induction test_triage as [|h triage IH]; intros self Hperm Hknown Hempty; simpl.
  { exists [], self, []. split; [done|]. split; [done|]. split; [done|].
    split; [done|]. split; [done|]. split; [done|]. split; [done|].
    split; [intros ty; unfold tests_of; simpl; lia|].
    intros ty Hty. by apply elem_of_nil in Hty. }
  unfold get_available_test.
  destruct (first_available_run (test_type_preference self) self)
    as [(Hp & Hcap & Hq & Hd) Hout].
  destruct (first_available (test_type_preference self) self) as [[e|[ty|]] self1];
    simpl in *.
  - destruct Hout as (_ & (before & ty & after & Hpref & _ & Hnone) & _).
    destruct (Hknown ty) as [cap Hsome]; [|congruence].
    rewrite Hpref. apply elem_of_app. right. left.
  - destruct Hout as (before & after & cap & Hpref & _ & Hty & Hlt & Hc).
    assert (Hin : ty ∈ test_type_preference self).
    { rewrite Hpref. apply elem_of_app. right. left. }
    assert (Hne : (ty =? "")%string = false).
    { apply String.eqb_neq. intros ->. by apply Hempty. }
    rewrite Hne. simpl.
    assert (Hh : h ∈ test_queue self1).
    { rewrite Hq, <- Hperm. left. }
    destruct (ordered_set_remove_member _ _ Hh) as [queue Hrm]. rewrite Hrm.
    assert (Hperm' : triage ≡ₚ queue).
    { apply ordered_set_remove_Permutation in Hrm.
      rewrite Hq, <- Hperm in Hrm. by apply Permutation_cons_inv in Hrm. }
    destruct (IH (set_test_queue self1 queue)) as
      (given & self' & rest & Hrun & Hp' & Hcap' & Hd' & Htriage & Hrest
       & Hused & Hcount & Htypes); simpl.
    { exact Hperm'. }
    { rewrite Hp, Hcap. exact Hknown. }
    { by rewrite Hp. }
    rewrite Hrun. simpl in *.
    exists ((h, ty) :: given), self', rest.
    split; [done|]. split; [congruence|]. split; [congruence|].
    split; [congruence|]. split; [simpl; by rewrite Htriage|].
    split; [done|]. split; [done|]. split.
    + intros ty'. rewrite Hcount. unfold count_of at 1. simpl.
      fold (count_of self1 ty'). rewrite Hc, tests_of_cons.
      destruct (decide (ty' = ty)) as [->|Hne']; lia.
    + intros ty' Hty'. simpl in Hty'.
      apply elem_of_cons in Hty' as [-> | Hty']; [done|].
      rewrite <- Hp. by apply Htypes.
  - destruct Hout as [Hused Hc].
    exists [], self1, (h :: triage).
    split; [done|]. split; [done|]. split; [done|]. split; [done|].
    split; [done|]. split; [by rewrite Hq|]. split.
    + intros _. rewrite Hp. by apply (used_up_same self self1).
    + split; [intros ty; rewrite Hc; unfold tests_of; simpl; lia|].
      intros ty Hty. by apply elem_of_nil in Hty.
Qed.


(** ** The test facility: what the functions guarantee *)

(** X22.  [get_available_test] answers a test type only when that type is
    the first, in the order of preference, whose count is below its
    capacity, and then it counts it.  It answers [None] only when every
    preferred type is used up, and then it counts nothing.  It raises only
    [KeyError], and only when the preferred types before the first one
    without a capacity are all used up.  Whatever the outcome, nothing but
    the counters changes. *)
Lemma get_available_test_by_preference (self : t) :
  let preference := test_type_preference self in
  let r := get_available_test self in
  same_setup self r.2
  /\ match r.1 with
     | inr (Some test_type) =>
         exists before after capacity,
           preference = before ++ test_type :: after
           /\ used_up self before
           /\ max_capacity_per_test_type self !! test_type = Some capacity
           /\ count_of self test_type < capacity
           /\ (forall test_type',
                 count_of r.2 test_type'
                 = if decide (test_type' = test_type)
                   then count_of self test_type + 1
                   else count_of self test_type')
     | inr None =>
         used_up self preference
         /\ (forall test_type', count_of r.2 test_type' = count_of self test_type')
     | inl e =>
         e = KeyError
         /\ (exists before test_type after,
               preference = before ++ test_type :: after
               /\ used_up self before
               /\ max_capacity_per_test_type self !! test_type = None)
         /\ (forall test_type', count_of r.2 test_type' = count_of self test_type')
     end.
Proof.
  intros preference r.
  exact (first_available_run (test_type_preference self) self).
Qed.

(** X23.  [reset_tests_capacity] never raises.  On the day of the last reset it
    does nothing.  On another day every counter reads 0, and the queue keeps,
    in their order, the humans who have a symptom or a recommendation.  A
    second call at the same time does nothing. *)
Lemma reset_tests_capacity_new_day (who : Z -> human)
    (timestamp : DateTime.datetime) (self : t) :
  let r := reset_tests_capacity who timestamp self in
  r.1 = inr tt
  /\ last_date_to_check_tests r.2 = date_of timestamp
  /\ test_type_preference r.2 = test_type_preference self
  /\ max_capacity_per_test_type r.2 = max_capacity_per_test_type self
  /\ (last_date_to_check_tests self = date_of timestamp -> r.2 = self)
  /\ (last_date_to_check_tests self <> date_of timestamp ->
      (forall test_type, count_of r.2 test_type = 0)
      /\ test_queue r.2
         = filter (fun h => any_symptom (who h) || test_recommended (who h) = true)
             (test_queue self))
  /\ reset_tests_capacity who timestamp r.2 = (inr tt, r.2).
Proof.
  intros r. unfold r. clear r. rewrite reset_tests_capacity_run. simpl.
  destruct (decide (last_date_to_check_tests self <> date_of timestamp))
    as [Hne | Heq].
  - simpl. split; [done|]. split; [done|]. split; [done|]. split; [done|].
    split; [done|]. split.
    + intros _. split.
      * intros ty. unfold count_of. simpl. rewrite lookup_fmap.
        by destruct (test_count_today self !! ty).
      * apply list_filter_iff. intros h. unfold leaves_queue.
        destruct (any_symptom (who h)), (test_recommended (who h)); naive_solver.
    + rewrite reset_tests_capacity_run. simpl. by rewrite decide_False by auto.
  - apply dec_stable in Heq.
    split; [done|]. split; [done|]. split; [done|]. split; [done|].
    split; [done|]. split; [done|].
    rewrite reset_tests_capacity_run. by rewrite decide_False by auto.
Qed.

(** X24.  [clear_test_queue], when every preferred test type has a capacity and
    none is the empty string, returns normally, and with [given] the tests it
    hands out: the humans tested and the humans left make up the queue as the
    reset leaves it; nobody left has a higher score than somebody tested;
    somebody is left only when every preferred type is used up; the counter
    of each type has grown by the number of tests of that type; and only
    preferred types are handed out. *)
Lemma clear_test_queue_triage (c : conf) (who : Z -> human)
    (timestamp : DateTime.datetime) (self : t) :
  (forall test_type, test_type ∈ test_type_preference self ->
     is_Some (max_capacity_per_test_type self !! test_type)) ->
  ""%string ∉ test_type_preference self ->
  let self1 := (reset_tests_capacity who timestamp self).2 in
  exists given self',
    clear_test_queue c who timestamp self = (inr given, self')
    /\ given.*1 ++ test_queue self' ≡ₚ test_queue self1
    /\ (forall a b, a ∈ given.*1 -> b ∈ test_queue self' ->
          (score_test_need c (who b) <= score_test_need c (who a))%Q)
    /\ (test_queue self' <> [] -> used_up self' (test_type_preference self))
    /\ (forall test_type,
          count_of self' test_type
          = count_of self1 test_type + tests_of test_type given)
    /\ (forall test_type, test_type ∈ given.*2 ->
          test_type ∈ test_type_preference self).
Proof.
  intros Hknown Hempty self1. unfold self1, clear_test_queue. clear self1.
  rewrite reset_tests_capacity_run. cbn [fst snd].
  set (self1' := if decide (last_date_to_check_tests self <> date_of timestamp)
                 then _ else self).
  assert (Hp : test_type_preference self1' = test_type_preference self).
  { unfold self1'. by destruct (decide _). }
  assert (Hcap : max_capacity_per_test_type self1'
                 = max_capacity_per_test_type self).
  { unfold self1'. by destruct (decide _). }
  set (key := fun human : Z => (- score_test_need c (who human))%Q).
  destruct (administer_run (sorted key (test_queue self1')) self1')
    as (given & self' & rest & Hrun & Hp' & Hcap' & _ & Htriage & Hrest
        & Hused & Hcount & Htypes).
  { apply sorted_Permutation. }
  { rewrite Hp, Hcap. exact Hknown. }
  { by rewrite Hp. }
  exists given, self'. split; [exact Hrun|].
  split; [by rewrite <- Hrest, <- Htriage, sorted_Permutation|].
  split; [|split; [|split; [done|]]].
  - intros a b Ha Hb. rewrite <- Hrest in Hb.
    pose proof (sorted_StronglySorted key (test_queue self1')) as Hsorted.
    rewrite Htriage in Hsorted.
    pose proof (StronglySorted_app_1_elem_of _ _ _ a b Hsorted Ha Hb) as Hle.
    unfold key in Hle. simpl in Hle. lra.
  - intros Hleft. rewrite <- Hp, <- Hp'. apply Hused.
    intros ->. apply Hleft. by apply Permutation_nil_l in Hrest.
  - intros ty Hty. rewrite <- Hp. by apply Htypes.
Qed.

(** ** The states of a facility *)

(** The states a facility goes through, whatever is called and whatever
    the humans are. *)
Inductive run : t -> Prop :=
  | run_init preference capacities timestamp :
      run (init preference capacities timestamp)
  | run_add_to_test_queue human self :
      run self -> run (add_to_test_queue human self)
  | run_get_available_test self :
      run self -> run (get_available_test self).2
  | run_reset_tests_capacity who timestamp self :
      run self -> run (reset_tests_capacity who timestamp self).2
  | run_clear_test_queue c who timestamp self :
      run self -> run (clear_test_queue c who timestamp self).2.

(** X25.  In every state of a facility, also after a call that raised, no test
    type has been handed out more often than its capacity allows since the
    last reset, and nobody is twice in the queue. *)
Lemma capacity_never_exceeded (self : t) :
  run self ->
  (forall test_type capacity,
     max_capacity_per_test_type self !! test_type = Some capacity ->
     count_of self test_type <= Z.max 0 capacity)
  /\ (forall test_type,
        max_capacity_per_test_type self !! test_type = None ->
        count_of self test_type = 0)
  /\ NoDup (test_queue self).
Proof.
  intros Hrun.
  assert (Hinv : within_capacity self /\ NoDup (test_queue self)).
  { induction Hrun as [preference capacities timestamp
                      | h self _ [Hin Hnd]
                      | self _ [Hin Hnd]
                      | who timestamp self _ [Hin Hnd]
                      | c who timestamp self _ [Hin Hnd]].
    - split; [by left | constructor].
    - unfold add_to_test_queue.
      destruct (OrderedSet.contains (test_queue self) h) eqn:Hc; [done|].
      split; [done|]. simpl. by apply ordered_set_add_NoDup.
    - split; [by apply first_available_within_capacity|].
      destruct (first_available_run (test_type_preference self) self)
        as [(_ & _ & Hq & _) _].
      unfold get_available_test. by rewrite Hq.
    - rewrite reset_tests_capacity_run. simpl.
      destruct (decide (last_date_to_check_tests self <> date_of timestamp));
        [|done].
      split.
      + intros ty. left. unfold count_of. simpl. rewrite lookup_fmap.
        by destruct (test_count_today self !! ty).
      + simpl. by apply NoDup_filter.
    - unfold clear_test_queue. rewrite reset_tests_capacity_run.
      apply administer_invariants.
      + destruct (decide (last_date_to_check_tests self <> date_of timestamp));
          [|done].
        intros ty. left. unfold count_of. simpl. rewrite lookup_fmap.
        by destruct (test_count_today self !! ty).
      + destruct (decide (last_date_to_check_tests self <> date_of timestamp));
          [|done].
        simpl. by apply NoDup_filter. }
  destruct Hinv as [Hin Hnd]. split; [|split; [|done]].
  - intros ty cap Hcap. destruct (Hin ty) as [-> | (cap' & Hcap' & Hle)]; [lia|].
    rewrite Hcap in Hcap'. injection Hcap' as <-. lia.
  - intros ty Hnone. destruct (Hin ty) as [-> | (cap' & Hcap' & _)]; [done|].
    congruence.
Qed.


(** ** Concrete runs *)

(** Two test types with one test a day each, the laboratory test first. *)
Definition two_types : list string := ["lab"%string; "rapid"%string].
Definition one_each : gmap string Z :=
  <["lab"%string := 1]> (<["rapid"%string := 1]> ∅).

(** Human 1 has mild symptoms, human 2 severe ones, human 3 none but a
    recommendation; anybody else has neither. *)
Definition three_in_need (h : Z) : human :=
  if h =? 1 then mk_human ["mild"%string] false false
  else if h =? 2 then mk_human ["severe"%string] false false
  else if h =? 3 then mk_human [] true false
  else mk_human [] false false.

Definition need_conf : conf := mk_conf (3 # 5) (2 # 5) (1 # 5).

(** The facility of March 1st with the three humans queued in the order of
    their names. *)
Definition facility_march_1 : t :=
  add_to_test_queue 3
    (add_to_test_queue 2
       (add_to_test_queue 1 (init two_types one_each City.march_1))).

Lemma clear_test_queue_triage_witness :
  let self1 :=
    (reset_tests_capacity three_in_need City.march_15_noon facility_march_1).2 in
  exists given self',
    clear_test_queue need_conf three_in_need City.march_15_noon facility_march_1
    = (inr given, self')
    /\ given.*1 ++ test_queue self' ≡ₚ test_queue self1
    /\ (forall a b, a ∈ given.*1 -> b ∈ test_queue self' ->
          (score_test_need need_conf (three_in_need b)
           <= score_test_need need_conf (three_in_need a))%Q)
    /\ (test_queue self' <> [] ->
        used_up self' (test_type_preference facility_march_1))
    /\ (forall test_type,
          count_of self' test_type
          = count_of self1 test_type + tests_of test_type given)
    /\ (forall test_type, test_type ∈ given.*2 ->
          test_type ∈ test_type_preference facility_march_1).
Proof.
  apply (clear_test_queue_triage need_conf three_in_need City.march_15_noon
           facility_march_1).
  - intros ty Hty. simpl in Hty.
    apply elem_of_cons in Hty as [-> | Hty]; [by eexists|].
    apply list_elem_of_singleton in Hty. subst ty. by eexists.
  - simpl. intros Hin.
    apply elem_of_cons in Hin as [Hin | Hin]; [discriminate Hin|].
    apply list_elem_of_singleton in Hin. discriminate Hin.
Defined.

Lemma capacity_never_exceeded_witness :
  let self :=
    (clear_test_queue need_conf three_in_need City.march_15_noon
       facility_march_1).2 in
  (forall test_type capacity,
     max_capacity_per_test_type self !! test_type = Some capacity ->
     count_of self test_type <= Z.max 0 capacity)
  /\ (forall test_type,
        max_capacity_per_test_type self !! test_type = None ->
        count_of self test_type = 0)
  /\ NoDup (test_queue self).
Proof.
  apply (capacity_never_exceeded
           (clear_test_queue need_conf three_in_need City.march_15_noon
              facility_march_1).2).
  exact (run_clear_test_queue need_conf three_in_need City.march_15_noon _
           (run_add_to_test_queue 3 _
              (run_add_to_test_queue 2 _
                 (run_add_to_test_queue 1 _
                    (run_init two_types one_each City.march_1))))).
Defined.

(** The run above: the two tests go to human 2, of score 0.6, and to human 3,
    of score 0.3; human 1, of score 0.2, stays in the queue. *)
Lemma march_15_triage :
  (clear_test_queue need_conf three_in_need City.march_15_noon facility_march_1).1
  = inr [(2, "lab"%string); (3, "rapid"%string)]
  /\ test_queue
       (clear_test_queue need_conf three_in_need City.march_15_noon
          facility_march_1).2 = [1].
Proof. split; vm_compute; reflexivity. Qed.


End TestFacility.
